(** * Document question-answering backend: segmentation, in-memory corpus,
      similarity search and answer composition.

    A shallow embedding of [app/services/document_service.py],
    [app/services/vertex_rag_service.py], [app/core/config.py] and the parts
    of [app/models/schemas.py] they use, followed by the properties of the
    retrieval engine.

    Conventions of the embedding:
    - a Python [str] is a list of Unicode code points ([pystr]); [len] is
      [length];
    - a Python [int] is a [Z];
    - a Python [float] (and a numpy [float64]) is an IEEE-754 binary64 value,
      a [spec_float] with 53 bits of precision and [emax = 1024];
    - a Python [dict] is an insertion-ordered association list ([odict]);
    - a function that can raise returns a [result]; service methods, which
      also read and write the two services' dictionaries, live in the monad
      [M] over the record [World]. *)

From Stdlib Require Import List ZArith NArith Lia Bool Ascii String.
From Stdlib Require Import Sorting.Sorted.
From Stdlib Require Import Floats.SpecFloat.
Import ListNotations.

Set Implicit Arguments.

(** ** Python strings *)

Module PyStr.

Definition char := N.
Definition pystr := list char.

Definition char_eqb (a b : char) : bool := N.eqb a b.

Fixpoint eqb (s t : pystr) : bool :=
  match s, t with
  | [], [] => true
  | a :: s', b :: t' => char_eqb a b && eqb s' t'
  | _, _ => false
  end.

(** [str.isspace] on one code point, the table of CPython's
    [_PyUnicode_IsWhitespace]. *)
Definition isspace (c : char) : bool :=
  ((9 <=? c) && (c <=? 13) || (28 <=? c) && (c <=? 32)
   || (c =? 133) || (c =? 160) || (c =? 5760)
   || (8192 <=? c) && (c <=? 8202)
   || (c =? 8232) || (c =? 8233) || (c =? 8239) || (c =? 8287)
   || (c =? 12288))%N.

Fixpoint lstrip (s : pystr) : pystr :=
  match s with
  | [] => []
  | c :: s' => if isspace c then lstrip s' else s
  end.

Definition rstrip (s : pystr) : pystr := rev (lstrip (rev s)).

(** [s.strip()] *)
Definition strip (s : pystr) : pystr := rstrip (lstrip s).

(** Truth value of a string: [bool(s)], false for the empty string only. *)
Definition truthy (s : pystr) : bool :=
  match s with [] => false | _ :: _ => true end.

(** [s.split(sep)] for a one-character separator. *)
Fixpoint split_on (sep : char) (s : pystr) : list pystr :=
  match s with
  | [] => [[]]
  | c :: s' =>
      if char_eqb c sep then [] :: split_on sep s'
      else match split_on sep s' with
           | [] => [[c]]
           | w :: ws => (c :: w) :: ws
           end
  end.

(** [s.split()]: the maximal runs of non-whitespace characters. *)
Fixpoint split_ws_from (word : pystr) (s : pystr) : list pystr :=
  match s with
  | [] => if truthy word then [word] else []
  | c :: s' =>
      if isspace c
      then (if truthy word then word :: split_ws_from [] s'
            else split_ws_from [] s')
      else split_ws_from (word ++ [c]) s'
  end.

Definition split_ws (s : pystr) : list pystr := split_ws_from [] s.

(** [s.startswith(p)] *)
Fixpoint startswith (s p : pystr) : bool :=
  match p, s with
  | [], _ => true
  | b :: p', a :: s' => char_eqb a b && startswith s' p'
  | _ :: _, [] => false
  end.

(** [sep.join(l)] *)
Fixpoint join (sep : pystr) (l : list pystr) : pystr :=
  match l with
  | [] => []
  | [s] => s
  | s :: l' => s ++ sep ++ join sep l'
  end.

(** Decoding of the UTF-8 bytes of a literal of this file into code
    points, so that literals can be written as in the source. *)
Fixpoint utf8_decode (fuel : nat) (bs : list N) : pystr :=
  match fuel with
  | O => []
  | S fuel' =>
      match bs with
      | [] => []
      | b0 :: r0 =>
          if (b0 <? 128)%N then b0 :: utf8_decode fuel' r0
          else if (b0 <? 224)%N then
            match r0 with
            | b1 :: r1 =>
                ((b0 - 192) * 64 + (b1 - 128))%N :: utf8_decode fuel' r1
            | _ => [b0]
            end
          else if (b0 <? 240)%N then
            match r0 with
            | b1 :: b2 :: r2 =>
                ((b0 - 224) * 4096 + (b1 - 128) * 64 + (b2 - 128))%N
                  :: utf8_decode fuel' r2
            | _ => [b0]
            end
          else
            match r0 with
            | b1 :: b2 :: b3 :: r3 =>
                ((b0 - 240) * 262144 + (b1 - 128) * 4096
                 + (b2 - 128) * 64 + (b3 - 128))%N
                  :: utf8_decode fuel' r3
            | _ => [b0]
            end
      end
  end.

Definition lit (s : string) : pystr :=
  let bs := map N_of_ascii (list_ascii_of_string s) in
  utf8_decode (List.length bs) bs.

(** [str(n)] for a Python [int]. *)
Fixpoint digits_of_pos (fuel : nat) (n : N) (acc : pystr) : pystr :=
  match fuel with
  | O => acc
  | S fuel' =>
      let acc' := (48 + n mod 10)%N :: acc in
      if (n <? 10)%N then acc' else digits_of_pos fuel' (n / 10)%N acc'
  end.

Definition str_of_int (z : Z) : pystr :=
  match z with
  | Z0 => [48%N]
  | Zpos p => digits_of_pos (S (Pos.to_nat (Pos.size p))) (Npos p) []
  | Zneg p => 45%N :: digits_of_pos (S (Pos.to_nat (Pos.size p))) (Npos p) []
  end.

End PyStr.
Import PyStr.

(** ** Python floats: IEEE-754 binary64 *)

Module F64.

Definition float := spec_float.

Definition prec : Z := 53.
Definition emax : Z := 1024.

Definition add : float -> float -> float := SFadd prec emax.
Definition sub : float -> float -> float := SFsub prec emax.
Definition mul : float -> float -> float := SFmul prec emax.
Definition div : float -> float -> float := SFdiv prec emax.
Definition sqrt : float -> float := SFsqrt prec emax.

Definition eqb : float -> float -> bool := SFeqb.
Definition ltb : float -> float -> bool := SFltb.
Definition leb : float -> float -> bool := SFleb.
(** [a >= b] *)
Definition geb (a b : float) : bool := SFleb b a.

(** [float(n)] for a Python [int]. *)
Definition of_int (n : Z) : float := binary_normalize prec emax n 0 false.

Definition zero : float := S754_zero false.                         (* 0.0 *)
Definition one : float := S754_finite false 4503599627370496 (-52). (* 1.0 *)
Definition nan : float := S754_nan.
Definition c0_4 : float := S754_finite false 7205759403792794 (-54). (* 0.4 *)
Definition c0_9 : float := S754_finite false 8106479329266893 (-53). (* 0.9 *)

Definition is_nan (x : float) : bool :=
  match x with S754_nan => true | _ => false end.

Definition is_finite (x : float) : bool :=
  match x with S754_zero _ | S754_finite _ _ _ => true | _ => false end.

(** [min(a, b)] of Python: the first argument unless the second is
    strictly smaller. *)
Definition py_min (a b : float) : float := if ltb b a then b else a.

End F64.

(** ** Python dictionaries

    Insertion-ordered: assigning to a key that is present keeps its place,
    a new key goes last, [del] removes the entry. *)

Module ODict.

Definition odict (V : Type) := list (pystr * V).

Fixpoint get {V} (d : odict V) (k : pystr) : option V :=
  match d with
  | [] => None
  | (k', v) :: d' => if PyStr.eqb k' k then Some v else get d' k
  end.

Definition mem {V} (d : odict V) (k : pystr) : bool :=
  match get d k with Some _ => true | None => false end.

(** [d[k] = v] *)
Fixpoint set {V} (d : odict V) (k : pystr) (v : V) : odict V :=
  match d with
  | [] => [(k, v)]
  | (k', v') :: d' =>
      if PyStr.eqb k' k then (k', v) :: d' else (k', v') :: set d' k v
  end.

(** [del d[k]] (on a key that is present; without effect otherwise) *)
Fixpoint del {V} (d : odict V) (k : pystr) : odict V :=
  match d with
  | [] => []
  | (k', v') :: d' => if PyStr.eqb k' k then d' else (k', v') :: del d' k
  end.

Definition items {V} (d : odict V) : list (pystr * V) := d.
Definition keys {V} (d : odict V) : list pystr := map fst d.
Definition values {V} (d : odict V) : list V := map snd d.

(** [d.update(e)] *)
Definition update {V} (d e : odict V) : odict V :=
  fold_left (fun acc kv => set acc (fst kv) (snd kv)) e d.

(** Every dictionary of the program is built from the empty one by [set]
    and [del], so no key occurs twice. *)
Definition wf {V} (d : odict V) : Prop := NoDup (keys d).

End ODict.

(** ** Sequences: slicing *)

(** [l[:stop]] for a Python [int]: a negative [stop] counts from the end. *)
Definition slice_to {A} (l : list A) (stop : Z) : list A :=
  if (stop <? 0)%Z
  then firstn (Z.to_nat (Z.of_nat (List.length l) + stop)) l
  else firstn (Z.to_nat stop) l.

(** The position a slice bound denotes in a sequence of length [len]. *)
Definition slice_bound (len : nat) (i : Z) : nat :=
  if (i <? 0)%Z then Z.to_nat (Z.of_nat len + i)
  else Nat.min (Z.to_nat i) len.

(** [l[start:stop]] *)
Definition slice {A} (l : list A) (start stop : Z) : list A :=
  let lo := slice_bound (List.length l) start in
  let hi := slice_bound (List.length l) stop in
  firstn (hi - lo) (skipn lo l).

(** ** Exceptions ([app/core/exceptions.py]) and results *)

Inductive exn_class :=
  | ValueError
  | TypeError
  | RetryError               (* tenacity *)
  | ValidationError          (* pydantic *)
  | OSError
  | ProviderError            (* anything the GenAI client raises *)
  | SearchError
  | DocumentProcessingError
  | FileValidationError.

Record exn := Exn { exn_kind : exn_class; exn_message : pystr }.

(** [str(e)] *)
Definition str_of_exn (e : exn) : pystr := exn_message e.

Inductive result (A : Type) :=
  | Ok (a : A)
  | Raise (e : exn).
Arguments Ok {A} a.
Arguments Raise {A} e.

(** ** Configuration ([app/core/config.py]) *)

Record Settings := {
  gemini_model : pystr;
  embedding_model : pystr;
  documents_path : pystr;
  chunk_size : Z;
  chunk_overlap : Z;
  search_limit : Z;
  similarity_threshold : F64.float
}.

Definition default_settings : Settings := {|
  gemini_model := lit "gemini-2.0-flash-exp";
  embedding_model := lit "models/text-embedding-004";
  documents_path := lit "./data/documents";
  chunk_size := 4000;
  chunk_overlap := 200;
  search_limit := 5;
  similarity_threshold := F64.c0_4
|}.

(** ** Schemas ([app/models/schemas.py]) *)

Inductive DocumentType := PDF | TXT.

(** [DocumentType.value] *)
Definition DocumentType_value (t : DocumentType) : pystr :=
  match t with PDF => lit "pdf" | TXT => lit "txt" end.

(** The values the program puts in a chunk's [metadata]. *)
Inductive meta_value :=
  | MStr (s : pystr)
  | MInt (n : Z)
  | MNone.

(** A [datetime], as microseconds on the clock that [datetime.now] reads. *)
Definition datetime := Z.

Record DocumentChunk := {
  chunk_id : pystr;
  chunk_content : pystr;
  page_number : option Z;
  chunk_index : option Z;
  embedding : option (list F64.float);
  metadata : option (ODict.odict meta_value)
}.

Record Document := {
  doc_id : pystr;
  filename : pystr;
  title : pystr;
  content : pystr;
  doc_type : DocumentType;
  size : Z;
  uploaded_at : datetime;
  processed_at : option datetime;
  chunk_count : Z;
  status : pystr
}.

Record SearchResult := {
  sr_chunk : DocumentChunk;
  sr_document : Document;
  similarity : F64.float;
  relevance_score : F64.float
}.

Record QARequest := {
  question : pystr;
  max_sources : Z
}.

Record CitationSource := {
  cs_document_id : pystr;
  cs_document_title : pystr;
  cs_chunk_id : pystr;
  cs_content : pystr;
  cs_page_number : option Z;
  cs_line_number : option Z;
  cs_relevance_score : F64.float
}.

Record QAResponse := {
  success : bool;
  answer : pystr;
  sources : list CitationSource;
  confidence : F64.float;
  processing_time : F64.float;
  session_id : pystr;
  error : option pystr
}.

Record FileValidationResult := {
  is_valid : bool;
  errors : list pystr;
  file_size : Z
}.

(** ** The text segmenter ([DocumentService.chunk_document]) *)

(** [len(s)] *)
Definition len {A} (s : list A) : Z := Z.of_nat (List.length s).

Section Segmenter.

(** The builtin [int] applied to a string; [None] stands for the
    [ValueError] it raises on a string that is no integer literal. *)
Variable py_int : pystr -> option Z.

(** [char in '.!?'] *)
Definition is_sentence_end (c : char) : bool :=
  char_eqb c 46%N || char_eqb c 33%N || char_eqb c 63%N.

(** The body of the [try] on a line that starts with [--- Page]: the new
    value of [current_page]. *)
Definition page_of_marker (line : pystr) (current_page : Z) : Z :=
  let page_match := split_ws line in
  if (3 <=? len page_match)%Z then
    match py_int (nth 2 page_match []) with
    | Some n => n
    | None => (current_page + 1)%Z
    end
  else current_page.

(** The loop [for char in line], on the pair
    ([line_sentences], [current_sentence]). *)
Fixpoint split_line (line : pystr) (line_sentences : list pystr)
    (current_sentence : pystr) : list pystr * pystr :=
  match line with
  | [] => (line_sentences, current_sentence)
  | char :: rest =>
      let current_sentence := current_sentence ++ [char] in
      if is_sentence_end char then
        let line_sentences :=
          if truthy (strip current_sentence)
          then line_sentences ++ [strip current_sentence]
          else line_sentences in
        split_line rest line_sentences []
      else split_line rest line_sentences current_sentence
  end.

(** The sentences of one line that is no page marker. *)
Definition sentences_of_line (line : pystr) : list pystr :=
  let '(line_sentences, current_sentence) := split_line line [] [] in
  if truthy (strip current_sentence)
  then line_sentences ++ [strip current_sentence]
  else line_sentences.

(** The loop [for line in lines], on the pair ([sentences],
    [current_page]). *)
Fixpoint scan_lines (lines : list pystr) (sentences : list pystr)
    (current_page : Z) : list pystr * Z :=
  match lines with
  | [] => (sentences, current_page)
  | line :: rest =>
      if startswith line (lit "--- Page")
      then scan_lines rest sentences (page_of_marker line current_page)
      else scan_lines rest (sentences ++ sentences_of_line line) current_page
  end.

(** The maximum of [len(current_chunk) + len(sentence)] under which a
    sentence is appended to the running chunk: the literal of the source. *)
Definition max_chunk_chars : Z := 4000.

Definition make_chunk (filename current_chunk : pystr)
    (current_page chunk_index : Z) : DocumentChunk :=
  {| chunk_id := filename ++ lit "_chunk_" ++ str_of_int chunk_index;
     chunk_content := strip current_chunk;
     page_number := Some current_page;
     chunk_index := Some chunk_index;
     embedding := None;
     metadata := Some
       [ (lit "filename", MStr filename);
         (lit "pageNumber", MInt current_page);
         (lit "chunkIndex", MInt chunk_index);
         (lit "chunkType", MStr (lit "text"));
         (lit "wordCount", MInt (len (split_ws current_chunk)));
         (lit "charCount", MInt (len current_chunk)) ] |}.

(** The loop [for sentence in sentences], on the triple ([chunks],
    [current_chunk], [chunk_index]); [current_page] keeps the value the
    first loop left. *)
Fixpoint build_chunks (filename : pystr) (current_page : Z)
    (sentences : list pystr) (chunks : list DocumentChunk)
    (current_chunk : pystr) (chunk_index : Z)
    : list DocumentChunk * pystr * Z :=
  match sentences with
  | [] => (chunks, current_chunk, chunk_index)
  | sentence :: rest =>
      let sentence := strip sentence in
      if negb (truthy sentence)
      then build_chunks filename current_page rest chunks current_chunk
             chunk_index
      else if (max_chunk_chars <? len current_chunk + len sentence)%Z then
        if truthy current_chunk
        then build_chunks filename current_page rest
               (chunks ++ [make_chunk filename current_chunk current_page
                             chunk_index])
               (sentence ++ [32%N]) (chunk_index + 1)%Z
        else build_chunks filename current_page rest chunks
               (sentence ++ [32%N]) chunk_index
      else build_chunks filename current_page rest chunks
             (current_chunk ++ sentence ++ [32%N]) chunk_index
  end.

(** The sentences and the page the first loop ends with. *)
Definition sentences_and_page (text : pystr) : list pystr * Z :=
  scan_lines (split_on 10%N text) [] 1%Z.

Definition chunk_document (text filename : pystr) : list DocumentChunk :=
  let '(sentences, current_page) := sentences_and_page text in
  let '(chunks, current_chunk, chunk_index) :=
    build_chunks filename current_page sentences [] [] 0%Z in
  if truthy (strip current_chunk)
  then chunks ++ [make_chunk filename current_chunk current_page chunk_index]
  else chunks.

End Segmenter.

(** A reading of [int] for the ASCII integer literals: an optional sign and
    decimal digits. *)
Fixpoint ascii_digits (s : pystr) (acc : Z) : option Z :=
  match s with
  | [] => Some acc
  | c :: s' =>
      if ((48 <=? c) && (c <=? 57))%N
      then ascii_digits s' (10 * acc + Z.of_N (c - 48))%Z
      else None
  end.

Definition ascii_int (s : pystr) : option Z :=
  match s with
  | [] => None
  | 45%N :: ((_ :: _) as d) => option_map Z.opp (ascii_digits d 0%Z)
  | 43%N :: ((_ :: _) as d) => ascii_digits d 0%Z
  | _ => ascii_digits s 0%Z
  end.


(** ** Ordering a list as [list.sort(key=..., reverse=True)] does

    The sort is stable also when reversed: the result is in non-increasing
    order of the keys and elements with equal keys keep their order.  [lt]
    is the comparison [<] of two keys. *)

Section SortDesc.

Variables (A K : Type) (key : A -> K) (lt : K -> K -> bool).

Fixpoint insert_desc (x : A) (l : list A) : list A :=
  match l with
  | [] => [x]
  | y :: l' => if lt (key x) (key y) then y :: insert_desc x l'
               else x :: y :: l'
  end.

Fixpoint sort_desc (l : list A) : list A :=
  match l with
  | [] => []
  | x :: l' => insert_desc x (sort_desc l')
  end.

End SortDesc.

(** ** The outside world

    What the services obtain from outside the process: the settings read
    from the environment, the GenAI client, the clock, the random UUIDs, the
    file system and the locale tables behind two builtins.  An answer of the
    outside may differ from call to call: each takes the number of calls
    made so far. *)

(** What [generate_embedding] observes of an embedding response: the
    attributes and keys it tests, in the order it tests them.  What stands
    under [values] is a list of numbers or [None]; read as an attribute it
    goes through [list(...)], read as a key of a dict it is returned as it
    is. *)
Inductive EmbeddingItem :=
  | ItemValues (values : option (list F64.float))  (* has [values] *)
  | ItemOther.

Inductive EmbeddingField :=
  | FieldValues (values : option (list F64.float))  (* has [values] *)
  | FieldList (values : list F64.float)             (* is a list *)
  | FieldOther.

Record EmbedDict := {
  key_embeddings : option (list EmbeddingItem);     (* ['embeddings'] *)
  key_embedding : option EmbeddingField;            (* ['embedding'] *)
  key_values : option (option (list F64.float))     (* ['values'] *)
}.

Record EmbedResponse := {
  attr_embeddings : option (list EmbeddingItem);  (* [response.embeddings] *)
  attr_embedding : option EmbeddingField;         (* [response.embedding] *)
  as_dict : option EmbedDict;                     (* when it is a dict *)
  as_list : option (list F64.float)               (* when it is a list *)
}.

(** The shapes of a generation response that [answer_question] reads. *)
Record Part := { part_text : option (option pystr) }.
    (* [None]: no attribute [text]; [Some None]: [text] is [None] *)
Record Candidate := { candidate_parts : option (list Part) }.
    (* [None]: no [content], or a [content] without [parts] *)

Inductive GenResponse :=
  | GenWithText (text : option pystr)           (* has attribute [text] *)
  | GenWithCandidates (candidates : list Candidate)
  | GenDict (text : option pystr)               (* a dict; [.get("text")] *)
  | GenOther.

Record Env := {
  settings : Settings;
  (** the builtin [int] on a string, [None] for [ValueError] *)
  builtin_int : pystr -> option Z;
  (** [str.lower] *)
  str_lower : pystr -> pystr;
  (** [datetime.isoformat] *)
  isoformat : datetime -> pystr;
  (** the client's [embed_content], through the three call forms tried *)
  client_embed_content : nat -> pystr -> result EmbedResponse;
  (** [str] of the [RetryError] that leaves the retry wrapper *)
  retry_error_message : nat -> exn -> pystr;
  (** the client's [models.generate_content] *)
  client_generate_content : nat -> pystr -> result GenResponse;
  (** [time.time()] *)
  time_time : nat -> F64.float;
  (** [datetime.now()] *)
  datetime_now : nat -> datetime;
  (** [str(uuid.uuid4())] *)
  uuid4 : nat -> pystr;
  (** [DocumentService.validate_file], which inspects the uploaded file *)
  validate_file : nat -> pystr -> pystr -> FileValidationResult;
  (** [extract_text_from_pdf] and [extract_text_from_txt], which read it *)
  extract_text : nat -> DocumentType -> pystr -> result pystr;
  (** whether writing, and removing, a file of the documents directory
      succeeds *)
  write_succeeds : nat -> bool;
  remove_succeeds : nat -> bool
}.

(** ** The state of the two services *)

Record VertexRAGService := {
  documents : ODict.odict Document;
  chunks_by_document : ODict.odict (list DocumentChunk)
}.

(** [DocumentService] holds its own [documents] and a reference to the one
    [VertexRAGService]; [doc_files] are the ids that have a JSON file in the
    documents directory, [calls] counts the calls made to the outside. *)
Record World := {
  vertex_rag_service : VertexRAGService;
  ds_documents : ODict.odict Document;
  doc_files : list pystr;
  calls : nat
}.

Definition initial_world : World := {|
  vertex_rag_service := {| documents := []; chunks_by_document := [] |};
  ds_documents := [];
  doc_files := [];
  calls := 0
|}.

Definition with_rag (w : World) (r : VertexRAGService) : World :=
  {| vertex_rag_service := r; ds_documents := ds_documents w;
     doc_files := doc_files w; calls := calls w |}.

Definition with_ds_documents (w : World) (d : ODict.odict Document) : World :=
  {| vertex_rag_service := vertex_rag_service w; ds_documents := d;
     doc_files := doc_files w; calls := calls w |}.

Definition with_doc_files (w : World) (f : list pystr) : World :=
  {| vertex_rag_service := vertex_rag_service w;
     ds_documents := ds_documents w; doc_files := f; calls := calls w |}.

Definition with_calls (w : World) (n : nat) : World :=
  {| vertex_rag_service := vertex_rag_service w;
     ds_documents := ds_documents w; doc_files := doc_files w; calls := n |}.

(** ** The monad of the service methods: state and exceptions

    An exception leaves the state as it is when it is raised; nothing is
    rolled back. *)

Definition M (A : Type) : Type := World -> result A * World.

Definition ret {A} (a : A) : M A := fun w => (Ok a, w).

Definition bind {A B} (m : M A) (k : A -> M B) : M B :=
  fun w => match m w with
           | (Ok a, w') => k a w'
           | (Raise e, w') => (Raise e, w')
           end.

Definition raise {A} (e : exn) : M A := fun w => (Raise e, w).

(** [try: m  except Exception as e: h e] *)
Definition try_except {A} (m : M A) (h : exn -> M A) : M A :=
  fun w => match m w with
           | (Ok a, w') => (Ok a, w')
           | (Raise e, w') => h e w'
           end.

Definition lift {A} (r : result A) : M A := fun w => (r, w).

Definition get_world : M World := fun w => (Ok w, w).

Definition modify (f : World -> World) : M unit := fun w => (Ok tt, f w).

(** One call to the outside: its number. *)
Definition next_call : M nat :=
  fun w => (Ok (calls w), with_calls w (S (calls w))).

Declare Scope py_scope.
Delimit Scope py_scope with py.
Notation "x <- c1 ;; c2" := (bind c1 (fun x => c2))
  (at level 61, c1 at next level, right associativity) : py_scope.
Notation "c1 ;;; c2" := (bind c1 (fun _ => c2))
  (at level 61, right associativity) : py_scope.
Open Scope py_scope.

(** ** [VertexRAGService] *)

(** *** [_cosine_similarity] *)

(** [np.dot(a, b)] for two one-dimensional arrays: the sum of the products,
    here accumulated in index order (the BLAS routine behind [np.dot] may
    add the same products in another order on long arrays); arrays of
    different lengths raise [ValueError]. *)
Definition dot_sum (a b : list F64.float) : F64.float :=
  fold_left (fun acc xy => F64.add acc (F64.mul (fst xy) (snd xy)))
            (combine a b) F64.zero.

Definition np_dot (a b : list F64.float) : result F64.float :=
  if Nat.eqb (List.length a) (List.length b) then Ok (dot_sum a b)
  else Raise (Exn ValueError (lit "shapes not aligned")).

(** [np.linalg.norm(a)] for a one-dimensional array: [sqrt(a.dot(a))]. *)
Definition np_linalg_norm (a : list F64.float) : F64.float :=
  F64.sqrt (dot_sum a a).

(** The body of the [try]. *)
Definition cosine_similarity_try (vec1 vec2 : list F64.float)
    : result F64.float :=
  let a := vec1 in
  let b := vec2 in
  let denom := F64.mul (np_linalg_norm a) (np_linalg_norm b) in
  if F64.eqb denom F64.zero then Ok F64.zero
  else match np_dot a b with
       | Ok d => Ok (F64.div d denom)
       | Raise e => Raise e
       end.

(** The method: [except Exception] logs and returns [0.0]. *)
Definition _cosine_similarity (vec1 vec2 : list F64.float)
    : result F64.float :=
  match cosine_similarity_try vec1 vec2 with
  | Ok r => Ok r
  | Raise _ => Ok F64.zero
  end.

(** *** [search_documents]: the scan of the corpus *)

(** [not chunk.embedding]: [None] or an empty list. *)
Definition no_embedding (chunk : DocumentChunk) : bool :=
  match embedding chunk with
  | None | Some [] => true
  | Some (_ :: _) => false
  end.

(** The loop [for chunk in chunks], on [results]. *)
Fixpoint scan_chunks (query_embedding : list F64.float)
    (threshold : F64.float) (document : Document)
    (chunks : list DocumentChunk) (results : list SearchResult)
    : result (list SearchResult) :=
  match chunks with
  | [] => Ok results
  | chunk :: rest =>
      if no_embedding chunk
      then scan_chunks query_embedding threshold document rest results
      else
        match _cosine_similarity query_embedding
                (match embedding chunk with Some v => v | None => [] end)
        with
        | Raise e => Raise e
        | Ok similarity =>
            if F64.geb similarity threshold
            then scan_chunks query_embedding threshold document rest
                   (results ++ [ {| sr_chunk := chunk;
                                    sr_document := document;
                                    similarity := similarity;
                                    relevance_score := similarity |} ])
            else scan_chunks query_embedding threshold document rest results
        end
  end.

(** [document_ids and doc_id not in document_ids] *)
Definition filtered_out (document_ids : option (list pystr))
    (doc_id : pystr) : bool :=
  match document_ids with
  | None | Some [] => false
  | Some ids => negb (existsb (PyStr.eqb doc_id) ids)
  end.

(** The loop [for doc_id, chunks in self.chunks_by_document.items()]. *)
Fixpoint scan_corpus (docs : ODict.odict Document)
    (query_embedding : list F64.float) (threshold : F64.float)
    (document_ids : option (list pystr))
    (items : list (pystr * list DocumentChunk)) (results : list SearchResult)
    : result (list SearchResult) :=
  match items with
  | [] => Ok results
  | (doc_id, chunks) :: rest =>
      if filtered_out document_ids doc_id
      then scan_corpus docs query_embedding threshold document_ids rest
             results
      else
        match ODict.get docs doc_id with
        | None => scan_corpus docs query_embedding threshold document_ids
                    rest results
        | Some document =>
            match scan_chunks query_embedding threshold document chunks
                    results with
            | Raise e => Raise e
            | Ok results' =>
                scan_corpus docs query_embedding threshold document_ids rest
                  results'
            end
        end
  end.

(** [results.sort(key=lambda r: r.similarity, reverse=True)] *)
Definition sort_by_similarity (results : list SearchResult)
    : list SearchResult :=
  sort_desc similarity F64.ltb results.

Section Services.

Variable env : Env.

(** *** [generate_embedding] *)

(** [list(x.values)]: a [TypeError] when [x.values] is [None]. *)
Definition list_of_values (values : option (list F64.float))
    : result (option (list F64.float)) :=
  match values with
  | Some v => Ok (Some v)
  | None => Raise (Exn TypeError (lit "'NoneType' object is not iterable"))
  end.

(** The tests on a response that is a dict.  Each [return] hands back what
    stands under the key as it is, [None] included; the outer [None] says
    that no [return] was reached. *)
Definition decode_dict (d : EmbedDict)
    : option (option (list F64.float)) :=
  match key_embeddings d with
  | Some (ItemValues values :: _) => Some values
  | _ =>
    match key_embedding d with
    | Some (FieldValues values) => Some values
    | Some (FieldList v) => Some (Some v)
    | _ => key_values d
    end
  end.

(** The decoding of the response, test after test; [ValueError] when none
    applies.  The value returned is a list of numbers, or [None]. *)
Definition decode_embedding (response : EmbedResponse)
    : result (option (list F64.float)) :=
  match attr_embeddings response with
  | Some (ItemValues values :: _) => list_of_values values
  | _ =>
    match attr_embedding response with
    | Some (FieldValues values) => list_of_values values
    | Some (FieldList v) => Ok (Some v)
    | _ =>
      match match as_dict response with
            | Some d => decode_dict d
            | None => option_map Some (as_list response)
            end with
      | Some returned => Ok returned
      | None =>
          Raise (Exn ValueError (lit "Unexpected embedding response format"))
      end
    end
  end.

(** One attempt: the body of the method, every exception turned into a
    [SearchError]. *)
Definition generate_embedding_attempt (text : pystr)
    : M (option (list F64.float)) :=
  try_except
    (n <- next_call ;;
     response <- lift (client_embed_content env n text) ;;
     lift (decode_embedding response))
    (fun e => raise (Exn SearchError
                       (lit "Failed to generate embedding: " ++ str_of_exn e))).

(** The decorator [@retry(stop=stop_after_attempt(3), ...)]: up to three
    attempts, then a [RetryError] wrapping the last failure. *)
Fixpoint retrying (attempts : nat) (last : exn)
    (m : M (option (list F64.float))) : M (option (list F64.float)) :=
  match attempts with
  | O => n <- next_call ;;
         raise (Exn RetryError (retry_error_message env n last))
  | S k => try_except m (fun e => retrying k e m)
  end.

Definition generate_embedding (text : pystr)
    : M (option (list F64.float)) :=
  retrying 3 (Exn ProviderError []) (generate_embedding_attempt text).

(** *** [add_document_to_corpus] *)

(** [len(chunk.embedding) if chunk.embedding else 0] *)
Definition embedding_dimension_of (emb : option (list F64.float)) : Z :=
  match emb with
  | None | Some [] => 0
  | Some v => len v
  end.

(** [chunk.metadata.update({...})] after [if not chunk.metadata]. *)
Definition enrich_metadata (document : Document) (chunk : DocumentChunk)
    (emb : option (list F64.float)) : ODict.odict meta_value :=
  let base := match metadata chunk with
              | None | Some [] => []
              | Some m => m
              end in
  ODict.update base
    [ (lit "documentId", MStr (doc_id document));
      (lit "documentTitle", MStr (title document));
      (lit "documentType", MStr (DocumentType_value (doc_type document)));
      (lit "uploadDate", MStr (isoformat env (uploaded_at document)));
      (lit "embeddingModel", MStr (embedding_model (settings env)));
      (lit "embeddingDimension", MInt (embedding_dimension_of emb)) ].

(** The chunk after [chunk.embedding = ...] and the update of its
    metadata; [emb] is what [generate_embedding] returned. *)
Definition enriched (document : Document) (chunk : DocumentChunk)
    (emb : option (list F64.float)) : DocumentChunk :=
  {| chunk_id := chunk_id chunk;
     chunk_content := chunk_content chunk;
     page_number := page_number chunk;
     chunk_index := chunk_index chunk;
     embedding := emb;
     metadata := Some (enrich_metadata document chunk emb) |}.

(** The loop [for chunk in chunks], on [enriched_chunks]: a chunk whose
    embedding call raises is left out. *)
Fixpoint enrich_chunks (document : Document) (chunks : list DocumentChunk)
    (enriched_chunks : list DocumentChunk) : M (list DocumentChunk) :=
  match chunks with
  | [] => ret enriched_chunks
  | chunk :: rest =>
      r <- try_except
             (emb <- generate_embedding (chunk_content chunk) ;;
              ret (Some (enriched document chunk emb)))
             (fun _ => ret None) ;;
      match r with
      | Some chunk' =>
          enrich_chunks document rest (enriched_chunks ++ [chunk'])
      | None => enrich_chunks document rest enriched_chunks
      end
  end.

Definition set_rag_document (document : Document) : M unit :=
  modify (fun w =>
    let r := vertex_rag_service w in
    with_rag w {| documents := ODict.set (documents r) (doc_id document)
                                 document;
                  chunks_by_document := chunks_by_document r |}).

Definition set_rag_chunks (id : pystr) (chunks : list DocumentChunk)
    : M unit :=
  modify (fun w =>
    let r := vertex_rag_service w in
    with_rag w {| documents := documents r;
                  chunks_by_document :=
                    ODict.set (chunks_by_document r) id chunks |}).

Definition add_document_to_corpus (document : Document)
    (chunks : list DocumentChunk) : M bool :=
  try_except
    (set_rag_document document ;;;
     enriched_chunks <- enrich_chunks document chunks [] ;;
     set_rag_chunks (doc_id document) enriched_chunks ;;;
     ret true)
    (fun _ => ret false).

(** *** [search_documents] *)

(** [len(query_embedding)], which the log line after the call evaluates:
    a [TypeError] on [None]. *)
Definition len_of_embedding (query_embedding : option (list F64.float))
    : result (list F64.float) :=
  match query_embedding with
  | Some v => Ok v
  | None => Raise (Exn TypeError
                     (lit "object of type 'NoneType' has no len()"))
  end.

Definition search_documents (query : pystr) (limit : Z)
    (threshold : option F64.float) (document_ids : option (list pystr))
    : M (list SearchResult) :=
  try_except
    (let threshold := match threshold with
                      | None => similarity_threshold (settings env)
                      | Some t => t
                      end in
     query_embedding <- generate_embedding query ;;
     query_embedding <- lift (len_of_embedding query_embedding) ;;
     w <- get_world ;;
     let r := vertex_rag_service w in
     results <- lift (scan_corpus (documents r) query_embedding threshold
                        document_ids (ODict.items (chunks_by_document r))
                        []) ;;
     ret (slice_to (sort_by_similarity results) limit))
    (fun e => raise (Exn SearchError (lit "Search failed: " ++ str_of_exn e))).

End Services.

Section Composer.

Variable env : Env.

(** *** [answer_question] *)

(** [CitationSource(...)]: the field [line_number] is an optional [int], so
    a string is accepted when [int] reads it and rejected otherwise. *)
Definition validate_line_number (v : option meta_value)
    : result (option Z) :=
  match v with
  | None | Some MNone => Ok None
  | Some (MInt n) => Ok (Some n)
  | Some (MStr s) =>
      match builtin_int env s with
      | Some n => Ok (Some n)
      | None => Raise (Exn ValidationError (lit "line_number"))
      end
  end.

Definition citation_of (r : SearchResult) : result CitationSource :=
  let line_number :=
    match metadata (sr_chunk r) with
    | Some m => ODict.get m (lit "line_number")
    | None => None
    end in
  match validate_line_number line_number with
  | Raise e => Raise e
  | Ok line_number =>
      Ok {| cs_document_id := doc_id (sr_document r);
            cs_document_title := title (sr_document r);
            cs_chunk_id := chunk_id (sr_chunk r);
            cs_content := chunk_content (sr_chunk r);
            cs_page_number := page_number (sr_chunk r);
            cs_line_number := line_number;
            cs_relevance_score := relevance_score r |}
  end.

(** The loop [for result in search_results], on [citation_sources]. *)
Fixpoint build_citations (search_results : list SearchResult)
    (citation_sources : list CitationSource) : result (list CitationSource) :=
  match search_results with
  | [] => Ok citation_sources
  | r :: rest =>
      match citation_of r with
      | Raise e => Raise e
      | Ok c => build_citations rest (citation_sources ++ [c])
      end
  end.

(** [str(x)] for an optional [int]. *)
Definition str_of_optional_int (x : option Z) : pystr :=
  match x with Some n => str_of_int n | None => lit "None" end.

(** The entries of [context_text], numbered from [i + 1]. *)
Fixpoint context_entries (i : Z) (search_results : list SearchResult)
    : list pystr :=
  match search_results with
  | [] => []
  | r :: rest =>
      (lit "Source " ++ str_of_int (i + 1) ++ lit " ("
         ++ title (sr_document r) ++ lit ", página "
         ++ str_of_optional_int (page_number (sr_chunk r)) ++ lit "):
" ++ chunk_content (sr_chunk r))
        :: context_entries (i + 1) rest
  end.

Definition context_text_of (search_results : list SearchResult) : pystr :=
  join (lit "

") (context_entries 0 search_results).

Definition prompt_of (context_text question : pystr) : pystr :=
  lit "Eres un asistente especializado en análisis de documentos y CVs.
Debes responder de manera clara, concisa y profesional.

CONTEXTO DEL DOCUMENTO:
" ++ context_text ++ lit "

PREGUNTA DEL USUARIO: " ++ question ++ lit "

INSTRUCCIONES ESPECÍFICAS:
1. Responde de manera directa y concisa
2. Destaca información clave con **negritas**
3. Incluye citas de fuentes al final de cada sección relevante
4. Mantén un tono profesional y objetivo
6. NO uses emojis ni elementos decorativos
7. NO ofrezcas servicios irrelevantes

FORMATO DE RESPUESTA:
- Usa encabezados ## para secciones principales
- Usa listas con viñetas para enumerar información
- Destaca datos importantes con **negritas**
- Incluye citas de fuentes al final de cada sección
- Mantén un formato limpio y profesional

RESPUESTA:".

(** The extraction of the answer text, with the fixed phrase when there
    is none. *)
Definition response_text (response : GenResponse) : option pystr :=
  match response with
  | GenWithText text => text
  | GenWithCandidates (candidate :: _) =>
      match candidate_parts candidate with
      | Some (part :: _) =>
          match part_text part with
          | Some text => text
          | None => None
          end
      | _ => None
      end
  | GenWithCandidates [] => None
  | GenDict text => text
  | GenOther => None
  end.

Definition answer_text_of (response : GenResponse) : pystr :=
  match response_text response with
  | Some ((_ :: _) as text) => text
  | _ => lit "No se pudo generar una respuesta."
  end.

(** [QAResponse(...)]: the model validates [0.0 <= confidence <= 1.0]. *)
Definition QAResponse_new (success : bool) (answer : pystr)
    (sources : list CitationSource) (confidence processing_time : F64.float)
    (session_id : pystr) (error : option pystr) : result QAResponse :=
  if F64.geb confidence F64.zero && F64.leb confidence F64.one
  then Ok {| success := success; answer := answer; sources := sources;
             confidence := confidence; processing_time := processing_time;
             session_id := session_id; error := error |}
  else Raise (Exn ValidationError (lit "confidence")).

(** [session_id or "default"] *)
Definition session_or_default (session_id : option pystr) : pystr :=
  match session_id with
  | Some ((_ :: _) as s) => s
  | _ => lit "default"
  end.

Definition apology : pystr :=
  lit "Lo siento, ocurrió un error al procesar tu pregunta. Por favor intenta nuevamente.".

(** [min(len(citation_sources) / 3, 1.0) * 0.9] *)
Definition confidence_of (citation_sources : list CitationSource)
    : F64.float :=
  F64.mul
    (F64.py_min (F64.div (F64.of_int (len citation_sources)) (F64.of_int 3))
                F64.one)
    F64.c0_9.

(** The body of the [try], given the time at the start. *)
Definition answer_question_try (request : QARequest)
    (session_id : option pystr) (start : F64.float) : M QAResponse :=
  search_results <- search_documents env (question request)
                      (max_sources request) None None ;;
  citation_sources <- lift (build_citations search_results []) ;;
  let context_text := context_text_of search_results in
  let prompt := prompt_of context_text (question request) in
  n <- next_call ;;
  response <- lift (client_generate_content env n prompt) ;;
  let answer_text := answer_text_of response in
  n1 <- next_call ;;
  let duration := F64.sub (time_time env n1) start in
  let confidence := confidence_of citation_sources in
  lift (QAResponse_new true answer_text citation_sources confidence
          duration (session_or_default session_id) None).

(** The [except Exception as e] clause. *)
Definition answer_question_except (session_id : option pystr)
    (start : F64.float) (e : exn) : M QAResponse :=
  n2 <- next_call ;;
  lift (QAResponse_new false apology [] F64.zero
          (F64.sub (time_time env n2) start)
          (session_or_default session_id) (Some (str_of_exn e))).

Definition answer_question (request : QARequest) (session_id : option pystr)
    : M QAResponse :=
  n0 <- next_call ;;
  let start := time_time env n0 in
  try_except (answer_question_try request session_id start)
             (answer_question_except session_id start).

(** ** [DocumentService] *)

(** [filename.rsplit('.', 1)[0]] *)
Fixpoint drop_through (c : char) (s : pystr) : option pystr :=
  match s with
  | [] => None
  | a :: s' => if char_eqb a c then Some s' else drop_through c s'
  end.

Definition rsplit1_head (c : char) (s : pystr) : pystr :=
  match drop_through c (rev s) with
  | Some r => rev r
  | None => s
  end.

(** The validation loop of [process_document] over [chunk_data]. *)
Definition too_short (chunk : DocumentChunk) : bool :=
  negb (truthy (chunk_content chunk))
  || (len (strip (chunk_content chunk)) <? 10)%Z.

Definition validated (chunk : DocumentChunk) : DocumentChunk :=
  {| chunk_id := chunk_id chunk;
     chunk_content := chunk_content chunk;
     page_number := match page_number chunk with
                    | None => Some 1%Z
                    | Some p => if (p <? 1)%Z then Some 1%Z else Some p
                    end;
     chunk_index := chunk_index chunk;
     embedding := embedding chunk;
     metadata := match metadata chunk with
                 | None | Some [] => Some []
                 | Some m => Some m
                 end |}.

Fixpoint valid_chunks (chunk_data : list DocumentChunk)
    : list DocumentChunk :=
  match chunk_data with
  | [] => []
  | chunk :: rest =>
      if too_short chunk then valid_chunks rest
      else validated chunk :: valid_chunks rest
  end.

Definition set_ds_document (id : pystr) (document : Document) : M unit :=
  modify (fun w => with_ds_documents w (ODict.set (ds_documents w) id document)).

(** The JSON file of the document, written when the file system allows. *)
Definition save_document_file (id : pystr) : M unit :=
  n <- next_call ;;
  if write_succeeds env n
  then modify (fun w =>
         if existsb (PyStr.eqb id) (doc_files w) then w
         else with_doc_files w (doc_files w ++ [id]))
  else ret tt.

Definition completed (document : Document) (chunks : list DocumentChunk)
    (now : datetime) : Document :=
  {| doc_id := doc_id document;
     filename := filename document;
     title := title document;
     content := content document;
     doc_type := doc_type document;
     size := size document;
     uploaded_at := uploaded_at document;
     processed_at := Some now;
     chunk_count := len chunks;
     status := lit "completed" |}.

(** [DocumentType.PDF if file_ext == "pdf" else DocumentType.TXT], for
    [file_ext = filename.lower().split('.')[-1]] *)
Definition doc_type_of (filename : pystr) : DocumentType :=
  let file_ext := last (split_on 46%N (str_lower env filename)) [] in
  if PyStr.eqb file_ext (lit "pdf") then PDF else TXT.

Definition process_document (file_path filename : pystr) : M Document :=
  try_except
    (n <- next_call ;;
     let validation := validate_file env n file_path filename in
     if negb (is_valid validation)
     then raise (Exn FileValidationError
                   (lit "File validation failed: "
                      ++ join (lit ", ") (errors validation)))
     else
       let doc_type := doc_type_of filename in
       n <- next_call ;;
       text_content <- lift (extract_text env n doc_type file_path) ;;
       n <- next_call ;;
       let doc_id := uuid4 env n in
       let title := rsplit1_head 46%N filename in
       n <- next_call ;;
       let document :=
         {| doc_id := doc_id; filename := filename; title := title;
            content := text_content; doc_type := doc_type;
            size := file_size validation;
            uploaded_at := datetime_now env n;
            processed_at := None; chunk_count := 0;
            status := lit "processing" |} in
       let chunk_data := chunk_document (builtin_int env) text_content
                           filename in
       let chunks := valid_chunks chunk_data in
       match chunks with
       | [] => raise (Exn DocumentProcessingError
                        (lit "No valid chunks generated from document"))
       | _ :: _ =>
           _ <- add_document_to_corpus env document chunks ;;
           n <- next_call ;;
           let document := completed document chunks (datetime_now env n) in
           (* the record in the corpus is this same object: the three
              assignments to its fields show there too *)
           set_rag_document document ;;;
           set_ds_document doc_id document ;;;
           save_document_file doc_id ;;;
           ret document
       end)
    (fun e =>
       match exn_kind e with
       | DocumentProcessingError | FileValidationError => raise e
       | _ => raise (Exn DocumentProcessingError
                       (lit "Failed to process document: " ++ str_of_exn e))
       end).

Definition get_document (document_id : pystr) : M (option Document) :=
  w <- get_world ;;
  ret (ODict.get (ds_documents w) document_id).

Definition list_documents (skip limit : Z) : M (list Document) :=
  w <- get_world ;;
  let docs := ODict.values (ds_documents w) in
  let docs := sort_desc uploaded_at Z.ltb docs in
  ret (slice docs skip (skip + limit)).

Definition remove_document_file (id : pystr) : M unit :=
  w <- get_world ;;
  if existsb (PyStr.eqb id) (doc_files w)
  then n <- next_call ;;
       if remove_succeeds env n
       then modify (fun w =>
              with_doc_files w
                (filter (fun f => negb (PyStr.eqb id f)) (doc_files w)))
       else raise (Exn OSError (lit "remove"))
  else ret tt.

Definition delete_document (document_id : pystr) : M bool :=
  try_except
    (modify (fun w =>
       if ODict.mem (ds_documents w) document_id
       then with_ds_documents w (ODict.del (ds_documents w) document_id)
       else w) ;;;
     remove_document_file document_id ;;;
     ret true)
    (fun _ => ret false).

Definition get_document_count : M Z :=
  w <- get_world ;;
  ret (len (ds_documents w)).

End Composer.

(** ** [DocumentService]: the uploaded file

    [validate_file] and the two text extractors, as functions of what the
    file system, [magic] and [PyPDF2] answer. *)

Module DocumentFiles.

(** The file-upload fields of [Settings]. *)
Record UploadSettings := {
  max_file_size : Z;
  allowed_extensions_str : pystr
}.

Definition default_upload_settings : UploadSettings := {|
  max_file_size := 10485760;
  allowed_extensions_str := lit "pdf,txt"
|}.

(** The property [Settings.allowed_extensions] *)
Definition allowed_extensions (s : UploadSettings) : list pystr :=
  map strip (split_on 44%N (allowed_extensions_str s)).

(** What is found at the path of the upload. *)
Record FileFacts := {
  path_exists : bool;              (* [os.path.exists(file_path)] *)
  getsize : result Z;              (* [os.path.getsize(file_path)] *)
  magic_from_file : result pystr;  (* [magic.from_file(file_path, mime=True)] *)
  pdf_num_pages : result Z         (* [len(PyPDF2.PdfReader(f).pages)] *)
}.

(** [FileValidationResult] with the four fields of the schema. *)
Record ValidationReport := {
  report_is_valid : bool;
  report_errors : list pystr;
  report_warnings : list pystr;
  report_file_info : option (ODict.odict meta_value)
}.

Section Validation.

Variable upload : UploadSettings.
(** [str.lower] *)
Variable str_lower : pystr -> pystr.

(** [filename.lower().split('.')[-1] if '.' in filename else ""] *)
Definition file_ext_of (filename : pystr) : pystr :=
  if existsb (char_eqb 46%N) filename
  then last (split_on 46%N (str_lower filename)) []
  else [].

(** The warnings of the [try] around [magic.from_file]. *)
Definition mime_warnings (facts : FileFacts) (file_ext : pystr)
    (warnings : list pystr) : list pystr :=
  match magic_from_file facts with
  | Ok file_type =>
      if PyStr.eqb file_ext (lit "pdf")
         && negb (startswith file_type (lit "application/pdf"))
      then warnings
             ++ [lit "File extension suggests PDF but MIME type doesn't match"]
      else if PyStr.eqb file_ext (lit "txt")
              && negb (startswith file_type (lit "text/"))
      then warnings
             ++ [lit "File extension suggests text but MIME type doesn't match"]
      else warnings
  | Raise e =>
      warnings ++ [lit "Could not determine file type: " ++ str_of_exn e]
  end.

(** The block [if file_ext == "pdf"], on [errors], [warnings] and
    [file_info]. *)
Definition pdf_checks (facts : FileFacts) (file_ext : pystr)
    (errors warnings : list pystr) (file_info : ODict.odict meta_value)
    : list pystr * list pystr * ODict.odict meta_value :=
  if PyStr.eqb file_ext (lit "pdf") then
    match pdf_num_pages facts with
    | Ok num_pages =>
        let file_info := ODict.set file_info (lit "pages") (MInt num_pages) in
        if (num_pages =? 0)%Z
        then (errors ++ [lit "PDF has no pages"], warnings, file_info)
        else if (100 <? num_pages)%Z
        then (errors,
              warnings ++ [lit "PDF has " ++ str_of_int num_pages
                             ++ lit " pages, processing may take time"],
              file_info)
        else (errors, warnings, file_info)
    | Raise e =>
        (errors ++ [lit "Invalid PDF file: " ++ str_of_exn e], warnings,
         file_info)
    end
  else (errors, warnings, file_info).

(** The body of the outer [try]. *)
Definition validate_file_try (facts : FileFacts) (filename : pystr)
    : result ValidationReport :=
  if negb (path_exists facts)
  then Ok {| report_is_valid := false;
             report_errors := [lit "File does not exist"];
             report_warnings := [];
             report_file_info := None |}
  else
    match getsize facts with
    | Raise e => Raise e
    | Ok file_size =>
        let file_info :=
          ODict.set (ODict.set [] (lit "size") (MInt file_size))
            (lit "filename") (MStr filename) in
        let errors := [] in
        let errors :=
          if (max_file_size upload <? file_size)%Z
          then errors
                 ++ [lit "File size (" ++ str_of_int file_size
                       ++ lit " bytes) exceeds maximum allowed ("
                       ++ str_of_int (max_file_size upload)
                       ++ lit " bytes)"]
          else errors in
        let errors :=
          if (file_size =? 0)%Z then errors ++ [lit "File is empty"]
          else errors in
        let file_ext := file_ext_of filename in
        let errors :=
          if negb (existsb (PyStr.eqb file_ext) (allowed_extensions upload))
          then errors
                 ++ [lit "File extension '" ++ file_ext
                       ++ lit "' not allowed. Allowed: "
                       ++ join (lit ", ") (allowed_extensions upload)]
          else errors in
        let file_info := ODict.set file_info (lit "extension") (MStr file_ext) in
        let file_info :=
          match magic_from_file facts with
          | Ok file_type =>
              ODict.set file_info (lit "mime_type") (MStr file_type)
          | Raise _ => file_info
          end in
        let warnings := mime_warnings facts file_ext [] in
        let '(errors, warnings, file_info) :=
          pdf_checks facts file_ext errors warnings file_info in
        Ok {| report_is_valid := (len errors =? 0)%Z;
              report_errors := errors;
              report_warnings := warnings;
              report_file_info := Some file_info |}
    end.

(** The method: [except Exception] turns what is raised into a refusal. *)
Definition validate_file (facts : FileFacts) (filename : pystr)
    : ValidationReport :=
  match validate_file_try facts filename with
  | Ok report => report
  | Raise e =>
      {| report_is_valid := false;
         report_errors := [lit "Validation error: " ++ str_of_exn e];
         report_warnings := [];
         report_file_info := None |}
  end.

End Validation.

(** What [process_document] reads of the report: [is_valid], [errors] and
    [file_info.get("size", 0)]. *)
Definition size_of_info (file_info : option (ODict.odict meta_value)) : Z :=
  match file_info with
  | Some info =>
      match ODict.get info (lit "size") with
      | Some (MInt n) => n
      | _ => 0%Z
      end
  | None => 0%Z
  end.

Definition result_of (report : ValidationReport) : FileValidationResult :=
  {| is_valid := report_is_valid report;
     errors := report_errors report;
     file_size := size_of_info (report_file_info report) |}.

(** *** [extract_text_from_pdf] *)

(** The line written before the text of a page. *)
Definition page_marker (number : Z) : pystr :=
  lit "--- Page " ++ str_of_int number ++ lit " ---".

(** The loop [for page_num, page in enumerate(pdf_reader.pages)], on
    [text]; a page is what [page.extract_text()] returns or raises. *)
Fixpoint pages_text (page_num : Z) (pages : list (result pystr))
    (text : pystr) : pystr :=
  match pages with
  | [] => text
  | Ok page_text :: rest =>
      if truthy (strip page_text)
      then pages_text (page_num + 1) rest
             (text ++ [10%N; 10%N] ++ page_marker (page_num + 1) ++ [10%N]
                ++ page_text)
      else pages_text (page_num + 1) rest text
  | Raise _ :: rest => pages_text (page_num + 1) rest text
  end.

(** The body of the [try]; [reader] is the opening of the file and the
    reading of its pages. *)
Definition extract_text_from_pdf_try (reader : result (list (result pystr)))
    : result pystr :=
  match reader with
  | Raise e => Raise e
  | Ok pages =>
      let text := pages_text 0 pages [] in
      if negb (truthy (strip text))
      then Raise (Exn DocumentProcessingError
                    (lit "No text could be extracted from PDF"))
      else Ok (strip text)
  end.

Definition extract_text_from_pdf (reader : result (list (result pystr)))
    : result pystr :=
  match extract_text_from_pdf_try reader with
  | Ok text => Ok text
  | Raise e =>
      Raise (Exn DocumentProcessingError
               (lit "Failed to extract text from PDF: " ++ str_of_exn e))
  end.

(** *** [extract_text_from_txt] *)

(** The reading of the file as UTF-8. *)
Inductive Utf8Read :=
  | Utf8Content (content : pystr)
  | UnicodeDecodeError
  | Utf8Raise (e : exn).     (* any other exception *)

Definition extract_text_from_txt (utf8 : Utf8Read) (latin1 : result pystr)
    : result pystr :=
  match utf8 with
  | Utf8Content content =>
      if negb (truthy (strip content))
      then (* raised in the [try], so caught by its [except Exception] *)
        Raise (Exn DocumentProcessingError
                 (lit "Failed to extract text from file: "
                    ++ lit "Text file is empty"))
      else Ok (strip content)
  | UnicodeDecodeError =>
      match latin1 with
      | Ok content => Ok (strip content)
      | Raise e =>
          Raise (Exn DocumentProcessingError
                   (lit "Failed to read text file with encoding: "
                      ++ str_of_exn e))
      end
  | Utf8Raise e =>
      Raise (Exn DocumentProcessingError
               (lit "Failed to extract text from file: " ++ str_of_exn e))
  end.

End DocumentFiles.

(** ** The file system behind an environment *)

(** What is found at a path when the call numbered [n] looks. *)
Record FileSystem := {
  facts_at : nat -> pystr -> DocumentFiles.FileFacts;
  pdf_reader_at : nat -> pystr -> result (list (result pystr));
  utf8_at : nat -> pystr -> DocumentFiles.Utf8Read;
  latin1_at : nat -> pystr -> result pystr
}.

(** The environment whose two file operations are the methods above. *)
Definition with_files (upload : DocumentFiles.UploadSettings) (fs : FileSystem)
    (env : Env) : Env := {|
  settings := settings env;
  builtin_int := builtin_int env;
  str_lower := str_lower env;
  isoformat := isoformat env;
  client_embed_content := client_embed_content env;
  retry_error_message := retry_error_message env;
  client_generate_content := client_generate_content env;
  time_time := time_time env;
  datetime_now := datetime_now env;
  uuid4 := uuid4 env;
  validate_file := fun n file_path filename =>
    DocumentFiles.result_of
      (DocumentFiles.validate_file upload (str_lower env)
         (facts_at fs n file_path) filename);
  extract_text := fun n doc_type file_path =>
    match doc_type with
    | PDF => DocumentFiles.extract_text_from_pdf (pdf_reader_at fs n file_path)
    | TXT => DocumentFiles.extract_text_from_txt (utf8_at fs n file_path)
               (latin1_at fs n file_path)
    end;
  write_succeeds := write_succeeds env;
  remove_succeeds := remove_succeeds env
|}.


(** ** The routes ([app/api/routes])

    The bodies of the handlers, on arguments that passed the validation of
    the framework.  A handler answers with a response body or raises an
    [HTTPException]; every other exception is turned into one by its last
    [except] clause. *)

Module Routes.

Inductive http_result (A : Type) :=
  | Response (body : A)
  | HTTPException (status_code : Z) (detail : pystr).
Arguments Response {A} body.
Arguments HTTPException {A} status_code detail.

(** [SearchResponse], the fields the search route sets. *)
Record SearchResponse := {
  search_success : bool;
  search_results : list SearchResult;
  search_query : pystr;
  total_results : Z;
  search_processing_time : F64.float
}.

(** [DocumentResponse] *)
Record DocumentResponse := {
  document_success : bool;
  document_data : option Document;
  document_message : pystr
}.

(** The dictionary the delete route returns. *)
Record DeleteResponse := {
  delete_success : bool;
  delete_message : pystr
}.

Section Handlers.

Variable env : Env.

(** *** [search.py]: GET [/api/search] *)

(** [[doc_id.strip() for doc_id in document_ids.split(",")
      if doc_id.strip()]], when [document_ids] is given and not empty *)
Definition doc_ids_list_of (document_ids : option pystr)
    : option (list pystr) :=
  match document_ids with
  | Some ((_ :: _) as s) =>
      Some (map strip
              (filter (fun doc_id => truthy (strip doc_id))
                 (split_on 44%N s)))
  | _ => None
  end.

Definition search_documents_route (q : pystr) (limit : Z)
    (threshold : F64.float) (document_ids : option pystr)
    : M (http_result SearchResponse) :=
  try_except
    (n <- next_call ;;
     let start_time := time_time env n in
     let doc_ids_list := doc_ids_list_of document_ids in
     found <- try_except
                (search_results <- search_documents env q limit
                                     (Some threshold) doc_ids_list ;;
                 ret (Response search_results))
                (fun _ =>
                   ret (HTTPException 500 (lit "Search operation failed"))) ;;
     match found with
     | HTTPException status_code detail =>
         (* [except HTTPException: raise] *)
         ret (HTTPException status_code detail)
     | Response search_results =>
         n <- next_call ;;
         let processing_time := F64.sub (time_time env n) start_time in
         ret (Response {| search_success := true;
                          search_results := search_results;
                          search_query := q;
                          total_results := len search_results;
                          search_processing_time := processing_time |})
     end)
    (fun e =>
       ret (HTTPException 500 (lit "Search failed: " ++ str_of_exn e))).

(** *** [documents.py]: GET and DELETE [/api/documents/{document_id}] *)

Definition get_document_route (document_id : pystr)
    : M (http_result DocumentResponse) :=
  try_except
    (document <- get_document document_id ;;
     match document with
     | None => ret (HTTPException 404 (lit "Document not found"))
     | Some document =>
         ret (Response
                {| document_success := true;
                   document_data := Some document;
                   document_message :=
                     lit "Document retrieved successfully" |})
     end)
    (fun e =>
       ret (HTTPException 500 (lit "Failed to get document: "
                                 ++ str_of_exn e))).

Definition delete_document_route (document_id : pystr)
    : M (http_result DeleteResponse) :=
  try_except
    (document <- get_document document_id ;;
     match document with
     | None => ret (HTTPException 404 (lit "Document not found"))
     | Some document =>
         success <- delete_document env document_id ;;
         if negb success
         then ret (HTTPException 500 (lit "Failed to delete document"))
         else ret (Response
                     {| delete_success := true;
                        delete_message :=
                          lit "Document '" ++ filename document
                            ++ lit "' deleted successfully" |})
     end)
    (fun e =>
       ret (HTTPException 500 (lit "Failed to delete document: "
                                 ++ str_of_exn e))).

(** *** [qa.py]: POST [/api/qa/ask] *)

(** [request.session_id or str(uuid.uuid4())] *)
Definition session_or_uuid (request_session_id : option pystr) : M pystr :=
  match request_session_id with
  | Some ((_ :: _) as s) => ret s
  | _ => n <- next_call ;; ret (uuid4 env n)
  end.

(** [request_session_id] is the field [session_id] of the request. *)
Definition ask_question (request : QARequest)
    (request_session_id : option pystr) : M (http_result QAResponse) :=
  try_except
    (session_id <- session_or_uuid request_session_id ;;
     qa_response <- answer_question env request (Some session_id) ;;
     ret (Response qa_response))
    (fun e =>
       session_id <- session_or_uuid request_session_id ;;
       qa_response <- lift (QAResponse_new false apology [] F64.zero
                              F64.zero session_id (Some (str_of_exn e))) ;;
       ret (Response qa_response)).

End Handlers.

End Routes.

(** ** Sample surroundings

    Concrete settings, providers and corpora on which the model is run. *)

Module Sample.

(** An environment from settings and the two providers; the rest is fixed:
    every file is valid, its text is the path given, the clock and the
    UUIDs follow the number of the call. *)
Definition make_env (s : Settings)
    (embed : nat -> pystr -> result EmbedResponse)
    (generate : nat -> pystr -> result GenResponse) : Env := {|
  settings := s;
  builtin_int := ascii_int;
  str_lower := fun x => x;
  isoformat := fun t => str_of_int t;
  client_embed_content := embed;
  retry_error_message := fun _ e => lit "RetryError: " ++ exn_message e;
  client_generate_content := generate;
  time_time := fun n => F64.of_int (Z.of_nat n);
  datetime_now := fun n => Z.of_nat n;
  uuid4 := fun n => lit "doc-" ++ str_of_int (Z.of_nat n);
  validate_file := fun _ _ _ =>
    {| is_valid := true; errors := []; file_size := 64 |};
  extract_text := fun _ _ path => Ok path;
  write_succeeds := fun _ => true;
  remove_succeeds := fun _ => true
|}.

(** A response in the shape the client returns: [embeddings[0].values]. *)
Definition embeddings_response (v : list F64.float) : EmbedResponse :=
  {| attr_embeddings := Some [ItemValues (Some v)];
     attr_embedding := None; as_dict := None; as_list := None |}.

Definition two : F64.float := S754_finite false 4503599627370496 (-51).
Definition half : F64.float := S754_finite false 4503599627370496 (-53).
(** [2.0 ** 600] and [2.0 ** -600] *)
Definition huge : F64.float := S754_finite false 4503599627370496 548.
Definition tiny : F64.float := S754_finite false 4503599627370496 (-652).

(** Every text is embedded as [(1.0, 1.0)], but the query [q] as
    [(1.0, 0.0)]: every chunk has similarity [0.7071...] to the query. *)
Definition embed_fixed (n : nat) (text : pystr) : result EmbedResponse :=
  if PyStr.eqb text (lit "q")
  then Ok (embeddings_response [F64.one; F64.zero])
  else Ok (embeddings_response [F64.one; F64.one]).

Definition embed_failing (n : nat) (text : pystr) : result EmbedResponse :=
  Raise (Exn ProviderError (lit "503 service unavailable")).

(** The provider answers with no numbers at all. *)
Definition embed_empty (n : nat) (text : pystr) : result EmbedResponse :=
  Ok (embeddings_response []).

(** The provider answers with a dict that holds [None] in place of the
    numbers: [{'embedding': {'values': None}}]. *)
Definition embed_none (n : nat) (text : pystr) : result EmbedResponse :=
  Ok {| attr_embeddings := None; attr_embedding := None;
        as_dict := Some {| key_embeddings := None;
                           key_embedding := Some (FieldValues None);
                           key_values := None |};
        as_list := None |}.

Definition generate_fixed (n : nat) (prompt : pystr) : result GenResponse :=
  Ok (GenWithText (Some (lit "Una respuesta."))).

Definition generate_failing (n : nat) (prompt : pystr) : result GenResponse :=
  Raise (Exn ProviderError (lit "quota exceeded")).

Definition env : Env := make_env default_settings embed_fixed generate_fixed.

Definition env_no_embedding : Env :=
  make_env default_settings embed_failing generate_fixed.

Definition env_empty_embedding : Env :=
  make_env default_settings embed_empty generate_fixed.

Definition env_none_embedding : Env :=
  make_env default_settings embed_none generate_fixed.

Definition env_no_generation : Env :=
  make_env default_settings embed_fixed generate_failing.

(** [CHUNK_SIZE=10] in the environment. *)
Definition small_chunk_settings : Settings := {|
  gemini_model := gemini_model default_settings;
  embedding_model := embedding_model default_settings;
  documents_path := documents_path default_settings;
  chunk_size := 10;
  chunk_overlap := chunk_overlap default_settings;
  search_limit := search_limit default_settings;
  similarity_threshold := similarity_threshold default_settings
|}.

Definition env_small_chunks : Env :=
  make_env small_chunk_settings embed_fixed generate_fixed.

Definition cat_text : pystr := lit "The cat sat. It was calm.".
Definition dog_text : pystr := lit "The dog ran to the gate. It barked.".

(** The world after the ingestion of one file, and of a second. *)
Definition world1 : World :=
  snd (process_document env cat_text (lit "cat.txt") initial_world).

Definition world2 : World :=
  snd (process_document env dog_text (lit "dog.txt") world1).

(** The id the first file got. *)
Definition cat_id : pystr := lit "doc-2".

End Sample.

(** ** Sample runs *)

(** The results of the query [q] on the corpus of two files, limit 5. *)
Definition sample_results : list SearchResult :=
  Eval vm_compute in
    match fst (search_documents Sample.env (lit "q") 5 None None
                 Sample.world2) with
    | Ok rs => rs
    | Raise _ => []
    end.

(** [3.0] and [4.0] *)
Definition three : F64.float := S754_finite false 6755399441055744 (-51).
Definition four : F64.float := S754_finite false 4503599627370496 (-50).

(** ** More sample surroundings *)

Module SampleFiles.

(** A text file of 25 bytes whose content is the sample text. *)
Definition text_file : DocumentFiles.FileFacts := {|
  DocumentFiles.path_exists := true;
  DocumentFiles.getsize := Ok 25%Z;
  DocumentFiles.magic_from_file := Ok (lit "text/plain");
  DocumentFiles.pdf_num_pages :=
    Raise (Exn ProviderError (lit "EOF marker not found"))
|}.

(** A path at which there is nothing. *)
Definition no_file : DocumentFiles.FileFacts := {|
  DocumentFiles.path_exists := false;
  DocumentFiles.getsize := Raise (Exn OSError (lit "No such file"));
  DocumentFiles.magic_from_file := Raise (Exn OSError (lit "No such file"));
  DocumentFiles.pdf_num_pages := Raise (Exn OSError (lit "No such file"))
|}.

(** The file system in which the path of an upload holds, as a text file,
    the characters of the path itself, except for the path [missing]. *)
Definition fs : FileSystem := {|
  facts_at := fun _ path =>
    if PyStr.eqb path (lit "missing") then no_file else text_file;
  pdf_reader_at := fun _ path => Ok [Ok path];
  utf8_at := fun _ path => DocumentFiles.Utf8Content path;
  latin1_at := fun _ path => Ok path
|}.

Definition env : Env :=
  with_files DocumentFiles.default_upload_settings fs Sample.env.

(** A PDF of four pages: a first page that fills a chunk, a second page,
    a blank page and a page that cannot be read. *)
Definition pdf_front : list (result pystr) :=
  [Ok (repeat 97%N 3999 ++ lit ".")].
Definition pdf_last : pystr := lit "Bbbb bbbb bbbb.".
Definition pdf_back : list (result pystr) :=
  [Ok (lit "  "); Raise (Exn ProviderError (lit "damaged"))].

(** The text extracted from it. *)
Definition pdf_text : pystr :=
  DocumentFiles.page_marker 1 ++ [10%N] ++ repeat 97%N 3999 ++ lit "."
    ++ [10%N; 10%N] ++ DocumentFiles.page_marker 2 ++ [10%N] ++ pdf_last.

End SampleFiles.

(** * The vocabulary of the properties *)

(** ** Strings and the segmenter *)

(** A string that [strip] leaves alone and that is not empty: it starts and
    ends with a character that is no white space. *)
Definition starts_nonspace (s : pystr) : Prop :=
  match s with
  | [] => False
  | c :: _ => isspace c = false
  end.

Definition clean (s : pystr) : Prop :=
  starts_nonspace s /\ starts_nonspace (rev s).

(** The running chunk: every sentence followed by one space. *)
Definition spaced (g : list pystr) : pystr :=
  List.concat (map (fun s => s ++ [32%N]) g).

Definition space : pystr := [32%N].

(** The sentences of a group fit the limit together, or the group is one
    sentence (which no limit shortens). *)
Definition fits (g : list pystr) : Prop :=
  (len (join space g) <= max_chunk_chars)%Z \/ exists s, g = [s].

Definition group_ok (g : list pystr) : Prop :=
  g <> [] /\ Forall clean g /\ fits g.

(** The last sentence of a group. *)
Definition trailing_sentence (g : list pystr) : pystr := last g [].

(** The positional indices of a list of chunks count from 0 without gap. *)
Definition sequential (chunks : list DocumentChunk) : Prop :=
  map chunk_index chunks
  = map (fun i => Some (Z.of_nat i)) (seq 0 (List.length chunks)).

(** No chunk is longer than [limit] and one of the sentences together. *)
Definition chunk_length_bound (limit : Z) (sentences : list pystr)
    (chunks : list DocumentChunk) : Prop :=
  Forall (fun c =>
            Exists (fun s => (len (chunk_content c) <= limit + len s)%Z)
                   sentences)
         chunks.

(** ** Binary64 values: order, normal numbers, zeros *)

Module F64Order.

Import F64.

Definition le (a b : float) : Prop := leb a b = true.

(** A key that orders the values as [SFcompare] does: the sign class, then
    exponent and mantissa. *)
Definition rank (x : float) : Z * Z * Z :=
  match x with
  | S754_nan => (0, 0, 0)
  | S754_infinity true => (-2, 0, 0)
  | S754_finite true m e => (-1, - e, - Zpos m)
  | S754_zero _ => (0, 0, 0)
  | S754_finite false m e => (1, e, Zpos m)
  | S754_infinity false => (2, 0, 0)
  end%Z.

Definition rank_le (p q : Z * Z * Z) : Prop :=
  let '(a1, b1, c1) := p in
  let '(a2, b2, c2) := q in
  (a1 < a2 \/ (a1 = a2 /\ (b1 < b2 \/ (b1 = b2 /\ c1 <= c2))))%Z.

(** [a >= b] *)
Definition ge (a b : float) : Prop := geb a b = true.

Local Open Scope Z_scope.

(** A mantissa of 53 bits. *)
Definition normal (m : positive) : Prop := 2 ^ 52 <= Zpos m < 2 ^ 53.

End F64Order.

(** ** Cosine similarity: zero vectors, tolerance *)

(** A zero of either sign. *)
Definition is_zero (x : F64.float) : bool :=
  match x with S754_zero _ => true | _ => false end.

Definition zero_vector (a : list F64.float) : Prop :=
  Forall (fun x => is_zero x = true) a.

(** A positive normal number from [2^-1021] up to, not including,
    [2^1020]: a sum of squares that neither underflowed nor overflowed, and
    whose square root can be squared again without either. *)
Definition normal_in_range (x : F64.float) : bool :=
  match x with
  | S754_finite false m e =>
      (Zpos (digits2_pos m) =? 53)%Z && (-1073 <=? e)%Z && (e <=? 967)%Z
  | _ => false
  end.

(** [1 - 2^-49] and [1 + 2^-49] *)
Definition one_minus_tolerance : F64.float :=
  S754_finite false 9007199254740976 (-53).
Definition one_plus_tolerance : F64.float :=
  S754_finite false 4503599627370504 (-52).

(** ** Sorting *)

(** [x] stands before [y] in a list in non-increasing order. *)
Definition before {A K} (key : A -> K) (le : K -> K -> Prop) (x y : A)
    : Prop :=
  le (key y) (key x).

(** ** The services *)

(** Two worlds with the same dictionaries and files. *)
Definition same_stores (w w' : World) : Prop :=
  vertex_rag_service w' = vertex_rag_service w
  /\ ds_documents w' = ds_documents w
  /\ doc_files w' = doc_files w.

(** What the scan records of a chunk it keeps. *)
Definition hit (query_embedding : list F64.float) (threshold : F64.float)
    (document : Document) (chunks : list DocumentChunk) (r : SearchResult)
    : Prop :=
  In (sr_chunk r) chunks
  /\ sr_document r = document
  /\ (exists c v, embedding (sr_chunk r) = Some (c :: v)
                  /\ _cosine_similarity query_embedding (c :: v)
                     = Ok (similarity r))
  /\ F64.geb (similarity r) threshold = true
  /\ relevance_score r = similarity r.

(** A result of the whole scan comes from an entry of
    [chunks_by_document] whose document is in [documents]. *)
Definition corpus_hit (docs : ODict.odict Document)
    (q : list F64.float) (t : F64.float) (ids : option (list pystr))
    (items : list (pystr * list DocumentChunk)) (r : SearchResult) : Prop :=
  exists id chunks,
    In (id, chunks) items
    /\ filtered_out ids id = false
    /\ ODict.get docs id = Some (sr_document r)
    /\ hit q t (sr_document r) chunks r.

(** The threshold a search applies. *)
Definition threshold_in_effect (env : Env) (threshold : option F64.float)
    : F64.float :=
  match threshold with
  | None => similarity_threshold (settings env)
  | Some t => t
  end.

(** Results in non-increasing order of similarity. *)
Definition by_similarity (a b : SearchResult) : Prop :=
  F64.geb (similarity a) (similarity b) = true.

(** The keys of a dictionary of documents are the ids of its values. *)
Definition well_keyed (d : ODict.odict Document) : Prop :=
  Forall (fun kv => doc_id (snd kv) = fst kv) d.

(** What holds of every world the services reach from the initial one: no
    dictionary has a key twice, and documents are stored under their id. *)
Record World_ok (w : World) : Prop := {
  ok_rag_documents : ODict.wf (documents (vertex_rag_service w));
  ok_rag_chunks : ODict.wf (chunks_by_document (vertex_rag_service w));
  ok_ds_documents : ODict.wf (ds_documents w);
  ok_rag_keys : well_keyed (documents (vertex_rag_service w));
  ok_ds_keys : well_keyed (ds_documents w)
}.

(** A stored chunk is a chunk handed in, with what a call of
    [generate_embedding] on its content returned as its embedding. *)
Definition stored_from (env : Env) (document : Document) (chunks : list DocumentChunk)
    (c' : DocumentChunk) : Prop :=
  exists c emb w1 w2,
    In c chunks
    /\ generate_embedding env (chunk_content c) w1 = (Ok emb, w2)
    /\ c' = enriched env document c emb.

(** A chunk handed in is stored with what its call returned, unless the
    call raised. *)
Definition kept_or_failed (env : Env) (document : Document)
    (stored : list DocumentChunk) (c : DocumentChunk) : Prop :=
  exists w1,
    (exists e w2,
        generate_embedding env (chunk_content c) w1 = (Raise e, w2))
    \/ (exists emb w2,
          generate_embedding env (chunk_content c) w1 = (Ok emb, w2)
          /\ In (enriched env document c emb) stored).

(** Embedding generation fails for every chunk of the list, whenever it is
    called. *)
Definition embedding_fails_for (env : Env) (chunks : list DocumentChunk)
    : Prop :=
  forall c w, In c chunks ->
    exists e w', generate_embedding env (chunk_content c) w = (Raise e, w').

(** The degraded answer built from an exception. *)
Definition failure_response (resp : QAResponse) (e : exn) : Prop :=
  success resp = false
  /\ answer resp = apology
  /\ sources resp = []
  /\ confidence resp = F64.zero
  /\ error resp = Some (str_of_exn e).

(** The document [process_document] builds before chunking. *)
Definition new_document (env : Env) (file_path filename text : pystr)
    (w : World)
    : Document :=
  {| doc_id := uuid4 env (2 + calls w);
     filename := filename;
     title := rsplit1_head 46%N filename;
     content := text;
     doc_type := doc_type_of env filename;
     size := file_size (validate_file env (calls w) file_path filename);
     uploaded_at := datetime_now env (3 + calls w);
     processed_at := None;
     chunk_count := 0;
     status := lit "processing" |}.

(** Running a method: the combinators of the monad unfolded, the
    projections of an updated world computed. *)
Ltac run_monad :=
  repeat (unfold try_except, bind, modify, get_world, next_call, raise, ret,
            lift in *);
  cbn [negb calls with_calls with_rag with_ds_documents with_doc_files
       vertex_rag_service ds_documents doc_files documents
       chunks_by_document] in *.

(** ** More vocabulary *)

(** A string of white space only (the empty string included). *)
Definition blank (s : pystr) : Prop := Forall (fun c => isspace c = true) s.

(** A decimal digit. *)
Definition is_digit (c : char) : bool := ((48 <=? c) && (c <=? 57))%N.

(** The id [chunk_document] gives the chunk at a position. *)
Definition chunk_id_at (filename : pystr) (i : nat) : pystr :=
  filename ++ lit "_chunk_" ++ str_of_int (Z.of_nat i).

(** The page in force when the first loop of [chunk_document] ends. *)
Definition final_page (py_int : pystr -> option Z) (text : pystr) : Z :=
  snd (sentences_and_page py_int text).

(** A line that [chunk_document] reads as a page marker. *)
Definition is_marker (line : pystr) : bool := startswith line (lit "--- Page").

(** What [process_document] raises for an exception [e] of its body. *)
Definition reraised (e : exn) : exn :=
  match exn_kind e with
  | DocumentProcessingError | FileValidationError => e
  | _ => Exn DocumentProcessingError
           (lit "Failed to process document: " ++ str_of_exn e)
  end.

(** A chunk that passed the validation loop of [process_document] comes
    from a chunk of the segmentation, with its id, content, index and
    embedding. *)
Definition validated_from (chunk_data : list DocumentChunk)
    (c' : DocumentChunk) : Prop :=
  exists c, In c chunk_data
    /\ too_short c = false
    /\ chunk_id c' = chunk_id c
    /\ chunk_content c' = chunk_content c
    /\ chunk_index c' = chunk_index c
    /\ embedding c' = embedding c.

(** Documents in the order [list_documents] gives: newest upload first. *)
Definition newest_first (a b : Document) : Prop :=
  (uploaded_at b <= uploaded_at a)%Z.

(** The four ways a run of [process_document] ends: the file is refused,
    its text cannot be read, no chunk survives, or the document is stored. *)
Inductive process_document_end (env : Env) (file_path filename : pystr)
    (w : World)
    : result Document * World -> Prop :=
  | EndInvalid :
      is_valid (validate_file env (calls w) file_path filename) = false ->
      process_document_end env file_path filename w
        (Raise (Exn FileValidationError
                  (lit "File validation failed: "
                     ++ join (lit ", ")
                          (errors (validate_file env (calls w) file_path
                                     filename)))),
         with_calls w (S (calls w)))
  | EndUnreadable e :
      is_valid (validate_file env (calls w) file_path filename) = true ->
      extract_text env (S (calls w)) (doc_type_of env filename) file_path
        = Raise e ->
      process_document_end env file_path filename w
        (Raise (reraised e), with_calls w (2 + calls w))
  | EndNoChunks text :
      is_valid (validate_file env (calls w) file_path filename) = true ->
      extract_text env (S (calls w)) (doc_type_of env filename) file_path
        = Ok text ->
      valid_chunks (chunk_document (builtin_int env) text filename) = [] ->
      process_document_end env file_path filename w
        (Raise (Exn DocumentProcessingError
                  (lit "No valid chunks generated from document")),
         with_calls w (4 + calls w))
  | EndStored text stored now w' :
      let chunks :=
        valid_chunks (chunk_document (builtin_int env) text filename) in
      let d0 := new_document env file_path filename text w in
      let d := completed d0 chunks now in
      is_valid (validate_file env (calls w) file_path filename) = true ->
      extract_text env (S (calls w)) (doc_type_of env filename) file_path
        = Ok text ->
      chunks <> [] ->
      documents (vertex_rag_service w')
        = ODict.set (ODict.set (documents (vertex_rag_service w)) (doc_id d0)
                       d0) (doc_id d0) d ->
      chunks_by_document (vertex_rag_service w')
        = ODict.set (chunks_by_document (vertex_rag_service w)) (doc_id d0)
            stored ->
      ds_documents w' = ODict.set (ds_documents w) (doc_id d0) d ->
      Forall (stored_from env d0 chunks) stored ->
      process_document_end env file_path filename w (Ok d, w').


(** The JSON file of a document is in the documents directory. *)
Definition has_file (w : World) (id : pystr) : bool :=
  existsb (PyStr.eqb id) (doc_files w).

(** ** [generate_embedding]: the attempts *)

(** What one attempt obtains: the provider's answer to the call numbered
    [n], decoded. *)
Definition attempt_outcome (env : Env) (n : nat) (text : pystr)
    : result (option (list F64.float)) :=
  match client_embed_content env n text with
  | Ok response => decode_embedding response
  | Raise e => Raise e
  end.

Definition attempt_fails (env : Env) (n : nat) (text : pystr) : Prop :=
  exists e, attempt_outcome env n text = Raise e.

(** The keys that [add_document_to_corpus] writes in a chunk's metadata. *)
Definition enrichment_keys : list pystr :=
  [lit "documentId"; lit "documentTitle"; lit "documentType";
   lit "uploadDate"; lit "embeddingModel"; lit "embeddingDimension"].

(** What a citation takes from the search result it is made of. *)
Definition cites (r : SearchResult) (c : CitationSource) : Prop :=
  cs_document_id c = doc_id (sr_document r)
  /\ cs_document_title c = title (sr_document r)
  /\ cs_chunk_id c = chunk_id (sr_chunk r)
  /\ cs_content c = chunk_content (sr_chunk r)
  /\ cs_page_number c = page_number (sr_chunk r)
  /\ cs_relevance_score c = relevance_score r.

(** [0.3] and [0.6] as [len / 3 * 0.9] computes them for one and two
    sources. *)
Definition c0_3 : F64.float := S754_finite false 5404319552844595 (-54).
Definition c0_6 : F64.float := S754_finite false 5404319552844595 (-53).

(** The confidence [answer_question] computes from the number of sources:
    a third of [0.9] for each of the first three. *)
Definition confidence_table (n : nat) : F64.float :=
  match n with
  | 0%nat => F64.zero
  | 1%nat => c0_3
  | 2%nat => c0_6
  | _ => F64.c0_9
  end.

(** The stages of the body of [answer_question] all succeed, from the
    world [w0] in which the search starts. *)
Record answered (env : Env) (request : QARequest) (w0 : World)
    (rs : list SearchResult) (cs : list CitationSource)
    (response : GenResponse) (w1 : World) : Prop := {
  answered_search :
    search_documents env (question request) (max_sources request) None None
      w0 = (Ok rs, w1);
  answered_citations : build_citations env rs [] = Ok cs;
  answered_generation :
    client_generate_content env (calls w1)
      (prompt_of (context_text_of rs) (question request)) = Ok response
}.

(** The text the loop over the pages builds is empty or begins with two
    line ends and a page marker. *)
Definition marked (text : pystr) : Prop :=
  text = [] \/ exists rest, text = [10%N; 10%N] ++ lit "--- Page" ++ rest.

(** A page of a PDF that adds nothing to the text: its text is blank, or
    its extraction raised. *)
Definition no_text (page : result pystr) : Prop :=
  match page with
  | Ok page_text => truthy (strip page_text) = false
  | Raise _ => True
  end.

(** No line of a text is read as a page marker. *)
Definition no_marker_line (text : pystr) : Prop :=
  Forall (fun line => is_marker line = false) (split_on 10%N text).
(** ** Vocabulary of the file checks *)

(** What makes an upload acceptable: the file is there, not empty and not
    larger than the maximum, its extension is allowed, and a PDF can be
    opened and has a page. *)
Definition acceptable (upload : DocumentFiles.UploadSettings)
    (str_lower : pystr -> pystr) (facts : DocumentFiles.FileFacts)
    (filename : pystr) (file_size : Z) : Prop :=
  let file_ext := DocumentFiles.file_ext_of str_lower filename in
  DocumentFiles.path_exists facts = true
  /\ DocumentFiles.getsize facts = Ok file_size
  /\ (file_size <= DocumentFiles.max_file_size upload)%Z
  /\ file_size <> 0%Z
  /\ In file_ext (DocumentFiles.allowed_extensions upload)
  /\ (file_ext = lit "pdf" ->
      exists num_pages,
        DocumentFiles.pdf_num_pages facts = Ok num_pages
        /\ num_pages <> 0%Z).

(** The same file as [magic] might see it otherwise. *)
Definition with_magic (facts : DocumentFiles.FileFacts)
    (answer : result pystr) : DocumentFiles.FileFacts :=
  {| DocumentFiles.path_exists := DocumentFiles.path_exists facts;
     DocumentFiles.getsize := DocumentFiles.getsize facts;
     DocumentFiles.magic_from_file := answer;
     DocumentFiles.pdf_num_pages := DocumentFiles.pdf_num_pages facts |}.
(** * Properties *)

(** ** Stripping *)



Lemma lstrip_nonspace s : starts_nonspace s -> lstrip s = s.
Proof.
  destruct s as [|c s]; simpl; [tauto|]. intros ->. reflexivity.
Qed.

Lemma lstrip_cases s : lstrip s = [] \/ starts_nonspace (lstrip s).
Proof.
  induction s as [|c s IH]; simpl; [now left|].
  destruct (isspace c) eqn:E; [exact IH|]. right. exact E.
Qed.

Lemma lstrip_snoc s c :
  isspace c = false -> lstrip (s ++ [c]) = lstrip s ++ [c].
Proof.
  intros Hc. induction s as [|a s IH]; simpl.
  - now rewrite Hc.
  - destruct (isspace a); [exact IH | reflexivity].
Qed.

Lemma rstrip_cons c s :
  isspace c = false -> rstrip (c :: s) = c :: rstrip s.
Proof.
  intros Hc. unfold rstrip. simpl.
  rewrite lstrip_snoc by exact Hc.
  rewrite rev_app_distr. reflexivity.
Qed.

Lemma rstrip_ends s : rstrip s = [] \/ starts_nonspace (rev (rstrip s)).
Proof.
  unfold rstrip. rewrite rev_involutive.
  destruct (lstrip_cases (rev s)) as [->|H]; [now left | now right].
Qed.

Lemma starts_nonspace_app s t : starts_nonspace s -> starts_nonspace (s ++ t).
Proof. destruct s; simpl; tauto. Qed.

Lemma strip_cases s : strip s = [] \/ clean (strip s).
Proof.
  unfold strip.
  destruct (lstrip_cases s) as [->|H]; [now left|].
  destruct (lstrip s) as [|c t]; [now left|]. simpl in H.
  right. rewrite rstrip_cons by exact H. split; [exact H|].
  simpl. destruct (rstrip_ends t) as [->|Ht]; [exact H|].
  now apply starts_nonspace_app.
Qed.

Lemma strip_clean s : clean s -> strip s = s.
Proof.
  intros [Hs He]. unfold strip. rewrite (lstrip_nonspace _ Hs).
  unfold rstrip. rewrite (lstrip_nonspace _ He). apply rev_involutive.
Qed.

Lemma truthy_true s : truthy s = true <-> s <> [].
Proof. destruct s; simpl; split; congruence. Qed.

Lemma strip_truthy_clean s : truthy (strip s) = true -> clean (strip s).
Proof.
  intros H. destruct (strip_cases s) as [E|E]; [|exact E].
  rewrite E in H. discriminate.
Qed.

Lemma clean_nonempty s : clean s -> s <> [].
Proof. intros [H _] ->. exact H. Qed.



Lemma spaced_snoc g s : spaced (g ++ [s]) = spaced g ++ s ++ [32%N].
Proof.
  unfold spaced. rewrite map_app, concat_app. simpl.
  now rewrite app_nil_r.
Qed.

Lemma spaced_single s : spaced [s] = s ++ [32%N].
Proof. unfold spaced. simpl. apply app_nil_r. Qed.

Lemma spaced_join g : g <> [] -> spaced g = join space g ++ [32%N].
Proof.
  induction g as [|s g IH]; [congruence|]. intros _.
  destruct g as [|s' g].
  - unfold spaced. simpl. now rewrite app_nil_r.
  - change (spaced (s :: s' :: g)) with ((s ++ [32%N]) ++ spaced (s' :: g)).
    rewrite IH by congruence.
    change (join space (s :: s' :: g))
      with (s ++ space ++ join space (s' :: g)).
    unfold space. now rewrite <- !app_assoc.
Qed.

Lemma join_clean g : g <> [] -> Forall clean g -> clean (join space g).
Proof.
  induction g as [|s g IH]; [congruence|]. intros _ Hg.
  inversion Hg as [|? ? Hs Hg']; subst.
  destruct g as [|s' g]; [exact Hs|].
  change (join space (s :: s' :: g))
    with (s ++ space ++ join space (s' :: g)).
  assert (Hne : s' :: g <> []) by discriminate.
  destruct (IH Hne Hg') as [_ He].
  split.
  - apply starts_nonspace_app, Hs.
  - rewrite !rev_app_distr. now apply starts_nonspace_app, starts_nonspace_app.
Qed.

(** What a chunk's content is: the sentences of its group, one space
    between two of them. *)
Lemma strip_spaced g :
  g <> [] -> Forall clean g -> strip (spaced g) = join space g.
Proof.
  intros Hne Hg. rewrite spaced_join by exact Hne.
  destruct (join_clean Hne Hg) as [Hs He].
  unfold strip.
  rewrite lstrip_nonspace by now apply starts_nonspace_app.
  unfold rstrip. rewrite rev_app_distr. simpl.
  rewrite (lstrip_nonspace _ He). apply rev_involutive.
Qed.

Lemma len_app {A} (s t : list A) : len (s ++ t) = (len s + len t)%Z.
Proof. unfold len. rewrite length_app. lia. Qed.

Lemma len_nonneg {A} (s : list A) : (0 <= len s)%Z.
Proof. unfold len. lia. Qed.

(** ** The segmenter *)

Section SegmenterFacts.

Variable py_int : pystr -> option Z.

Lemma split_line_clean line : forall acc cur,
  Forall clean acc -> Forall clean (fst (split_line line acc cur)).
Proof.
  induction line as [|c line IH]; intros acc cur Hacc; simpl; [exact Hacc|].
  destruct (is_sentence_end c); [|now apply IH].
  apply IH. destruct (truthy (strip (cur ++ [c]))) eqn:E; [|exact Hacc].
  apply Forall_app. split; [exact Hacc|].
  constructor; [now apply strip_truthy_clean | constructor].
Qed.

Lemma sentences_of_line_clean line : Forall clean (sentences_of_line line).
Proof.
  unfold sentences_of_line.
  pose proof (split_line_clean line [] (Forall_nil _)) as H.
  destruct (split_line line [] []) as [ls cur]. simpl in H.
  destruct (truthy (strip cur)) eqn:E; [|exact H].
  apply Forall_app. split; [exact H|].
  constructor; [now apply strip_truthy_clean | constructor].
Qed.

Lemma scan_lines_clean lines : forall sentences page,
  Forall clean sentences ->
  Forall clean (fst (scan_lines py_int lines sentences page)).
Proof.
  induction lines as [|line lines IH]; intros sentences page Hs; simpl;
    [exact Hs|].
  destruct (startswith line (lit "--- Page")); [now apply IH|].
  apply IH, Forall_app. split; [exact Hs | apply sentences_of_line_clean].
Qed.

Lemma sentences_clean text :
  Forall clean (fst (sentences_and_page py_int text)).
Proof. apply scan_lines_clean. constructor. Qed.



Lemma spaced_nil_iff g : Forall clean g -> truthy (spaced g) = false -> g = [].
Proof.
  destruct g as [|s g]; [reflexivity|]. intros Hg.
  inversion Hg as [|? ? Hs _]; subst.
  destruct s as [|c s]; [now apply clean_nonempty in Hs|].
  discriminate.
Qed.

Lemma len_spaced g :
  g <> [] -> len (spaced g) = (len (join space g) + 1)%Z.
Proof. intros H. rewrite spaced_join by exact H. now rewrite len_app. Qed.

Lemma build_chunks_groups filename page rest : forall chunks g idx,
  Forall clean rest -> Forall clean g -> g = [] \/ fits g ->
  exists chunks' groups g' idx',
    build_chunks filename page rest chunks (spaced g) idx
      = (chunks ++ chunks', spaced g', idx')
    /\ map chunk_content chunks' = map (join space) groups
    /\ Forall group_ok groups
    /\ Forall clean g' /\ (g' = [] \/ fits g')
    /\ g ++ rest = List.concat groups ++ g'.
Proof.
  induction rest as [|s rest IH]; intros chunks g idx Hrest Hg Hfit.
  - exists [], [], g, idx. simpl. rewrite !app_nil_r. repeat split; auto.
  - inversion Hrest as [|? ? Hs Hrest']; subst.
    simpl. rewrite (strip_clean Hs).
    assert (Ht : truthy s = true) by (apply truthy_true, clean_nonempty, Hs).
    rewrite Ht. simpl.
    destruct (max_chunk_chars <? len (spaced g) + len s)%Z eqn:Hcmp.
    + destruct (truthy (spaced g)) eqn:Hg0.
      * assert (Hne : g <> []) by (intros ->; discriminate).
        rewrite <- (spaced_single s).
        destruct (IH (chunks ++ [make_chunk filename (spaced g) page idx])
                    [s] (idx + 1)%Z Hrest')
          as (chunks' & groups & g' & idx' & E & Hc & Hok & Hg' & Hf' & Hcat).
        { constructor; [exact Hs | constructor]. }
        { right. right. now exists s. }
        exists (make_chunk filename (spaced g) page idx :: chunks'),
          (g :: groups), g', idx'.
        split; [rewrite E; now rewrite <- app_assoc|].
        split; [simpl; rewrite Hc; f_equal; now apply strip_spaced|].
        split.
        { constructor; [|exact Hok]. split; [exact Hne|]. split; [exact Hg|].
          destruct Hfit as [->|Hfit]; [congruence | exact Hfit]. }
        split; [exact Hg'|]. split; [exact Hf'|].
        simpl. rewrite <- app_assoc, <- Hcat. reflexivity.
      * apply spaced_nil_iff in Hg0; [|exact Hg]. subst g.
        rewrite <- (spaced_single s).
        destruct (IH chunks [s] idx Hrest')
          as (chunks' & groups & g' & idx' & E & Hc & Hok & Hg' & Hf' & Hcat).
        { constructor; [exact Hs | constructor]. }
        { right. right. now exists s. }
        exists chunks', groups, g', idx'. repeat split; auto.
    + rewrite <- spaced_snoc.
      destruct (IH chunks (g ++ [s]) idx Hrest')
        as (chunks' & groups & g' & idx' & E & Hc & Hok & Hg' & Hf' & Hcat).
      { apply Forall_app. split; [exact Hg|]. constructor; [exact Hs|constructor]. }
      { right. left.
        assert (Hne : g ++ [s] <> []) by (destruct g; discriminate).
        pose proof (len_spaced Hne) as Hl.
        rewrite spaced_snoc, !len_app in Hl.
        apply Z.ltb_ge in Hcmp. change (len [32%N]) with 1%Z in Hl. lia. }
      exists chunks', groups, g', idx'. repeat split; auto.
      rewrite <- Hcat. now rewrite <- app_assoc.
Qed.


Lemma fits_bound g :
  fits g ->
  (len (join space g) <= max_chunk_chars + len (trailing_sentence g))%Z.
Proof.
  intros [H|[s ->]].
  - pose proof (len_nonneg (trailing_sentence g)). lia.
  - change (join space [s]) with s. change (trailing_sentence [s]) with s.
    unfold max_chunk_chars. lia.
Qed.

(** The chunks of a text are the joins of consecutive groups of its
    sentences. *)
Lemma chunk_document_groups text filename :
  exists groups,
    List.concat groups = fst (sentences_and_page py_int text)
    /\ map chunk_content (chunk_document py_int text filename)
       = map (join space) groups
    /\ Forall group_ok groups.
Proof.
  unfold chunk_document.
  pose proof (sentences_clean text) as Hclean.
  destruct (sentences_and_page py_int text) as [sentences page].
  simpl in Hclean |- *.
  destruct (@build_chunks_groups filename page sentences [] [] 0%Z
              Hclean (Forall_nil _) (or_introl eq_refl))
    as (chunks' & groups & g' & idx' & E & Hc & Hok & Hg' & Hf' & Hcat).
  change (spaced []) with (@nil char) in E. rewrite E. simpl.
  simpl in Hcat.
  destruct (truthy (strip (spaced g'))) eqn:Ht.
  - assert (Hne : g' <> []) by (intros ->; discriminate).
    exists (groups ++ [g']). split.
    + rewrite concat_app. simpl. now rewrite app_nil_r.
    + split.
      * rewrite !map_app, Hc. simpl. now rewrite strip_spaced.
      * apply Forall_app. split; [exact Hok|].
        constructor; [|constructor]. split; [exact Hne|]. split; [exact Hg'|].
        destruct Hf' as [->|Hf']; [congruence | exact Hf'].
  - assert (g' = []) as ->.
    { destruct g' as [|s g']; [reflexivity|].
      rewrite strip_spaced in Ht by (auto; discriminate).
      assert (Hne : s :: g' <> []) by discriminate.
      apply (join_clean Hne), clean_nonempty, truthy_true in Hg'.
      congruence. }
    exists groups. rewrite app_nil_r in Hcat. auto.
Qed.


Lemma sequential_snoc chunks filename cur page :
  sequential chunks ->
  sequential (chunks ++ [make_chunk filename cur page (len chunks)]).
Proof.
  unfold sequential. intros H.
  rewrite map_app, length_app, H. simpl.
  rewrite Nat.add_1_r, seq_S, map_app. reflexivity.
Qed.

Lemma build_chunks_sequential filename page rest : forall chunks cur,
  sequential chunks ->
  let '(chunks', _, idx') :=
    build_chunks filename page rest chunks cur (len chunks) in
  sequential chunks' /\ idx' = len chunks'.
Proof.
  induction rest as [|s rest IH]; intros chunks cur Hseq; simpl.
  - now split.
  - destruct (truthy (strip s)); simpl; [|now apply IH].
    destruct (max_chunk_chars <? len cur + len (strip s))%Z;
      [|now apply IH].
    destruct (truthy cur); [|now apply IH].
    replace (len chunks + 1)%Z
      with (len (chunks ++ [make_chunk filename cur page (len chunks)])).
    + apply IH. now apply sequential_snoc.
    + unfold len. rewrite length_app. simpl. lia.
Qed.

Lemma chunk_document_sequential text filename :
  sequential (chunk_document py_int text filename).
Proof.
  unfold chunk_document.
  destruct (sentences_and_page py_int text) as [sentences page].
  pose proof (@build_chunks_sequential filename page sentences [] []) as H.
  change (len (@nil DocumentChunk)) with 0%Z in H.
  destruct (build_chunks filename page sentences [] [] 0) as [[chunks cur] idx].
  destruct H as [Hseq ->]; [reflexivity|].
  destruct (truthy (strip cur)); [|exact Hseq].
  now apply sequential_snoc.
Qed.


Lemma trailing_in_concat g groups :
  g <> [] -> In g groups -> In (trailing_sentence g) (List.concat groups).
Proof.
  intros Hne Hin. apply in_concat. exists g. split; [exact Hin|].
  unfold trailing_sentence.
  destruct (exists_last Hne) as (g0 & s & ->).
  rewrite last_last. apply in_or_app. right. now left.
Qed.

Lemma groups_length_bound groups chunks :
  map chunk_content chunks = map (join space) groups ->
  Forall group_ok groups ->
  chunk_length_bound max_chunk_chars (List.concat groups) chunks.
Proof.
  intros Hmap Hok. unfold chunk_length_bound.
  assert (Hall : forall gs cs,
             map chunk_content cs = map (join space) gs ->
             Forall (fun g => In g groups /\ group_ok g) gs ->
             Forall (fun c =>
               Exists (fun s => (len (chunk_content c)
                                 <= max_chunk_chars + len s)%Z)
                      (List.concat groups)) cs).
  { induction gs as [|g gs IH]; intros [|c cs] E Hgs; try discriminate;
      constructor.
    - inversion Hgs as [|? ? [Hin (Hne & _ & Hfit)] _]; subst.
      injection E as Ec _. apply Exists_exists.
      exists (trailing_sentence g). split; [now apply trailing_in_concat|].
      rewrite Ec. now apply fits_bound.
    - inversion Hgs; subst. injection E as _ E. now apply IH. }
  apply (Hall groups chunks Hmap).
  rewrite Forall_forall in Hok |- *. intros g Hg. split; auto.
Qed.

End SegmenterFacts.

(** ** The order of binary64 values *)

Module F64Facts.

Import F64.
Import F64Order.

(** The comparison of two finite values of one sign: by exponent, then by
    mantissa. *)
Lemma lex_le_spec e1 m1 e2 m2 :
  match (e1 ?= e2)%Z with
  | Lt => Lt | Gt => Gt | Eq => Pos.compare_cont Eq m1 m2
  end <> Gt
  <-> (e1 < e2)%Z \/ (e1 = e2 /\ (m1 <= m2)%positive).
Proof.
  change (Pos.compare_cont Eq m1 m2) with (m1 ?= m2)%positive.
  destruct (Z.compare_spec e1 e2) as [E|E|E];
    destruct (Pos.compare_spec m1 m2) as [F|F|F];
    split; intros H; try congruence; try lia;
    try (right; split; lia); try (left; lia).
Qed.


Lemma compare_le a b :
  le a b <-> exists c, SFcompare a b = Some c /\ c <> Gt.
Proof.
  unfold le, leb, SFleb. destruct (SFcompare a b) as [[| |]|]; split;
    intros H; try discriminate; try (eexists; split; [reflexivity|congruence]);
    try reflexivity; destruct H as (c & E & Hc); congruence.
Qed.



Lemma le_rank a b :
  le a b <-> is_nan a = false /\ is_nan b = false /\ rank_le (rank a) (rank b).
Proof.
  unfold le, leb, SFleb.
  destruct a as [sa|sa| |sa ma ea], b as [sb|sb| |sb mb eb];
    try destruct sa; try destruct sb; simpl;
    try (split; [intros H; try discriminate; repeat split; lia
                | intros (H1 & H2 & H3); try discriminate; try reflexivity;
                  lia]).
  - (* both negative *)
    pose proof (lex_le_spec eb mb ea ma) as L.
    change (Pos.compare_cont Eq ma mb) with (ma ?= mb)%positive.
    change (Pos.compare_cont Eq mb ma) with (mb ?= ma)%positive in L.
    rewrite (Pos.compare_antisym mb ma), (Z.compare_antisym eb ea).
    destruct (eb ?= ea)%Z eqn:E1; simpl in *;
      destruct (mb ?= ma)%positive eqn:E2; simpl in *;
      split; intros H; try discriminate; try reflexivity;
      try (repeat split; try reflexivity;
           assert (L' : (eb < ea)%Z \/ eb = ea /\ (mb <= ma)%positive)
             by (apply L; congruence); lia);
      try (exfalso; destruct H as (_ & _ & H);
           assert (L' : (eb < ea)%Z \/ eb = ea /\ (mb <= ma)%positive) by lia;
           apply L in L'; congruence).
  - (* both positive *)
    pose proof (lex_le_spec ea ma eb mb) as L.
    destruct (ea ?= eb)%Z eqn:E1;
      destruct (Pos.compare_cont Eq ma mb) eqn:E2;
      split; intros H; try discriminate; try reflexivity;
      try (repeat split; try reflexivity;
           assert (L' : (ea < eb)%Z \/ ea = eb /\ (ma <= mb)%positive)
             by (apply L; congruence); lia);
      try (exfalso; destruct H as (_ & _ & H);
           assert (L' : (ea < eb)%Z \/ ea = eb /\ (ma <= mb)%positive) by lia;
           apply L in L'; congruence).
Qed.

Lemma le_trans a b c : le a b -> le b c -> le a c.
Proof.
  rewrite !le_rank. intros (Ha & Hb & H1) (_ & Hc & H2).
  repeat split; auto.
  destruct (rank a) as [[a1 a2] a3], (rank b) as [[b1 b2] b3],
    (rank c) as [[c1 c2] c3]. simpl in *. lia.
Qed.

Lemma le_total a b :
  is_nan a = false -> is_nan b = false -> le a b \/ le b a.
Proof.
  rewrite !le_rank. intros Ha Hb.
  destruct (rank a) as [[a1 a2] a3], (rank b) as [[b1 b2] b3].
  simpl.
  assert (H : ((a1 < b1 \/ a1 = b1 /\ (a2 < b2 \/ a2 = b2 /\ a3 <= b3))
               \/ (b1 < a1 \/ b1 = a1 /\ (b2 < a2 \/ b2 = a2 /\ b3 <= a3)))%Z)
    by lia.
  destruct H; [left | right]; auto.
Qed.

Lemma le_not_nan a b : le a b -> is_nan a = false /\ is_nan b = false.
Proof. rewrite le_rank. tauto. Qed.

Lemma ltb_le a b : ltb a b = true -> le a b.
Proof.
  unfold ltb, SFltb, le, leb, SFleb.
  destruct (SFcompare a b) as [[| |]|]; congruence.
Qed.


Lemma ge_le a b : ge a b <-> le b a.
Proof. reflexivity. Qed.

End F64Facts.

(** ** Sorting in non-increasing order *)

Section SortDescFacts.

Variables (A K : Type) (key : A -> K) (lt : K -> K -> bool).
Variable le : K -> K -> Prop.
Variable ordered : K -> Prop.

Hypothesis lt_le : forall a b, lt a b = true -> le a b.
Hypothesis le_total :
  forall a b, ordered a -> ordered b -> le a b \/ le b a.
Hypothesis le_trans : forall a b c, le a b -> le b c -> le a c.
Hypothesis lt_false_ge :
  forall a b, ordered a -> ordered b -> lt a b = false -> le b a.


Lemma insert_desc_Forall (P : A -> Prop) x l :
  P x -> Forall P l -> Forall P (insert_desc key lt x l).
Proof.
  intros Hx. induction 1 as [|y l Hy Hl IH]; simpl.
  - now constructor.
  - destruct (lt (key x) (key y)); repeat constructor; auto.
Qed.

Lemma sort_desc_Forall (P : A -> Prop) l :
  Forall P l -> Forall P (sort_desc key lt l).
Proof.
  induction 1 as [|x l Hx Hl IH]; simpl; [constructor|].
  now apply insert_desc_Forall.
Qed.

Lemma insert_desc_sorted x l :
  ordered (key x) -> Forall (fun y => ordered (key y)) l ->
  StronglySorted (before key le) l ->
  StronglySorted (before key le) (insert_desc key lt x l).
Proof.
  intros Hx Hord Hs. induction Hs as [|y l Hs IH Hy]; simpl.
  - repeat constructor.
  - inversion Hord as [|? ? Hoy Hord']; subst.
    destruct (lt (key x) (key y)) eqn:E.
    + constructor; [now apply IH|].
      apply insert_desc_Forall; [|exact Hy].
      unfold before. now apply lt_le.
    + assert (Hxy : before key le x y)
        by (unfold before; now apply lt_false_ge).
      constructor; [now constructor|].
      constructor; [exact Hxy|].
      eapply Forall_impl; [|exact Hy].
      intros z Hz. unfold before in *. eapply le_trans; eauto.
Qed.

Lemma sort_desc_sorted l :
  Forall (fun y => ordered (key y)) l ->
  StronglySorted (before key le) (sort_desc key lt l).
Proof.
  induction 1 as [|x l Hx Hl IH]; simpl; [constructor|].
  apply insert_desc_sorted; auto. now apply sort_desc_Forall.
Qed.

Lemma insert_desc_length x l :
  List.length (insert_desc key lt x l) = S (List.length l).
Proof.
  induction l as [|y l IH]; simpl; [reflexivity|].
  destruct (lt (key x) (key y)); simpl; congruence.
Qed.

Lemma sort_desc_length l : List.length (sort_desc key lt l) = List.length l.
Proof.
  induction l as [|x l IH]; simpl; [reflexivity|].
  now rewrite insert_desc_length, IH.
Qed.

End SortDescFacts.

Lemma firstn_In {A} (x : A) n l : In x (firstn n l) -> In x l.
Proof.
  revert n. induction l as [|y l IH]; intros [|n]; simpl; try tauto.
  intros [H|H]; [now left | right; eauto].
Qed.

Lemma StronglySorted_firstn {A} (R : A -> A -> Prop) n l :
  StronglySorted R l -> StronglySorted R (firstn n l).
Proof.
  intros H. revert n. induction H as [|x l Hs IH Hx]; intros [|n]; simpl;
    try constructor; auto.
  apply Forall_forall. intros y Hy. rewrite Forall_forall in Hx.
  apply Hx. eapply firstn_In; eauto.
Qed.

Lemma Forall_firstn_weak {A} (P : A -> Prop) n l :
  Forall P l -> Forall P (firstn n l).
Proof.
  intros H. apply Forall_forall. intros y Hy.
  rewrite Forall_forall in H. apply H. eapply firstn_In; eauto.
Qed.

(** ** Slices *)

Lemma slice_to_length {A} (l : list A) stop :
  (0 <= stop)%Z -> (len (slice_to l stop) <= stop)%Z.
Proof.
  intros H. unfold slice_to, len.
  destruct (stop <? 0)%Z eqn:E; [apply Z.ltb_lt in E; lia|].
  rewrite length_firstn. lia.
Qed.

Lemma slice_to_Forall {A} (P : A -> Prop) (l : list A) stop :
  Forall P l -> Forall P (slice_to l stop).
Proof.
  intros H. unfold slice_to. destruct (stop <? 0)%Z;
    now apply Forall_firstn_weak.
Qed.

Lemma slice_to_sorted {A} (R : A -> A -> Prop) (l : list A) stop :
  StronglySorted R l -> StronglySorted R (slice_to l stop).
Proof.
  intros H. unfold slice_to. destruct (stop <? 0)%Z;
    now apply StronglySorted_firstn.
Qed.

(** ** Calls to the outside leave the services' dictionaries alone *)


Lemma same_stores_refl w : same_stores w w.
Proof. now repeat split. Qed.

Lemma same_stores_trans w1 w2 w3 :
  same_stores w1 w2 -> same_stores w2 w3 -> same_stores w1 w3.
Proof.
  intros (A1 & B1 & C1) (A2 & B2 & C2). repeat split; congruence.
Qed.

Section SearchFacts.

Variable env : Env.

Lemma generate_embedding_attempt_stores text w r w' :
  generate_embedding_attempt env text w = (r, w') -> same_stores w w'.
Proof.
  unfold generate_embedding_attempt, try_except, bind, next_call, lift, raise.
  destruct (client_embed_content env (calls w) text) as [resp|e]; simpl.
  - destruct (decode_embedding resp); intros [= <- <-]; now repeat split.
  - intros [= <- <-]; now repeat split.
Qed.

Lemma retrying_stores text k : forall last w r w',
  retrying env k last (generate_embedding_attempt env text) w = (r, w') ->
  same_stores w w'.
Proof.
  induction k as [|k IH]; intros last w r w'; simpl.
  - unfold bind, next_call, raise. intros [= <- <-]. now repeat split.
  - unfold try_except.
    destruct (generate_embedding_attempt env text w) as [[v|e] w1] eqn:E.
    + intros [= <- <-]. eapply generate_embedding_attempt_stores; eauto.
    + intros H. apply IH in H.
      eapply same_stores_trans; [|exact H].
      eapply generate_embedding_attempt_stores; eauto.
Qed.

Lemma generate_embedding_stores text w r w' :
  generate_embedding env text w = (r, w') -> same_stores w w'.
Proof. apply retrying_stores. Qed.

(** *** The scan *)


Lemma hit_weaken q t d c chunks r : hit q t d chunks r -> hit q t d (c :: chunks) r.
Proof. intros (H & ?). split; [now right | assumption]. Qed.

Lemma scan_chunks_spec q t d chunks : forall results,
  exists found,
    scan_chunks q t d chunks results = Ok (results ++ found)
    /\ Forall (hit q t d chunks) found.
Proof.
  induction chunks as [|c chunks IH]; intros results; simpl.
  - exists []. rewrite app_nil_r. split; [reflexivity | constructor].
  - destruct (no_embedding c) eqn:Hemb.
    + destruct (IH results) as (found & E & H). exists found.
      split; [exact E|]. eapply Forall_impl; [|exact H].
      intros r. apply hit_weaken.
    + unfold no_embedding in Hemb.
      destruct (embedding c) as [[|x v]|] eqn:Ec; try discriminate.
      destruct (_cosine_similarity q (x :: v)) as [s|e] eqn:Es.
      * destruct (F64.geb s t) eqn:Hge.
        -- destruct (IH (results ++ [ {| sr_chunk := c; sr_document := d;
                                         similarity := s;
                                         relevance_score := s |} ]))
             as (found & E & H).
           eexists (_ :: found). rewrite E, <- app_assoc. split; [reflexivity|].
           constructor.
           ++ repeat split; simpl; auto. exists x, v. auto.
           ++ eapply Forall_impl; [|exact H]. intros r. apply hit_weaken.
        -- destruct (IH results) as (found & E & H). exists found.
           split; [exact E|]. eapply Forall_impl; [|exact H].
           intros r. apply hit_weaken.
      * unfold _cosine_similarity in Es.
        destruct (cosine_similarity_try q (x :: v)); discriminate.
Qed.


Lemma scan_corpus_spec docs q t ids items : forall results,
  exists found,
    scan_corpus docs q t ids items results = Ok (results ++ found)
    /\ Forall (corpus_hit docs q t ids items) found.
Proof.
  induction items as [|[id chunks] items IH]; intros results; simpl.
  - exists []. rewrite app_nil_r. split; [reflexivity | constructor].
  - assert (Hw : forall r, corpus_hit docs q t ids items r ->
                           corpus_hit docs q t ids ((id, chunks) :: items) r).
    { intros r (id' & ch & Hin & H). exists id', ch.
      split; [now right | exact H]. }
    destruct (filtered_out ids id) eqn:Hf.
    + destruct (IH results) as (found & E & H). exists found.
      split; [exact E|]. eapply Forall_impl; [exact Hw | exact H].
    + destruct (ODict.get docs id) as [d|] eqn:Hd.
      * destruct (scan_chunks_spec q t d chunks results) as (f1 & E1 & H1).
        rewrite E1.
        destruct (IH (results ++ f1)) as (f2 & E2 & H2).
        exists (f1 ++ f2). rewrite E2, <- app_assoc. split; [reflexivity|].
        apply Forall_app. split.
        -- eapply Forall_impl; [|exact H1].
           intros r Hr. exists id, chunks.
           destruct Hr as (Hc & Hdoc & Hrest).
           split; [now left|]. split; [exact Hf|].
           split; [now rewrite Hdoc|].
           split; [exact Hc|]. split; [reflexivity | exact Hrest].
        -- eapply Forall_impl; [exact Hw | exact H2].
      * destruct (IH results) as (found & E & H). exists found.
        split; [exact E|]. eapply Forall_impl; [exact Hw | exact H].
Qed.


(** A search that returns went through these steps. *)
Lemma search_documents_inv query limit threshold ids w rs w' :
  search_documents env query limit threshold ids w = (Ok rs, w') ->
  exists q found,
    generate_embedding env query w = (Ok (Some q), w')
    /\ Forall (corpus_hit (documents (vertex_rag_service w')) q
                 (threshold_in_effect env threshold) ids
                 (ODict.items (chunks_by_document (vertex_rag_service w'))))
              found
    /\ rs = slice_to (sort_by_similarity found) limit.
Proof.
  unfold search_documents, try_except, bind, get_world, lift, ret, raise.
  fold (threshold_in_effect env threshold).
  destruct (generate_embedding env query w) as [[[q|]|e] w1] eqn:E;
    [|discriminate|discriminate].
  cbn [len_of_embedding].
  destruct (scan_corpus_spec (documents (vertex_rag_service w1)) q
              (threshold_in_effect env threshold) ids
              (ODict.items (chunks_by_document (vertex_rag_service w1))) [])
    as (found & Es & Hf).
  rewrite Es. simpl. intros [= <- <-]. exists q, found. auto.
Qed.

(** A search returns whenever the embedding of the query is obtained. *)
Lemma search_documents_returns query limit threshold ids w q w' :
  generate_embedding env query w = (Ok (Some q), w') ->
  exists rs, search_documents env query limit threshold ids w = (Ok rs, w').
Proof.
  intros E.
  unfold search_documents, try_except, bind, get_world, lift, ret, raise.
  rewrite E. cbn [len_of_embedding].
  destruct (scan_corpus_spec (documents (vertex_rag_service w')) q
              (threshold_in_effect env threshold) ids
              (ODict.items (chunks_by_document (vertex_rag_service w'))) [])
    as (found & Es & _).
  fold (threshold_in_effect env threshold). rewrite Es. simpl. eauto.
Qed.

(** Every search leaves the dictionaries as they are. *)
Lemma search_documents_stores query limit threshold ids w r w' :
  search_documents env query limit threshold ids w = (r, w') ->
  same_stores w w'.
Proof.
  unfold search_documents, try_except, bind, get_world, lift, ret, raise.
  destruct (generate_embedding env query w) as [[[q|]|e] w1] eqn:E;
    apply generate_embedding_stores in E; cbn [len_of_embedding].
  - destruct (scan_corpus _ _ _ _ _ _); intros H;
      apply (f_equal snd) in H; cbn [snd] in H; now subst w'.
  - intros H. apply (f_equal snd) in H. cbn [snd] in H. now subst w'.
  - intros H. apply (f_equal snd) in H. cbn [snd] in H. now subst w'.
Qed.


Lemma sort_by_similarity_sorted t found :
  Forall (fun r => F64.geb (similarity r) t = true) found ->
  StronglySorted by_similarity (sort_by_similarity found).
Proof.
  intros H.
  apply (@sort_desc_sorted SearchResult F64.float similarity F64.ltb
           F64Order.le (fun x => F64.is_nan x = false)).
  - apply F64Facts.ltb_le.
  - apply F64Facts.le_trans.
  - intros a b Ha Hb Hlt.
    destruct (F64Facts.le_total a b Ha Hb) as [Hab|Hba]; [|exact Hba].
    revert Hab Hlt. unfold F64Order.le, F64.leb, F64.ltb, SFleb, SFltb.
    destruct (SFcompare a b) as [[| |]|] eqn:E; try discriminate.
    intros _ _.
    destruct a as [sa|sa| |sa ma ea], b as [sb|sb| |sb mb eb];
      try destruct sa; try destruct sb; simpl in *; try discriminate;
      try reflexivity.
    + injection E as E. 
      destruct (ea ?= eb)%Z eqn:E1; try discriminate.
      apply Z.compare_eq in E1. subst eb. rewrite Z.compare_refl.
      change (Pos.compare_cont Eq ma mb) with (ma ?= mb)%positive in E.
      change (Pos.compare_cont Eq mb ma) with (mb ?= ma)%positive.
      rewrite Pos.compare_antisym.
      destruct (ma ?= mb)%positive; try discriminate. reflexivity.
    + injection E as E.
      destruct (ea ?= eb)%Z eqn:E1; try discriminate.
      apply Z.compare_eq in E1. subst eb. rewrite Z.compare_refl.
      change (Pos.compare_cont Eq ma mb) with (ma ?= mb)%positive in E.
      change (Pos.compare_cont Eq mb ma) with (mb ?= ma)%positive.
      rewrite Pos.compare_antisym.
      destruct (ma ?= mb)%positive; try discriminate. reflexivity.
  - eapply Forall_impl; [|exact H]. intros r Hr.
    apply (proj2 (F64Facts.le_not_nan Hr)).
Qed.

End SearchFacts.

(** ** Rounding in binary64

    The operations of [SpecFloat] on normal numbers, away from overflow and
    underflow, as statements on integer mantissas: the result has a
    mantissa of 53 bits and is the exact result truncated to 53 bits or
    the float after it. *)

Module F64Round.

Import F64Order.
Local Open Scope Z_scope.
Local Unset Implicit Arguments.

(** The number of binary digits of a mantissa. *)
Lemma digits2_pos_bounds p :
  2 ^ (Zpos (digits2_pos p) - 1) <= Zpos p < 2 ^ Zpos (digits2_pos p).
Proof.
  induction p as [p IH|p IH|]; simpl digits2_pos.
  - rewrite Pos2Z.inj_succ.
    replace (Z.succ (Zpos (digits2_pos p)) - 1)
      with (Z.succ (Zpos (digits2_pos p) - 1)) by lia.
    rewrite !Z.pow_succ_r by lia. lia.
  - rewrite Pos2Z.inj_succ.
    replace (Z.succ (Zpos (digits2_pos p)) - 1)
      with (Z.succ (Zpos (digits2_pos p) - 1)) by lia.
    rewrite !Z.pow_succ_r by lia. lia.
  - simpl. lia.
Qed.

Lemma digits2_pos_unique p d :
  2 ^ (d - 1) <= Zpos p < 2 ^ d -> Zpos (digits2_pos p) = d.
Proof.
  intros [Hlo Hhi]. pose proof (digits2_pos_bounds p) as [Blo Bhi].
  assert (Hd : 0 < d).
  { destruct (Z_lt_le_dec 0 d) as [H|H]; [exact H|].
    destruct (Z.eq_dec d 0) as [->|Hn]; [simpl in Hhi; lia|].
    rewrite Z.pow_neg_r in Hhi by lia. lia. }
  destruct (Z_lt_le_dec (Zpos (digits2_pos p)) d) as [H|H].
  - assert (2 ^ Zpos (digits2_pos p) <= 2 ^ (d - 1))
      by (apply Z.pow_le_mono_r; lia). lia.
  - destruct (Z_lt_le_dec d (Zpos (digits2_pos p))) as [H'|H']; [|lia].
    assert (2 ^ d <= 2 ^ (Zpos (digits2_pos p) - 1))
      by (apply Z.pow_le_mono_r; lia). lia.
Qed.

(** Shifting a mantissa right by [k] bits divides it by [2^k]. *)
Lemma shr_1_m mrs : 0 <= shr_m mrs -> shr_m (shr_1 mrs) = shr_m mrs / 2.
Proof.
  destruct mrs as [m r s]. cbn [shr_m]. intros Hm.
  destruct m as [|[p|p|]|p]; cbn [shr_1 shr_m]; try lia; try reflexivity.
  - apply Z.div_unique with 1; lia.
  - apply Z.div_unique with 0; lia.
Qed.

Lemma shr_1_nonneg mrs : 0 <= shr_m mrs -> 0 <= shr_m (shr_1 mrs).
Proof.
  intros H. rewrite shr_1_m by exact H. apply Z.div_pos; lia.
Qed.

Lemma iter_pos_shr_m p : forall mrs,
  0 <= shr_m mrs ->
  shr_m (iter_pos shr_1 p mrs) = shr_m mrs / 2 ^ Zpos p.
Proof.
  induction p as [p IH|p IH|]; intros mrs Hm; simpl iter_pos.
  - assert (H1 : 0 <= shr_m (shr_1 mrs)) by now apply shr_1_nonneg.
    assert (H2 : 0 <= shr_m (iter_pos shr_1 p (shr_1 mrs))).
    { rewrite IH by exact H1. apply Z.div_pos; [exact H1|].
      apply Z.pow_pos_nonneg; lia. }
    rewrite IH by exact H2. rewrite IH by exact H1. rewrite shr_1_m by exact Hm.
    rewrite !Z.div_div by (try lia; apply Z.pow_pos_nonneg; lia).
    f_equal. rewrite (Pos2Z.inj_xI p).
    replace (2 * Zpos p + 1) with (1 + Zpos p + Zpos p) by lia.
    rewrite !Z.pow_add_r by lia. change (2 ^ 1) with 2. lia.
  - assert (H2 : 0 <= shr_m (iter_pos shr_1 p mrs)).
    { rewrite IH by exact Hm. apply Z.div_pos; [exact Hm|].
      apply Z.pow_pos_nonneg; lia. }
    rewrite IH by exact H2. rewrite IH by exact Hm.
    rewrite !Z.div_div by (try lia; apply Z.pow_pos_nonneg; lia).
    f_equal. rewrite (Pos2Z.inj_xO p).
    replace (2 * Zpos p) with (Zpos p + Zpos p) by lia.
    rewrite !Z.pow_add_r by lia. lia.
  - rewrite shr_1_m by exact Hm. reflexivity.
Qed.

Lemma shr_record_of_loc_m m l : shr_m (shr_record_of_loc m l) = m.
Proof. destruct l as [|[| |]]; reflexivity. Qed.

Lemma shr_fexp_spec m e l d :
  0 < m -> Zdigits2 m = d -> -1074 <= d + e - 53 ->
  exists mrs,
    shr_fexp 53 1024 m e l = (mrs, e + Z.max 0 (d - 53))
    /\ shr_m mrs = m / 2 ^ Z.max 0 (d - 53).
Proof.
  intros Hm Hd Hrange. unfold shr_fexp, fexp, emin. rewrite Hd.
  replace (Z.max (d + e - 53) (3 - 1024 - 53)) with (d + e - 53) by lia.
  replace (d + e - 53 - e) with (d - 53) by lia.
  destruct (d - 53) as [|p|p] eqn:E; unfold shr.
  - eexists. split; [f_equal; simpl; lia|].
    rewrite shr_record_of_loc_m. simpl. now rewrite Z.div_1_r.
  - eexists. split; [f_equal; lia|].
    rewrite iter_pos_shr_m by (rewrite shr_record_of_loc_m; lia).
    rewrite shr_record_of_loc_m. f_equal.
  - eexists. split; [f_equal; simpl; lia|].
    rewrite shr_record_of_loc_m. simpl. now rewrite Z.div_1_r.
Qed.

Lemma round_nearest_even_cases m l :
  round_nearest_even m l = m \/ round_nearest_even m l = m + 1.
Proof.
  destruct l as [|[| |]]; simpl; auto. destruct (Z.even m); auto.
Qed.

Lemma Zdigits2_unique m d :
  0 < m -> 2 ^ (d - 1) <= m < 2 ^ d -> Zdigits2 m = d.
Proof.
  destruct m as [|p|p]; try lia. intros _ H. simpl.
  now apply digits2_pos_unique.
Qed.

Lemma Zdigits2_bounds m :
  0 < m -> 2 ^ (Zdigits2 m - 1) <= m < 2 ^ Zdigits2 m.
Proof.
  destruct m as [|p|p]; try lia. intros _. apply digits2_pos_bounds.
Qed.

(** Rounding a positive mantissa of at least 53 bits, away from overflow
    and underflow: a mantissa of 53 bits, the truncation of [mx] to 53
    bits or its successor. *)
Lemma binary_round_aux_normal mx ex lx d :
  0 < mx -> Zdigits2 mx = d -> 53 <= d ->
  -1074 <= d + ex - 53 -> d + ex - 53 + 1 <= 971 ->
  exists m e g,
    binary_round_aux 53 1024 false mx ex lx = S754_finite false m e
    /\ 2 ^ 52 <= Zpos m < 2 ^ 53
    /\ 0 <= g <= 1
    /\ e = ex + (d - 53) + g
    /\ (Zpos m * 2 ^ g = mx / 2 ^ (d - 53)
        \/ Zpos m * 2 ^ g = mx / 2 ^ (d - 53) + 1).
Proof.
  intros Hmx Hd Hd53 Hlo Hhi.
  pose proof (Zdigits2_bounds mx Hmx) as Hb. rewrite Hd in Hb.
  set (k := d - 53) in *.
  assert (Hk : 0 <= k) by (unfold k; lia).
  assert (Hpk : 0 < 2 ^ k) by (apply Z.pow_pos_nonneg; lia).
  set (t := mx / 2 ^ k).
  assert (Ht : 2 ^ 52 <= t < 2 ^ 53).
  { unfold t. replace d with (k + 53) in Hb by (unfold k; lia).
    replace (k + 53 - 1) with (k + 52) in Hb by lia.
    rewrite !Z.pow_add_r in Hb by lia. split.
    - apply Z.div_le_lower_bound; lia.
    - apply Z.div_lt_upper_bound; lia. }
  unfold binary_round_aux.
  destruct (shr_fexp_spec mx ex lx d Hmx Hd Hlo) as (mrs1 & E1 & Hm1).
  rewrite E1. replace (Z.max 0 (d - 53)) with k in * by (unfold k; lia).
  fold t in Hm1. rewrite Hm1.
  set (m1 := round_nearest_even t (loc_of_shr_record mrs1)).
  assert (Hm1c : m1 = t \/ m1 = t + 1) by apply round_nearest_even_cases.
  destruct (Z_lt_le_dec m1 (2 ^ 53)) as [Hlt|Hge].
  - (* 53 bits *)
    assert (Hd1 : Zdigits2 m1 = 53) by (apply Zdigits2_unique; simpl; lia).
    destruct (shr_fexp_spec m1 (ex + k) loc_Exact 53 ltac:(lia) Hd1 ltac:(lia))
      as (mrs2 & E2 & Hm2).
    change (Z.max 0 (53 - 53)) with 0 in E2, Hm2.
    rewrite E2. rewrite Z.add_0_r.
    rewrite Hm2. simpl (2 ^ 0). rewrite Z.div_1_r.
    destruct m1 as [|p1|p1] eqn:Ep; try lia.
    assert (Hle : (ex + k <=? 1024 - 53) = true) by (apply Z.leb_le; lia).
    rewrite Hle.
    exists p1, (ex + k), 0. split; [reflexivity|]. split; [lia|].
    split; [lia|]. split; [lia|]. simpl (2 ^ 0). lia.
  - (* carry: the mantissa is 2^53 *)
    assert (Hm1e : m1 = 2 ^ 53) by lia.
    assert (Hd1 : Zdigits2 m1 = 54) by (rewrite Hm1e; reflexivity).
    destruct (shr_fexp_spec m1 (ex + k) loc_Exact 54 ltac:(lia) Hd1 ltac:(lia))
      as (mrs2 & E2 & Hm2).
    change (Z.max 0 (54 - 53)) with 1 in E2, Hm2.
    rewrite E2. rewrite Hm2, Hm1e.
    change (2 ^ 53 / 2 ^ 1) with (Zpos (2 ^ 52)).
    assert (Hle : (ex + k + 1 <=? 1024 - 53) = true) by (apply Z.leb_le; lia).
    rewrite Hle.
    exists (2 ^ 52)%positive, (ex + k + 1), 1.
    split; [reflexivity|]. split; [simpl; lia|].
    split; [lia|]. split; [lia|]. right.
    change (Zpos (2 ^ 52) * 2 ^ 1) with (2 ^ 53). lia.
Qed.


Lemma normal_digits m : normal m -> Zdigits2 (Zpos m) = 53.
Proof. intros H. apply Zdigits2_unique; [lia|]. exact H. Qed.

(** The product of two normal numbers, away from overflow and underflow:
    within one part in 2^52 of the exact product. *)
Lemma mul_normal ma ea mb eb :
  normal ma -> normal mb ->
  -1074 <= ea + eb + 52 -> ea + eb + 54 <= 971 ->
  exists mc ec j,
    SFmul 53 1024 (S754_finite false ma ea) (S754_finite false mb eb)
      = S754_finite false mc ec
    /\ normal mc
    /\ 52 <= j <= 54
    /\ ec = ea + eb + j
    /\ (2 ^ 52 - 1) * (Zpos ma * Zpos mb)
       <= 2 ^ 52 * (Zpos mc * 2 ^ j)
       <= (2 ^ 52 + 1) * (Zpos ma * Zpos mb).
Proof.
  intros Ha Hb Hlo Hhi. unfold normal in *.
  cbn [SFmul xorb].
  set (P := Zpos (ma * mb)).
  assert (HP : P = Zpos ma * Zpos mb) by reflexivity.
  assert (HPb : 2 ^ 104 <= P < 2 ^ 106).
  { rewrite HP. change (2 ^ 104) with (2 ^ 52 * 2 ^ 52).
    change (2 ^ 106) with (2 ^ 53 * 2 ^ 53). split.
    - apply Z.mul_le_mono_nonneg; lia.
    - apply Z.mul_lt_mono_nonneg; lia. }
  assert (HPpos : 0 < P) by lia.
  pose proof (Zdigits2_bounds P HPpos) as Hd.
  set (d := Zdigits2 P) in *.
  assert (Hdr : 105 <= d <= 106).
  { split.
    - destruct (Z_lt_le_dec d 105) as [H|H]; [|exact H].
      assert (2 ^ d <= 2 ^ 104) by (apply Z.pow_le_mono_r; lia). lia.
    - destruct (Z_lt_le_dec 106 d) as [H|H]; [|exact H].
      assert (2 ^ 106 <= 2 ^ (d - 1)) by (apply Z.pow_le_mono_r; lia). lia. }
  destruct (binary_round_aux_normal P (ea + eb) loc_Exact d HPpos eq_refl
              ltac:(lia) ltac:(lia) ltac:(lia))
    as (mc & ec & g & E & Hn & Hg & Hec & Hv).
  exists mc, ec, (d - 53 + g). split; [exact E|]. split; [exact Hn|].
  split; [lia|]. split; [lia|].
  rewrite <- HP.
  set (k := d - 53) in *.
  assert (Hk : 0 <= k) by (unfold k; lia).
  assert (Hpk : 0 < 2 ^ k) by (apply Z.pow_pos_nonneg; lia).
  rewrite Z.pow_add_r by lia.
  assert (Hdiv : 2 ^ k * (P / 2 ^ k) <= P < 2 ^ k * (P / 2 ^ k + 1)).
  { pose proof (Z.mul_div_le P (2 ^ k) Hpk).
    pose proof (Z.mul_succ_div_gt P (2 ^ k) Hpk). lia. }
  assert (Hbig : 2 ^ 52 * 2 ^ k <= P).
  { replace (d - 1) with (52 + k) in Hd by (unfold k; lia).
    rewrite Z.pow_add_r in Hd by lia. lia. }
  set (t := P / 2 ^ k) in *.
  set (W := Zpos mc * 2 ^ g) in *.
  replace (Zpos mc * (2 ^ k * 2 ^ g)) with (2 ^ k * W) by (unfold W; ring).
  destruct Hv as [Hv|Hv]; rewrite Hv; nia.
Qed.

(** The square root of a normal number: the square of the result brackets
    the argument between the squares of its two neighbours. *)
Lemma sqrt_normal ms es :
  normal ms -> -1074 <= es <= 971 ->
  exists mn en,
    SFsqrt 53 1024 (S754_finite false ms es) = S754_finite false mn en
    /\ normal mn
    /\ 50 <= es - 2 * en <= 53
    /\ (Zpos mn - 1) * (Zpos mn - 1)
       <= Zpos ms * 2 ^ (es - 2 * en)
       < (Zpos mn + 1) * (Zpos mn + 1).
Proof.
  intros Hs Hes. pose proof (normal_digits ms Hs) as Hd. unfold normal in *.
  cbn [SFsqrt]. unfold SFsqrt_core_binary. rewrite Hd.
  unfold fexp, emin. rewrite !Z.div2_div.
  set (e' := es / 2 - 26).
  replace (Z.min (Z.max ((53 + es + 1) / 2 - 53) (3 - 1024 - 53)) (es / 2))
    with e'.
  2:{ unfold e'. replace (53 + es + 1) with (es + 27 * 2) by lia.
      rewrite Z.div_add by lia.
      pose proof (Z.div_mod es 2 ltac:(lia)).
      pose proof (Z.mod_pos_bound es 2 ltac:(lia)).
      set (h := es / 2) in *. lia. }
  set (sh := es - 2 * e').
  assert (Hsh : 52 <= sh <= 53).
  { unfold sh, e'. pose proof (Z.mod_pos_bound es 2 ltac:(lia)).
    pose proof (Z.div_mod es 2 ltac:(lia)). lia. }
  destruct sh as [|psh|psh] eqn:Esh; try lia.
  rewrite Z.shiftl_mul_pow2 by lia. rewrite <- Esh.
  set (M := Zpos ms * 2 ^ sh).
  assert (HM : 2 ^ 104 <= M < 2 ^ 106).
  { unfold M. assert (Hc : sh = 52 \/ sh = 53) by lia.
    destruct Hc as [-> | ->]; lia. }
  pose proof (Z.sqrtrem_sqrt M) as Hq.
  pose proof (Z.sqrt_spec M ltac:(lia)) as Hspec. cbv zeta in Hspec.
  destruct (Z.sqrtrem M) as [q r]. simpl in Hq. subst q.
  set (q := Z.sqrt M) in *.
  assert (Hqb : 2 ^ 52 <= q < 2 ^ 53).
  { split.
    - unfold q. apply Z.sqrt_le_square; lia.
    - unfold q. apply Z.sqrt_lt_square; lia. }
  assert (Hdq : Zdigits2 q = 53) by (apply Zdigits2_unique; lia).
  assert (He' : -537 - 26 <= e' <= 485 - 26).
  { unfold e'. pose proof (Z.div_mod es 2 ltac:(lia)).
    pose proof (Z.mod_pos_bound es 2 ltac:(lia)). lia. }
  match goal with
  | |- context [binary_round_aux 53 1024 false q e' ?l] =>
      destruct (binary_round_aux_normal q e' l 53 ltac:(lia) Hdq ltac:(lia)
                  ltac:(lia) ltac:(lia))
        as (mn & en & g & E & Hn & Hg & Hen & Hv)
  end.
  exists mn, en. split; [exact E|]. split; [exact Hn|].
  replace (53 - 53) with 0 in * by lia. simpl (2 ^ 0) in Hv.
  rewrite Z.div_1_r in Hv.
  assert (Hgc : g = 0 \/ g = 1) by lia.
  replace (Z.succ q) with (q + 1) in Hspec by lia.
  destruct Hgc as [-> | ->].
  - simpl (2 ^ 0) in Hv. rewrite Z.mul_1_r in Hv.
    replace (es - 2 * en) with sh by (unfold sh; lia).
    split; [lia|]. fold M. destruct Hv as [Hv|Hv]; rewrite Hv; nia.
  - change (2 ^ 1) with 2 in Hv.
    assert (Hm : Zpos mn = 2 ^ 52 /\ q = 2 ^ 53 - 1) by lia.
    destruct Hm as [Hm Hq'].
    replace (es - 2 * en) with (sh - 2) by (unfold sh; lia).
    split; [lia|].
    assert (HM4 : M = 4 * (Zpos ms * 2 ^ (sh - 2))).
    { unfold M. replace sh with (2 + (sh - 2)) at 1 by lia.
      rewrite Z.pow_add_r by lia. change (2 ^ 2) with 4. ring. }
    set (M' := Zpos ms * 2 ^ (sh - 2)) in *.
    rewrite Hm. rewrite Hq' in Hspec. lia.
Qed.

(** The quotient of two normal numbers, away from overflow and underflow. *)
Lemma div_normal ma ea mb eb :
  normal ma -> normal mb ->
  -1074 <= ea - eb - 53 -> ea - eb - 53 + 2 <= 971 ->
  exists mc ec h,
    SFdiv 53 1024 (S754_finite false ma ea) (S754_finite false mb eb)
      = S754_finite false mc ec
    /\ normal mc
    /\ 0 <= h <= 2
    /\ ec = ea - eb - 53 + h
    /\ Zpos ma * 2 ^ 53 - 2 * Zpos mb
       <= Zpos mc * 2 ^ h * Zpos mb
       <= Zpos ma * 2 ^ 53 + 2 * Zpos mb.
Proof.
  intros Ha Hb Hlo Hhi.
  pose proof (normal_digits ma Ha) as Hda.
  pose proof (normal_digits mb Hb) as Hdb. unfold normal in *.
  cbn [SFdiv xorb]. unfold SFdiv_core_binary. rewrite Hda, Hdb.
  unfold fexp, emin.
  replace (Z.min (Z.max (53 + ea - (53 + eb) - 53) (3 - 1024 - 53)) (ea - eb))
    with (ea - eb - 53) by lia.
  replace (ea - eb - (ea - eb - 53)) with 53 by lia.
  rewrite Z.shiftl_mul_pow2 by lia.
  set (A := Zpos ma * 2 ^ 53).
  pose proof (Z.div_mod A (Zpos mb) ltac:(lia)) as Hdm.
  pose proof (Z.mod_pos_bound A (Zpos mb) ltac:(lia)) as Hmb.
  unfold Z.div, Z.modulo in Hdm, Hmb.
  destruct (Z.div_eucl A (Zpos mb)) as [q r].
  assert (Hq : 2 ^ 52 <= q < 2 ^ 54).
  { unfold A in Hdm. split; nia. }
  assert (Hqpos : 0 < q) by lia.
  pose proof (Zdigits2_bounds q Hqpos) as Hd.
  set (d := Zdigits2 q) in *.
  assert (Hdr : 53 <= d <= 54).
  { split.
    - destruct (Z_lt_le_dec d 53) as [H|H]; [|exact H].
      assert (2 ^ d <= 2 ^ 52) by (apply Z.pow_le_mono_r; lia). lia.
    - destruct (Z_lt_le_dec 54 d) as [H|H]; [|exact H].
      assert (2 ^ 54 <= 2 ^ (d - 1)) by (apply Z.pow_le_mono_r; lia). lia. }
  match goal with
  | |- context [binary_round_aux 53 1024 false q ?e ?l] =>
      destruct (binary_round_aux_normal q e l d Hqpos eq_refl ltac:(lia)
                  ltac:(lia) ltac:(lia))
        as (mc & ec & g & E & Hn & Hg & Hec & Hv)
  end.
  exists mc, ec, (d - 53 + g). split; [exact E|]. split; [exact Hn|].
  split; [lia|]. split; [lia|].
  assert (Hdc : d = 53 \/ d = 54) by lia.
  assert (Hgc : g = 0 \/ g = 1) by lia.
  destruct Hdc as [Hd53 | Hd54].
  - rewrite Hd53 in *. replace (53 - 53) with 0 in * by lia.
    simpl (2 ^ 0) in Hv. rewrite Z.div_1_r in Hv. simpl (0 + g).
    destruct Hv as [Hv|Hv]; rewrite Hv; nia.
  - rewrite Hd54 in *. replace (54 - 53) with 1 in * by lia.
    change (2 ^ 1) with 2 in Hv.
    rewrite Z.pow_add_r by lia. change (2 ^ 1) with 2.
    pose proof (Z.div_mod q 2 ltac:(lia)) as Hq2.
    pose proof (Z.mod_pos_bound q 2 ltac:(lia)) as Hq2b.
    replace (Zpos mc * (2 * 2 ^ g)) with (2 * (Zpos mc * 2 ^ g)) by ring.
    destruct Hv as [Hv|Hv]; rewrite Hv; nia.
Qed.

(** The arithmetic behind [s / (sqrt s * sqrt s)]: from the three
    roundings to a quotient within one part in 2^49 of the scale. *)
Lemma ratio_core ms mn md mr a b c :
  2 ^ 52 <= ms < 2 ^ 53 -> 2 ^ 52 <= mn < 2 ^ 53 ->
  2 ^ 52 <= md < 2 ^ 53 -> 2 ^ 52 <= mr < 2 ^ 53 ->
  0 < a -> 0 < b -> 0 < c ->
  (mn - 1) * (mn - 1) <= ms * a < (mn + 1) * (mn + 1) ->
  (2 ^ 52 - 1) * (mn * mn) <= 2 ^ 52 * (md * b) <= (2 ^ 52 + 1) * (mn * mn) ->
  ms * 2 ^ 53 - 2 * md <= mr * c * md <= ms * 2 ^ 53 + 2 * md ->
  (2 ^ 49 - 1) * (2 ^ 53 * b) <= 2 ^ 49 * (mr * c * a)
  /\ 2 ^ 49 * (mr * c * a) <= (2 ^ 49 + 1) * (2 ^ 53 * b).
Proof.
  intros Hms Hmn Hmd Hmr Ha Hb Hc H1 H2 H3.
  assert (F1 : mn * mn - 2 * mn + 1 <= ms * a <= mn * mn + 2 * mn) by lia.
  assert (F2 : 2 ^ 52 * mn <= mn * mn) by nia.
  set (C := mn * mn) in *. set (A := ms * a) in *. set (B := md * b) in *.
  set (T := mr * c * a). set (U := 2 ^ 53 * b).
  assert (HC : 0 < C) by lia.
  assert (HB : 0 < B) by (unfold B; nia).
  assert (HU : 0 < U) by (unfold U; lia).
  assert (HT : 2 ^ 52 * a <= T).
  { unfold T. assert (2 ^ 52 <= mr * c) by nia. nia. }
  assert (F12 : (2 ^ 51 - 1) * C <= 2 ^ 51 * A <= (2 ^ 51 + 1) * C) by lia.
  assert (F4 : A * U - 2 * (a * B) <= T * B <= A * U + 2 * (a * B)).
  { assert (Hab : 0 <= a * b) by nia.
    pose proof (Z.mul_le_mono_nonneg_r _ _ (a * b) Hab (proj1 H3)) as L.
    pose proof (Z.mul_le_mono_nonneg_r _ _ (a * b) Hab (proj2 H3)) as R.
    replace ((ms * 2 ^ 53 - 2 * md) * (a * b))
      with (A * U - 2 * (a * B)) in L by (unfold A, U, B; ring).
    replace ((ms * 2 ^ 53 + 2 * md) * (a * b))
      with (A * U + 2 * (a * B)) in R by (unfold A, U, B; ring).
    replace (mr * c * md * (a * b)) with (T * B) in L, R
      by (unfold T, B; ring).
    split; assumption. }
  assert (F5 : 2 ^ 52 * (a * B) <= T * B).
  { pose proof (Z.mul_le_mono_nonneg_r _ _ B ltac:(lia) HT) as L.
    replace (2 ^ 52 * a * B) with (2 ^ 52 * (a * B)) in L by ring.
    exact L. }
  assert (F6 : (2 ^ 51 - 1) * C * U <= 2 ^ 51 * (A * U)
               /\ 2 ^ 51 * (A * U) <= (2 ^ 51 + 1) * C * U).
  { pose proof (Z.mul_le_mono_nonneg_r _ _ U ltac:(lia) (proj1 F12)) as L.
    pose proof (Z.mul_le_mono_nonneg_r _ _ U ltac:(lia) (proj2 F12)) as R.
    replace (2 ^ 51 * A * U) with (2 ^ 51 * (A * U)) in L, R by ring.
    split; assumption. }
  assert (F7 : (2 ^ 52 - 1) * (T * C) <= 2 ^ 52 * (T * B)
               /\ 2 ^ 52 * (T * B) <= (2 ^ 52 + 1) * (T * C)).
  { assert (HT0 : 0 <= T) by lia.
    pose proof (Z.mul_le_mono_nonneg_l _ _ T HT0 (proj1 H2)) as L.
    pose proof (Z.mul_le_mono_nonneg_l _ _ T HT0 (proj2 H2)) as R.
    replace (T * ((2 ^ 52 - 1) * C)) with ((2 ^ 52 - 1) * (T * C)) in L
      by ring.
    replace (T * (2 ^ 52 * B)) with (2 ^ 52 * (T * B)) in L, R by ring.
    replace (T * ((2 ^ 52 + 1) * C)) with ((2 ^ 52 + 1) * (T * C)) in R
      by ring.
    split; assumption. }
  set (X := T * B) in *. set (Y := A * U) in *. set (Z3 := a * B) in *.
  set (TC := T * C) in *.
  replace ((2 ^ 51 - 1) * C * U) with ((2 ^ 51 - 1) * (U * C)) in F6 by ring.
  replace ((2 ^ 51 + 1) * C * U) with ((2 ^ 51 + 1) * (U * C)) in F6 by ring.
  set (UC := U * C) in *.
  assert (Up : (2 ^ 51 - 1) * (2 ^ 52 - 1) * TC
               <= 2 ^ 52 * (2 ^ 51 + 1) * UC) by lia.
  assert (Lo : 2 ^ 52 * (2 ^ 51 - 1) * UC
               <= (2 ^ 51 + 1) * (2 ^ 52 + 1) * TC) by lia.
  assert (Up' : (2 ^ 51 - 1) * (2 ^ 52 - 1) * T
                <= 2 ^ 52 * (2 ^ 51 + 1) * U).
  { apply (Z.mul_le_mono_pos_r _ _ C HC).
    replace ((2 ^ 51 - 1) * (2 ^ 52 - 1) * T * C)
      with ((2 ^ 51 - 1) * (2 ^ 52 - 1) * TC) by (unfold TC; ring).
    replace (2 ^ 52 * (2 ^ 51 + 1) * U * C)
      with (2 ^ 52 * (2 ^ 51 + 1) * UC) by (unfold UC; ring).
    exact Up. }
  assert (Lo' : 2 ^ 52 * (2 ^ 51 - 1) * U
                <= (2 ^ 51 + 1) * (2 ^ 52 + 1) * T).
  { apply (Z.mul_le_mono_pos_r _ _ C HC).
    replace (2 ^ 52 * (2 ^ 51 - 1) * U * C)
      with (2 ^ 52 * (2 ^ 51 - 1) * UC) by (unfold UC; ring).
    replace ((2 ^ 51 + 1) * (2 ^ 52 + 1) * T * C)
      with ((2 ^ 51 + 1) * (2 ^ 52 + 1) * TC) by (unfold TC; ring).
    exact Lo. }
  split; lia.
Qed.

(** [s / (sqrt(s) * sqrt(s))] for a normal [s] below [2^1020]: a number
    between [1 - 2^-49] and [1 + 2^-49]. *)
Lemma self_ratio ms es :
  normal ms -> -1073 <= es <= 967 ->
  let s := S754_finite false ms es in
  let n := SFsqrt 53 1024 s in
  exists md ed mr er,
    SFmul 53 1024 n n = S754_finite false md ed
    /\ SFdiv 53 1024 s (SFmul 53 1024 n n) = S754_finite false mr er
    /\ ((er = -53 /\ 2 ^ 53 - 16 <= Zpos mr < 2 ^ 53)
        \/ (er = -52 /\ 2 ^ 52 <= Zpos mr <= 2 ^ 52 + 8)).
Proof.
  intros Hms Hes s n.
  destruct (sqrt_normal ms es Hms ltac:(lia))
    as (mn & en & En & Hmn & Halpha & H1).
  unfold n, s. rewrite En.
  destruct (mul_normal mn en mn en Hmn Hmn ltac:(lia) ltac:(lia))
    as (md & ed & j & Ed & Hmd & Hj & Hed & H2).
  rewrite Ed.
  destruct (div_normal ms es md ed Hms Hmd ltac:(lia) ltac:(lia))
    as (mr & er & h & Er & Hmr & Hh & Her & H3).
  exists md, ed, mr, er. split; [reflexivity|]. split; [exact Er|].
  set (alpha := es - 2 * en) in *.
  assert (Ha : 0 < 2 ^ alpha) by (apply Z.pow_pos_nonneg; lia).
  assert (Hb : 0 < 2 ^ j) by (apply Z.pow_pos_nonneg; lia).
  assert (Hc : 0 < 2 ^ h) by (apply Z.pow_pos_nonneg; lia).
  unfold normal in *.
  destruct (ratio_core (Zpos ms) (Zpos mn) (Zpos md) (Zpos mr)
              (2 ^ alpha) (2 ^ j) (2 ^ h) Hms Hmn Hmd Hmr Ha Hb Hc H1 H2 H3)
    as [Lo Up].
  assert (Her' : er = alpha - j - 53 + h) by (unfold alpha; lia).
  clear - Halpha Hj Hh Hmr Lo Up Her'.
  assert (Hal : alpha = 50 \/ alpha = 51 \/ alpha = 52 \/ alpha = 53) by lia.
  assert (Hjc : j = 52 \/ j = 53 \/ j = 54) by lia.
  assert (Hhc : h = 0 \/ h = 1 \/ h = 2) by lia.
  destruct Hal as [-> | [-> | [-> | ->]]];
    destruct Hjc as [-> | [-> | ->]];
    destruct Hhc as [-> | [-> | ->]];
    subst er; simpl in Lo, Up; simpl; lia.
Qed.

End F64Round.

(** ** Cosine similarity *)

Section CosineFacts.

(** Vectors of different lengths: whichever way the test of the
    denominator goes, the method returns [0.0]. *)
Lemma cosine_similarity_mismatch vec1 vec2 :
  List.length vec1 <> List.length vec2 ->
  _cosine_similarity vec1 vec2 = Ok F64.zero.
Proof.
  intros Hlen. unfold _cosine_similarity, cosine_similarity_try, np_dot.
  destruct (F64.eqb _ F64.zero); [reflexivity|].
  apply Nat.eqb_neq in Hlen. now rewrite Hlen.
Qed.

(** The method returns on every pair of vectors. *)
Lemma cosine_similarity_returns vec1 vec2 :
  exists r, _cosine_similarity vec1 vec2 = Ok r.
Proof.
  unfold _cosine_similarity.
  destruct (cosine_similarity_try vec1 vec2); eauto.
Qed.



Lemma add_zero_zero x y :
  is_zero x = true -> is_zero y = true -> is_zero (F64.add x y) = true.
Proof.
  destruct x as [sx| | |], y as [sy| | |]; try discriminate.
  destruct sx, sy; reflexivity.
Qed.

Lemma mul_zero_zero x y :
  is_zero x = true -> is_zero y = true -> is_zero (F64.mul x y) = true.
Proof. destruct x, y; try discriminate; reflexivity. Qed.

Lemma dot_sum_zero_vector a : forall acc,
  zero_vector a -> is_zero acc = true ->
  is_zero (fold_left
             (fun acc xy => F64.add acc (F64.mul (fst xy) (snd xy)))
             (combine a a) acc) = true.
Proof.
  induction a as [|x a IH]; intros acc Ha Hacc; simpl; [exact Hacc|].
  inversion Ha as [|? ? Hx Ha']; subst.
  apply IH; [exact Ha'|]. apply add_zero_zero; [exact Hacc|].
  now apply mul_zero_zero.
Qed.

Lemma norm_zero_vector a :
  zero_vector a -> is_zero (np_linalg_norm a) = true.
Proof.
  intros Ha. unfold np_linalg_norm, dot_sum.
  pose proof (@dot_sum_zero_vector a F64.zero Ha eq_refl) as H.
  destruct (fold_left _ _ _); try discriminate. reflexivity.
Qed.

Lemma mul_zero_finite x y :
  is_zero x = true -> F64.is_finite y = true ->
  F64.eqb (F64.mul x y) F64.zero = true
  /\ F64.eqb (F64.mul y x) F64.zero = true.
Proof.
  destruct x as [sx| | |]; try discriminate.
  destruct y as [sy| | |sy my ey]; try discriminate; intros _ _;
    split; reflexivity.
Qed.

Lemma mul_zero_not_finite x y :
  is_zero x = true -> F64.is_finite y = false ->
  F64.mul x y = F64.nan /\ F64.mul y x = F64.nan.
Proof.
  destruct x as [sx| | |]; try discriminate.
  destruct y as [sy|sy| |sy my ey]; try discriminate; intros _ _;
    split; reflexivity.
Qed.

Lemma div_nan d : F64.div d F64.nan = F64.nan.
Proof. destruct d; reflexivity. Qed.

(** The zero vector against a vector whose norm is computed as a finite
    number: the guard of the denominator returns [0.0], nothing is
    divided. *)
Lemma cosine_similarity_zero_vector z w :
  zero_vector z -> F64.is_finite (np_linalg_norm w) = true ->
  cosine_similarity_try z w = Ok F64.zero
  /\ cosine_similarity_try w z = Ok F64.zero.
Proof.
  intros Hz Hw. apply norm_zero_vector in Hz.
  destruct (mul_zero_finite _ _ Hz Hw) as [H1 H2].
  unfold cosine_similarity_try. rewrite H1, H2. now split.
Qed.

(** The zero vector against a vector of the same length whose norm
    overflows (or is not a number): the denominator is [0.0 * inf], not a
    number, the guard does not apply and the quotient is not a number. *)
Lemma cosine_similarity_zero_vector_overflow z w :
  zero_vector z -> F64.is_finite (np_linalg_norm w) = false ->
  List.length z = List.length w ->
  _cosine_similarity z w = Ok F64.nan.
Proof.
  intros Hz Hw Hlen. apply norm_zero_vector in Hz.
  destruct (mul_zero_not_finite _ _ Hz Hw) as [H1 _].
  unfold _cosine_similarity, cosine_similarity_try, np_dot.
  rewrite H1. simpl. apply Nat.eqb_eq in Hlen. rewrite Hlen.
  now rewrite div_nan.
Qed.

End CosineFacts.

(** ** A vector against itself *)



Lemma leb_same_exponent m1 m2 e :
  (m1 <= m2)%positive ->
  F64.leb (S754_finite false m1 e) (S754_finite false m2 e) = true.
Proof.
  intros H. unfold F64.leb, SFleb, SFcompare. rewrite Z.compare_refl.
  change (Pos.compare_cont Eq m1 m2) with (m1 ?= m2)%positive.
  destruct (m1 ?= m2)%positive eqn:E; try reflexivity.
  apply Pos.compare_gt_iff in E. lia.
Qed.

Lemma leb_smaller_exponent m1 m2 e1 e2 :
  (e1 < e2)%Z ->
  F64.leb (S754_finite false m1 e1) (S754_finite false m2 e2) = true.
Proof.
  intros H. unfold F64.leb, SFleb, SFcompare.
  apply Z.compare_lt_iff in H. now rewrite H.
Qed.

Lemma pos_le_of_Z p q : (Z.pos p <= Z.pos q)%Z -> (p <= q)%positive.
Proof. intros H. exact H. Qed.

Lemma mantissa_above_lower mr :
  (2 ^ 53 - 16 <= Zpos mr < 2 ^ 53)%Z -> (9007199254740976 <= mr)%positive.
Proof.
  intros Hm. apply pos_le_of_Z.
  assert (E : (2 ^ 53 - 16 = 9007199254740976)%Z) by (vm_compute; reflexivity).
  rewrite <- E. exact (proj1 Hm).
Qed.

Lemma mantissa_below_upper mr :
  (2 ^ 52 <= Zpos mr <= 2 ^ 52 + 8)%Z -> (mr <= 4503599627370504)%positive.
Proof.
  intros Hm. apply pos_le_of_Z.
  assert (E : (2 ^ 52 + 8 = 4503599627370504)%Z) by (vm_compute; reflexivity).
  rewrite <- E. exact (proj2 Hm).
Qed.

Lemma cosine_similarity_self v :
  normal_in_range (dot_sum v v) = true ->
  exists r,
    _cosine_similarity v v = Ok r
    /\ F64.leb one_minus_tolerance r = true
    /\ F64.leb r one_plus_tolerance = true.
Proof.
  intros Hs. unfold normal_in_range in Hs.
  destruct (dot_sum v v) as [| | |[|] ms es] eqn:Es; try discriminate.
  apply andb_prop in Hs. destruct Hs as [Hs Hhi].
  apply andb_prop in Hs. destruct Hs as [Hd Hlo].
  apply Z.eqb_eq in Hd. apply Z.leb_le in Hlo, Hhi.
  assert (Hn : F64Order.normal ms).
  { pose proof (F64Round.digits2_pos_bounds ms) as Hb. rewrite Hd in Hb.
    exact Hb. }
  destruct (F64Round.self_ratio ms es Hn (conj Hlo Hhi))
    as (md & ed & mr & er & Ed & Er & Hr).
  exists (S754_finite false mr er).
  unfold _cosine_similarity, cosine_similarity_try, np_linalg_norm, np_dot.
  rewrite Es. unfold F64.mul, F64.sqrt, F64.div, F64.prec, F64.emax.
  rewrite Nat.eqb_refl. rewrite Ed in Er |- *.
  change (F64.eqb (S754_finite false md ed) F64.zero) with false.
  cbv iota. rewrite Er. split; [reflexivity|].
  unfold one_minus_tolerance, one_plus_tolerance.
  destruct Hr as [[-> Hm] | [-> Hm]]; clear - Hm.
  - split; [apply leb_same_exponent | now apply leb_smaller_exponent].
    now apply mantissa_above_lower.
  - split; [now apply leb_smaller_exponent | apply leb_same_exponent].
    now apply mantissa_below_upper.
Qed.

(** ** Dictionaries *)

Module ODictFacts.

Import ODict.

Lemma char_eqb_eq a b : char_eqb a b = true <-> a = b.
Proof. apply N.eqb_eq. Qed.

Lemma eqb_eq s t : PyStr.eqb s t = true <-> s = t.
Proof.
  revert t. induction s as [|a s IH]; intros [|b t]; simpl;
    try (split; congruence).
  rewrite andb_true_iff, char_eqb_eq, IH. split.
  - intros [-> ->]. reflexivity.
  - intros [= -> ->]. auto.
Qed.

Lemma eqb_refl s : PyStr.eqb s s = true.
Proof. now apply eqb_eq. Qed.

Lemma eqb_neq s t : PyStr.eqb s t = false <-> s <> t.
Proof.
  rewrite <- eqb_eq. destruct (PyStr.eqb s t); split; congruence.
Qed.

Section Facts.

Context {V : Type}.
Implicit Types (d : odict V) (k : pystr) (v : V).

Lemma get_set_same d k v : get (set d k v) k = Some v.
Proof.
  induction d as [|[k' v'] d IH]; simpl.
  - now rewrite eqb_refl.
  - destruct (PyStr.eqb k' k) eqn:E; simpl; rewrite E; auto.
Qed.

Lemma get_set_other d k k' v : k' <> k -> get (set d k v) k' = get d k'.
Proof.
  intros Hne. induction d as [|[k0 v0] d IH]; simpl.
  - assert (E : PyStr.eqb k k' = false) by (apply eqb_neq; congruence).
    now rewrite E.
  - destruct (PyStr.eqb k0 k) eqn:E; simpl.
    + apply eqb_eq in E. subst k0.
      assert (E : PyStr.eqb k k' = false) by (apply eqb_neq; congruence).
      now rewrite E.
    + destruct (PyStr.eqb k0 k'); auto.
Qed.

Lemma keys_set d k v :
  keys (set d k v) = if mem d k then keys d else keys d ++ [k].
Proof.
  unfold mem. induction d as [|[k' v'] d IH]; simpl; [reflexivity|].
  destruct (PyStr.eqb k' k) eqn:E; simpl; [reflexivity|].
  unfold keys in *. rewrite IH. destruct (get d k); reflexivity.
Qed.

Lemma get_None_keys d k : get d k = None <-> ~ In k (keys d).
Proof.
  induction d as [|[k' v'] d IH]; simpl; [tauto|].
  destruct (PyStr.eqb k' k) eqn:E.
  - apply eqb_eq in E. split; [discriminate | intros H; exfalso; auto].
  - apply eqb_neq in E. rewrite IH. tauto.
Qed.

Lemma wf_set d k v : wf d -> wf (set d k v).
Proof.
  unfold wf. rewrite keys_set. unfold mem.
  destruct (get d k) eqn:E; [auto|].
  intros H. apply NoDup_app; [exact H | repeat constructor; simpl; tauto|].
  intros x Hx [<-|[]]. now apply get_None_keys in E.
Qed.

Lemma keys_del_incl d k x : In x (keys (del d k)) -> In x (keys d).
Proof.
  induction d as [|[k' v'] d IH]; simpl; [tauto|].
  destruct (PyStr.eqb k' k); simpl; tauto.
Qed.

Lemma wf_del d k : wf d -> wf (del d k).
Proof.
  unfold wf. induction d as [|[k' v'] d IH]; simpl; [auto|].
  intros H. inversion H as [|? ? Hn Hd]; subst.
  destruct (PyStr.eqb k' k); [exact Hd|]. simpl. constructor; [|auto].
  intros Hin. apply Hn. eapply keys_del_incl; eauto.
Qed.

Lemma get_del_same d k : wf d -> get (del d k) k = None.
Proof.
  unfold wf. induction d as [|[k' v'] d IH]; simpl; [reflexivity|].
  intros H. inversion H as [|? ? Hn Hd]; subst.
  destruct (PyStr.eqb k' k) eqn:E.
  - apply eqb_eq in E. subst k'. now apply get_None_keys.
  - simpl. rewrite E. auto.
Qed.

Lemma in_get d k v : wf d -> In (k, v) d -> get d k = Some v.
Proof.
  unfold wf. induction d as [|[k' v'] d IH]; simpl; [tauto|].
  intros H. inversion H as [|? ? Hn Hd]; subst.
  intros [[= -> ->]|Hin].
  - now rewrite eqb_refl.
  - destruct (PyStr.eqb k' k) eqn:E; [|auto].
    apply eqb_eq in E. subst k'. exfalso. apply Hn.
    change k with (fst (k, v)). now apply in_map.
Qed.

Lemma get_in d k v : get d k = Some v -> In (k, v) d.
Proof.
  induction d as [|[k' v'] d IH]; simpl; [discriminate|].
  destruct (PyStr.eqb k' k) eqn:E.
  - apply eqb_eq in E. intros [= ->]. left. congruence.
  - auto.
Qed.

Lemma in_set d k v k' v' :
  wf d -> In (k', v') (set d k v) ->
  (k' = k /\ v' = v) \/ (k' <> k /\ In (k', v') d).
Proof.
  intros Hwf Hin.
  pose proof (@wf_set d k v Hwf) as Hwf'.
  apply (@in_get _ k' v' Hwf') in Hin.
  destruct (PyStr.eqb k' k) eqn:E.
  - apply eqb_eq in E. subst k'. rewrite get_set_same in Hin.
    left. split; congruence.
  - apply eqb_neq in E. rewrite get_set_other in Hin by exact E.
    right. split; [exact E | now apply get_in].
Qed.

End Facts.

End ODictFacts.

(** ** The corpus *)


Lemma well_keyed_set d doc :
  well_keyed d -> well_keyed (ODict.set d (doc_id doc) doc).
Proof.
  unfold well_keyed. induction 1 as [|[k v] d Hk Hd IH]; simpl.
  - repeat constructor.
  - destruct (PyStr.eqb k (doc_id doc)) eqn:E.
    + apply ODictFacts.eqb_eq in E. constructor; [simpl; congruence | exact Hd].
    + constructor; [exact Hk | exact IH].
Qed.

Lemma well_keyed_del d k : well_keyed d -> well_keyed (ODict.del d k).
Proof.
  unfold well_keyed. induction 1 as [|[k' v] d Hk Hd IH]; simpl;
    [constructor|].
  destruct (PyStr.eqb k' k); [exact Hd | constructor; auto].
Qed.

Lemma well_keyed_get d k doc :
  well_keyed d -> ODict.get d k = Some doc -> doc_id doc = k.
Proof.
  intros Hd Hg. apply ODictFacts.get_in in Hg.
  unfold well_keyed in Hd. rewrite Forall_forall in Hd.
  apply (Hd _ Hg).
Qed.


Lemma initial_world_ok : World_ok initial_world.
Proof. split; simpl; constructor. Qed.

Lemma World_ok_same_stores w w' : same_stores w w' -> World_ok w -> World_ok w'.
Proof.
  intros (A & B & C) [H1 H2 H3 H4 H5].
  split; rewrite ?A, ?B; assumption.
Qed.

Section CorpusFacts.

Variable env : Env.


Lemma stored_from_weaken d c chunks c' :
  stored_from env d chunks c' -> stored_from env d (c :: chunks) c'.
Proof.
  intros (c0 & emb & w1 & w2 & Hin & H). exists c0, emb, w1, w2.
  split; [now right | exact H].
Qed.


Lemma kept_or_failed_weaken d x stored c :
  kept_or_failed env d stored c -> kept_or_failed env d (x :: stored) c.
Proof.
  intros (w1 & [H|(emb & w2 & E & Hin)]); exists w1; [now left|].
  right. exists emb, w2. split; [exact E | now right].
Qed.

Lemma enrich_chunks_spec d chunks : forall acc w,
  exists new w',
    enrich_chunks env d chunks acc w = (Ok (acc ++ new), w')
    /\ same_stores w w'
    /\ Forall (stored_from env d chunks) new
    /\ Forall (kept_or_failed env d new) chunks.
Proof.
  induction chunks as [|c chunks IH]; intros acc w; simpl.
  - exists [], w. rewrite app_nil_r. unfold ret.
    split; [reflexivity|]. split; [apply same_stores_refl|].
    split; constructor.
  - unfold bind at 1. unfold try_except, bind at 1.
    destruct (generate_embedding env (chunk_content c) w) as [[emb|e] w1] eqn:E;
      unfold ret.
    + destruct (IH (acc ++ [enriched env d c emb]) w1)
        as (new & w' & E' & Hs & Hn & Hk).
      exists (enriched env d c emb :: new), w'.
      rewrite E', <- app_assoc. split; [reflexivity|]. split; [|split].
      * eapply same_stores_trans; [|exact Hs].
        eapply generate_embedding_stores; eauto.
      * constructor.
        -- exists c, emb, w, w1. split; [now left | auto].
        -- eapply Forall_impl; [|exact Hn]. intros x. apply stored_from_weaken.
      * constructor.
        -- exists w. right. exists emb, w1. split; [exact E | now left].
        -- eapply Forall_impl; [|exact Hk].
           intros x. apply kept_or_failed_weaken.
    + destruct (IH acc w1) as (new & w' & E' & Hs & Hn & Hk).
      exists new, w'. split; [exact E'|]. split; [|split].
      * eapply same_stores_trans; [|exact Hs].
        eapply generate_embedding_stores; eauto.
      * eapply Forall_impl; [|exact Hn]. intros x. apply stored_from_weaken.
      * constructor; [|exact Hk]. exists w. left. eauto.
Qed.


Lemma stored_from_none d chunks c' :
  embedding_fails_for env chunks -> ~ stored_from env d chunks c'.
Proof.
  intros Hf (c & emb & w1 & w2 & Hin & E & _).
  destruct (Hf c w1 Hin) as (e & w' & E'). congruence.
Qed.

(** The effect of [add_document_to_corpus]: it returns [True]; the
    document is in [documents] and the chunks that got an embedding are
    its entry of [chunks_by_document]. *)
Lemma add_document_to_corpus_spec d chunks w :
  exists stored w',
    add_document_to_corpus env d chunks w = (Ok true, w')
    /\ documents (vertex_rag_service w')
       = ODict.set (documents (vertex_rag_service w)) (doc_id d) d
    /\ chunks_by_document (vertex_rag_service w')
       = ODict.set (chunks_by_document (vertex_rag_service w)) (doc_id d)
           stored
    /\ ds_documents w' = ds_documents w
    /\ doc_files w' = doc_files w
    /\ Forall (stored_from env d chunks) stored
    /\ Forall (kept_or_failed env d stored) chunks.
Proof.
  unfold add_document_to_corpus, try_except, bind, set_rag_document,
    set_rag_chunks, modify, ret.
  match goal with
  | |- context [enrich_chunks env d chunks [] ?w0] =>
      destruct (enrich_chunks_spec d chunks [] w0)
        as (stored & w1 & E & (Hr & Hd & Hf) & Hs & Hk)
  end.
  rewrite E. simpl in *. exists stored. eexists. split; [reflexivity|].
  simpl. rewrite Hr, Hd, Hf. simpl. auto 6.
Qed.

Lemma add_document_to_corpus_ok d chunks w r w' :
  add_document_to_corpus env d chunks w = (r, w') ->
  World_ok w -> World_ok w'.
Proof.
  intros E [H1 H2 H3 H4 H5].
  destruct (add_document_to_corpus_spec d chunks w)
    as (stored & w0 & E0 & Hdocs & Hchunks & Hds & _).
  rewrite E in E0. injection E0 as _ <-.
  split; rewrite ?Hdocs, ?Hchunks, ?Hds; auto.
  - now apply ODictFacts.wf_set.
  - now apply ODictFacts.wf_set.
  - now apply well_keyed_set.
Qed.

(** No result of a search comes from a document whose entry of
    [chunks_by_document] is empty. *)
Lemma no_hit_of_empty_entry docs q t ids items id r :
  ODict.wf items -> well_keyed docs ->
  ODict.get items id = Some [] ->
  corpus_hit docs q t ids (ODict.items items) r ->
  doc_id (sr_document r) <> id.
Proof.
  intros Hwf Hkeys Hget (id' & chunks & Hin & _ & Hdoc & (Hc & _)) Heq.
  apply (@well_keyed_get docs id' _ Hkeys) in Hdoc.
  rewrite Heq in Hdoc. subst id'.
  apply (@ODictFacts.in_get _ items id chunks Hwf) in Hin.
  rewrite Hget in Hin. injection Hin as <-. exact Hc.
Qed.

End CorpusFacts.


(** ** The answer composer *)


Section ComposerFacts.

Variable env : Env.

(** The [except] clause returns: its answer passes validation. *)
Lemma answer_question_except_returns session_id start e w :
  exists resp,
    answer_question_except env session_id start e w
      = (Ok resp, with_calls w (S (calls w)))
    /\ failure_response resp e.
Proof.
  unfold answer_question_except, bind, next_call, lift, QAResponse_new.
  simpl. eexists. split; [reflexivity|]. now repeat split.
Qed.

(** A failed embedding of the question fails the search. *)
Lemma search_documents_embedding_failure query limit threshold ids w e w' :
  generate_embedding env query w = (Raise e, w') ->
  search_documents env query limit threshold ids w
  = (Raise (Exn SearchError (lit "Search failed: " ++ str_of_exn e)), w').
Proof.
  intros E. unfold search_documents, try_except, bind, raise.
  now rewrite E.
Qed.

(** So does an embedding of the question that is [None]: its length is
    taken for the log line. *)
Lemma search_documents_none_embedding query limit threshold ids w w' :
  generate_embedding env query w = (Ok None, w') ->
  search_documents env query limit threshold ids w
  = (Raise (Exn SearchError
              (lit "Search failed: "
                 ++ lit "object of type 'NoneType' has no len()")),
     w').
Proof.
  intros E. unfold search_documents, try_except, bind, raise, lift.
  rewrite E. reflexivity.
Qed.

Lemma answer_question_try_search_failure request session_id start w e w' :
  search_documents env (question request) (max_sources request) None None w
    = (Raise e, w') ->
  answer_question_try env request session_id start w = (Raise e, w').
Proof.
  intros E. unfold answer_question_try, bind at 1. now rewrite E.
Qed.

Lemma answer_question_try_generation_failure
    request session_id start w rs w1 cs e :
  search_documents env (question request) (max_sources request) None None w
    = (Ok rs, w1) ->
  build_citations env rs [] = Ok cs ->
  client_generate_content env (calls w1)
    (prompt_of (context_text_of rs) (question request)) = Raise e ->
  answer_question_try env request session_id start w
  = (Raise e, with_calls w1 (S (calls w1))).
Proof.
  intros E1 E2 E3. unfold answer_question_try, bind, lift, next_call.
  rewrite E1, E2. simpl. now rewrite E3.
Qed.

End ComposerFacts.

(** ** The document service *)

Section DocumentServiceFacts.

Variable env : Env.

Lemma process_document_no_valid_chunks file_path filename w text :
  is_valid (validate_file env (calls w) file_path filename) = true ->
  extract_text env (S (calls w)) (doc_type_of env filename) file_path
    = Ok text ->
  valid_chunks (chunk_document (builtin_int env) text filename) = [] ->
  process_document env file_path filename w
  = (Raise (Exn DocumentProcessingError
              (lit "No valid chunks generated from document")),
     with_calls w (4 + calls w)).
Proof.
  intros Hv He Hc.
  unfold process_document, try_except, bind, next_call, lift, raise.
  rewrite Hv. cbn [negb calls with_calls]. rewrite He, Hc. reflexivity.
Qed.


(** A run of [process_document] that reaches the corpus: the document
    returned is marked completed and counts the valid chunks; it is in both
    services' [documents]; its entry of [chunks_by_document] holds the
    chunks that got an embedding. *)
Lemma process_document_stores file_path filename w text :
  is_valid (validate_file env (calls w) file_path filename) = true ->
  extract_text env (S (calls w)) (doc_type_of env filename) file_path
    = Ok text ->
  let chunks := valid_chunks (chunk_document (builtin_int env) text filename) in
  let d0 := new_document env file_path filename text w in
  chunks <> [] ->
  exists stored now w',
    let d := completed d0 chunks now in
    process_document env file_path filename w = (Ok d, w')
    /\ documents (vertex_rag_service w')
       = ODict.set (ODict.set (documents (vertex_rag_service w)) (doc_id d0)
                      d0) (doc_id d0) d
    /\ chunks_by_document (vertex_rag_service w')
       = ODict.set (chunks_by_document (vertex_rag_service w)) (doc_id d0)
           stored
    /\ ds_documents w' = ODict.set (ds_documents w) (doc_id d0) d
    /\ Forall (stored_from env d0 chunks) stored.
Proof.
  intros Hv He chunks d0 Hne.
  unfold process_document, try_except, bind, next_call, lift, raise.
  rewrite Hv. cbn [negb calls with_calls]. rewrite He.
  fold chunks. 
  change {|
                   doc_id := uuid4 env (S (S (calls w)));
                   filename := filename;
                   title := rsplit1_head 46%N filename;
                   content := text;
                   doc_type := doc_type_of env filename;
                   size :=
                     file_size
                       (validate_file env (calls w) file_path filename);
                   uploaded_at := datetime_now env (S (S (S (calls w))));
                   processed_at := None;
                   chunk_count := 0;
                   status := lit "processing"
                 |} with d0.
  destruct chunks as [|c cs] eqn:Ec; [congruence|].
  rewrite <- Ec. clear Hne.
  match goal with
  | |- context [add_document_to_corpus env d0 chunks ?w0] =>
      destruct (add_document_to_corpus_spec env d0 chunks w0)
        as (stored & w1 & Ea & Hdocs & Hchunks & Hds & Hfiles & Hst & _)
  end.
  rewrite Ea.
  exists stored, (datetime_now env (calls w1)).
  unfold set_rag_document, set_ds_document,
    save_document_file, modify, ret, bind, next_call.
  cbn [negb calls with_calls with_rag with_ds_documents with_doc_files
       vertex_rag_service ds_documents doc_files documents
       chunks_by_document doc_id completed] in *.
  destruct (write_succeeds env (S (calls w1))) eqn:Ew.
  - eexists. split; [reflexivity|].
    destruct (existsb _ _);
    cbn [negb calls with_calls with_rag with_ds_documents with_doc_files
       vertex_rag_service ds_documents doc_files documents
       chunks_by_document doc_id completed];
    rewrite ?Hdocs, ?Hchunks, ?Hds; auto.
  - eexists. split; [reflexivity|].
    cbn [negb calls with_calls with_rag with_ds_documents with_doc_files
       vertex_rag_service ds_documents doc_files documents
       chunks_by_document doc_id completed];
    rewrite ?Hdocs, ?Hchunks, ?Hds; auto.
Qed.

(** [delete_document] does not touch the corpus. *)
Lemma delete_document_leaves_rag id w r w' :
  delete_document env id w = (r, w') ->
  vertex_rag_service w' = vertex_rag_service w.
Proof.
  unfold delete_document, remove_document_file. run_monad.
  destruct (ODict.mem (ds_documents w) id); run_monad;
    destruct (existsb (PyStr.eqb id) (doc_files w)); run_monad;
    try destruct (remove_succeeds env (calls w)); run_monad;
    intros [= <- <-]; reflexivity.
Qed.

Lemma delete_document_ds id w r w' :
  delete_document env id w = (r, w') ->
  ds_documents w'
  = if ODict.mem (ds_documents w) id then ODict.del (ds_documents w) id
    else ds_documents w.
Proof.
  unfold delete_document, remove_document_file. run_monad.
  destruct (ODict.mem (ds_documents w) id); run_monad;
    destruct (existsb (PyStr.eqb id) (doc_files w)); run_monad;
    try destruct (remove_succeeds env (calls w)); run_monad;
    intros [= <- <-]; reflexivity.
Qed.

(** After a deletion, [get_document] does not find the document. *)
Lemma get_document_after_delete id w r w' :
  ODict.wf (ds_documents w) ->
  delete_document env id w = (r, w') ->
  get_document id w' = (Ok None, w').
Proof.
  intros Hwf Hd. apply delete_document_ds in Hd.
  unfold get_document, bind, get_world, ret. rewrite Hd.
  unfold ODict.mem. destruct (ODict.get (ds_documents w) id) eqn:E.
  - now rewrite ODictFacts.get_del_same.
  - now rewrite E.
Qed.

(** What a sort and a slice return are elements of the list. *)
Lemma insert_desc_In {A K} (key : A -> K) lt x y l :
  In y (insert_desc key lt x l) -> y = x \/ In y l.
Proof.
  induction l as [|z l IH]; simpl; [intuition|].
  destruct (lt (key x) (key z)); simpl; intuition.
Qed.

Lemma sort_desc_In {A K} (key : A -> K) lt y l :
  In y (sort_desc key lt l) -> In y l.
Proof.
  induction l as [|x l IH]; simpl; [tauto|].
  intros H. apply insert_desc_In in H. intuition.
Qed.

Lemma slice_In {A} (y : A) l start stop : In y (slice l start stop) -> In y l.
Proof.
  unfold slice. intros H. apply firstn_In in H.
  rewrite <- (firstn_skipn (slice_bound (List.length l) start) l).
  apply in_or_app. now right.
Qed.

Lemma values_del_ids (d : ODict.odict Document) id doc :
  ODict.wf d -> well_keyed d ->
  In doc (ODict.values (ODict.del d id)) -> doc_id doc <> id.
Proof.
  intros Hwf Hk Hin Heq. unfold ODict.values in Hin.
  apply in_map_iff in Hin. destruct Hin as ([k v] & <- & Hin). simpl in Heq.
  pose proof (@well_keyed_del d id Hk) as Hk'.
  unfold well_keyed in Hk'. rewrite Forall_forall in Hk'.
  pose proof (Hk' _ Hin) as Hkv. simpl in Hkv.
  apply (@ODictFacts.in_get _ _ k v (@ODictFacts.wf_del _ d id Hwf)) in Hin.
  assert (Hid : k = id) by congruence. rewrite Hid in Hin.
  rewrite ODictFacts.get_del_same in Hin by exact Hwf. discriminate.
Qed.

(** After a deletion, [list_documents] does not list the document. *)
Lemma list_documents_after_delete id w r w' skip limit :
  World_ok w ->
  delete_document env id w = (r, w') ->
  exists docs,
    list_documents skip limit w' = (Ok docs, w')
    /\ Forall (fun doc => doc_id doc <> id) docs.
Proof.
  intros [_ _ Hwf _ Hk] Hd. apply delete_document_ds in Hd.
  unfold list_documents, bind, get_world, ret. eexists.
  split; [reflexivity|]. apply Forall_forall. intros doc Hin.
  apply slice_In, sort_desc_In in Hin. rewrite Hd in Hin.
  unfold ODict.mem in Hin.
  destruct (ODict.get (ds_documents w) id) eqn:E.
  - eapply values_del_ids; eauto.
  - intros Heq. unfold ODict.values in Hin. apply in_map_iff in Hin.
    destruct Hin as ([k v] & <- & Hin). simpl in Heq.
    unfold well_keyed in Hk. rewrite Forall_forall in Hk.
    pose proof (Hk _ Hin) as Hkv. simpl in Hkv.
    apply (@ODictFacts.in_get _ _ k v Hwf) in Hin.
    assert (Hid : k = id) by congruence. rewrite Hid in Hin. congruence.
Qed.

End DocumentServiceFacts.

(** * More properties of the segmenter *)

(** ** [str] and [int] on integers *)

Lemma digit_of_mod n : is_digit (48 + n mod 10)%N = true.
Proof.
  unfold is_digit. pose proof (N.mod_lt n 10 ltac:(discriminate)) as H.
  set (m := (n mod 10)%N) in *. clearbody m.
  apply andb_true_intro. split; apply N.leb_le; lia.
Qed.

Lemma digits_of_pos_head fuel : forall n acc,
  exists c rest,
    digits_of_pos (S fuel) n acc = c :: rest /\ is_digit c = true.
Proof.
  induction fuel as [|fuel IH]; intros n acc.
  - exists (48 + n mod 10)%N, acc. split.
    + simpl. now destruct (n <? 10)%N.
    + apply digit_of_mod.
  - change (digits_of_pos (S (S fuel)) n acc)
      with (if (n <? 10)%N then (48 + n mod 10)%N :: acc
            else digits_of_pos (S fuel) (n / 10)%N ((48 + n mod 10)%N :: acc)).
    destruct (n <? 10)%N.
    + exists (48 + n mod 10)%N, acc. split; [reflexivity|].
      apply digit_of_mod.
    + apply IH.
Qed.

Lemma ascii_digits_digit n acc a :
  (n < 10)%N ->
  ascii_digits ((48 + n)%N :: acc) a = ascii_digits acc (10 * a + Z.of_N n)%Z.
Proof.
  intros H. cbn [ascii_digits].
  assert (E : ((48 <=? 48 + n) && (48 + n <=? 57))%N = true)
    by (apply andb_true_intro; split; apply N.leb_le; lia).
  rewrite E. replace (48 + n - 48)%N with n by lia. reflexivity.
Qed.

Lemma digits_of_pos_value fuel : forall n acc,
  (0 < n < 10 ^ N.of_nat fuel)%N ->
  exists k, (0 <= k)%Z /\ forall a,
    ascii_digits (digits_of_pos fuel n acc) a
    = ascii_digits acc (a * 10 ^ k + Z.of_N n)%Z.
Proof.
  induction fuel as [|fuel IH]; intros n acc Hn.
  - simpl in Hn. lia.
  - change (digits_of_pos (S fuel) n acc)
      with (if (n <? 10)%N then (48 + n mod 10)%N :: acc
            else digits_of_pos fuel (n / 10)%N ((48 + n mod 10)%N :: acc)).
    pose proof (N.mod_lt n 10 ltac:(discriminate)) as Hm.
    pose proof (N.div_mod n 10 ltac:(discriminate)) as Hd.
    destruct (n <? 10)%N eqn:E.
    + apply N.ltb_lt in E. exists 1%Z. split; [lia|]. intros a.
      rewrite ascii_digits_digit by exact Hm.
      rewrite N.mod_small by exact E. f_equal. lia.
    + apply N.ltb_ge in E.
      assert (Hq : (0 < n / 10 < 10 ^ N.of_nat fuel)%N).
      { split.
        - apply N.div_str_pos. lia.
        - apply N.Div0.div_lt_upper_bound.
          replace (N.of_nat (S fuel)) with (N.succ (N.of_nat fuel)) in Hn
            by lia.
          rewrite N.pow_succ_r' in Hn. lia. }
      destruct (IH (n / 10)%N ((48 + n mod 10)%N :: acc) Hq) as (k & Hk & H).
      exists (k + 1)%Z. split; [lia|]. intros a. rewrite H.
      rewrite ascii_digits_digit by exact Hm. f_equal.
      rewrite Z.pow_add_r by lia.
      assert (Z.of_N n = 10 * Z.of_N (n / 10) + Z.of_N (n mod 10))%Z by lia.
      lia.
Qed.

Lemma pos_below_pow10 p :
  (0 < N.pos p < 10 ^ N.of_nat (S (Pos.to_nat (Pos.size p))))%N.
Proof.
  split; [lia|].
  pose proof (Pos.size_gt p) as H.
  assert (H2 : (N.pos p < 2 ^ N.pos (Pos.size p))%N).
  { change (N.pos p < N.pos (2 ^ Pos.size p))%N. lia. }
  eapply N.lt_le_trans; [exact H2|].
  replace (N.of_nat (S (Pos.to_nat (Pos.size p))))
    with (N.succ (N.pos (Pos.size p))) by lia.
  rewrite N.pow_succ_r'.
  assert (2 ^ N.pos (Pos.size p) <= 10 ^ N.pos (Pos.size p))%N
    by (apply N.pow_le_mono_l; lia).
  assert (0 < 10 ^ N.pos (Pos.size p))%N by (apply N.neq_0_lt_0, N.pow_nonzero; lia).
  lia.
Qed.

Lemma ascii_digits_str_of_pos p :
  ascii_digits
    (digits_of_pos (S (Pos.to_nat (Pos.size p))) (N.pos p) []) 0%Z
  = Some (Z.pos p).
Proof.
  destruct (@digits_of_pos_value (S (Pos.to_nat (Pos.size p))) (N.pos p) []
              (pos_below_pow10 p)) as (k & _ & H).
  rewrite H. simpl. reflexivity.
Qed.

(** [int(str(n)) == n], for the reading of integer literals in ASCII. *)
Lemma ascii_int_str_of_int z : ascii_int (str_of_int z) = Some z.
Proof.
  destruct z as [|p|p]; [reflexivity| |].
  - unfold str_of_int.
    destruct (digits_of_pos_head (Pos.to_nat (Pos.size p)) (N.pos p) [])
      as (c & rest & E & Hc).
    pose proof (ascii_digits_str_of_pos p) as H. rewrite E in H |- *.
    unfold is_digit in Hc. apply andb_prop in Hc. destruct Hc as [H1 H2].
    apply N.leb_le in H1, H2.
    unfold ascii_int.
    destruct c as [|c]; [lia|].
    destruct (Pos.eq_dec c 45) as [->|]; [lia|].
    destruct (Pos.eq_dec c 43) as [->|]; [lia|].
    do 6 (destruct c as [c|c|]; try exact H; try lia).
  - unfold str_of_int.
    destruct (digits_of_pos_head (Pos.to_nat (Pos.size p)) (N.pos p) [])
      as (c & rest & E & Hc).
    pose proof (ascii_digits_str_of_pos p) as H. rewrite E in H |- *.
    unfold ascii_int. rewrite H. reflexivity.
Qed.

Lemma str_of_int_inj a b : str_of_int a = str_of_int b -> a = b.
Proof.
  intros H. pose proof (ascii_int_str_of_int a) as Ha.
  rewrite H, ascii_int_str_of_int in Ha. congruence.
Qed.

(** ** What every chunk of a segmentation carries *)

Section SegmenterMore.

Variable py_int : pystr -> option Z.

Lemma build_chunks_Forall (P : DocumentChunk -> Prop) filename page :
  (forall cur idx, P (make_chunk filename cur page idx)) ->
  forall rest chunks cur idx,
    Forall P chunks ->
    Forall P (fst (fst (build_chunks filename page rest chunks cur idx))).
Proof.
  intros HP. induction rest as [|s rest IH]; intros chunks cur idx Hc.
  - exact Hc.
  - cbn [build_chunks].
    destruct (negb (truthy (strip s))); [now apply IH|].
    destruct (max_chunk_chars <? len cur + len (strip s))%Z; [|now apply IH].
    destruct (truthy cur); [|now apply IH].
    apply IH. apply Forall_app. split; [exact Hc|].
    constructor; [apply HP | constructor].
Qed.

Lemma chunk_document_Forall (P : DocumentChunk -> Prop) text filename :
  (forall cur idx, P (make_chunk filename cur (final_page py_int text) idx)) ->
  Forall P (chunk_document py_int text filename).
Proof.
  intros HP. unfold chunk_document, final_page in *.
  destruct (sentences_and_page py_int text) as [sentences page].
  cbn [snd] in HP.
  pose proof (@build_chunks_Forall P filename page HP sentences [] [] 0%Z
                (Forall_nil _)) as H.
  destruct (build_chunks filename page sentences [] [] 0%Z)
    as [[chunks cur] idx].
  cbn [fst] in H.
  destruct (truthy (strip cur)); [|exact H].
  apply Forall_app. split; [exact H|]. constructor; [apply HP | constructor].
Qed.

(** Every chunk is given the page that is in force at the end of the
    text, none an embedding. *)
Lemma chunk_document_pages text filename :
  Forall (fun c => page_number c = Some (final_page py_int text)
                   /\ embedding c = None)
         (chunk_document py_int text filename).
Proof. apply chunk_document_Forall. intros cur idx. now split. Qed.

Lemma chunk_document_id_of_index text filename :
  Forall (fun c => exists i, chunk_index c = Some i
                     /\ chunk_id c = filename ++ lit "_chunk_" ++ str_of_int i)
         (chunk_document py_int text filename).
Proof.
  apply chunk_document_Forall. intros cur idx. exists idx. now split.
Qed.

Lemma ids_of_sequential filename : forall chunks (k : nat),
  Forall (fun c => exists i, chunk_index c = Some i
                     /\ chunk_id c = filename ++ lit "_chunk_" ++ str_of_int i)
         chunks ->
  map chunk_index chunks
  = map (fun i => Some (Z.of_nat i)) (seq k (List.length chunks)) ->
  map chunk_id chunks = map (chunk_id_at filename) (seq k (List.length chunks)).
Proof.
  induction chunks as [|c chunks IH]; intros k HF Hs; [reflexivity|].
  inversion HF as [|? ? (i & Hi & Hid) HF']; subst.
  cbn [List.length seq map] in *. injection Hs as H1 H2.
  f_equal.
  - rewrite Hid. unfold chunk_id_at. rewrite Hi in H1. now injection H1 as ->.
  - now apply IH.
Qed.

Lemma chunk_document_ids text filename :
  map chunk_id (chunk_document py_int text filename)
  = map (chunk_id_at filename)
        (seq 0 (List.length (chunk_document py_int text filename))).
Proof.
  apply ids_of_sequential.
  - apply chunk_document_id_of_index.
  - apply chunk_document_sequential.
Qed.

Lemma chunk_id_at_inj filename i j :
  chunk_id_at filename i = chunk_id_at filename j -> i = j.
Proof.
  unfold chunk_id_at. intros H. apply app_inv_head in H.
  apply app_inv_head in H. apply str_of_int_inj in H. lia.
Qed.

Lemma NoDup_map_inj {A B} (f : A -> B) l :
  (forall x y, f x = f y -> x = y) -> NoDup l -> NoDup (map f l).
Proof.
  intros Hf. induction 1 as [|x l Hx Hl IH]; simpl; constructor.
  - rewrite in_map_iff. intros (y & Hy & Hin). apply Hf in Hy. now subst.
  - exact IH.
Qed.

Lemma chunk_document_ids_distinct text filename :
  NoDup (map chunk_id (chunk_document py_int text filename)).
Proof.
  rewrite chunk_document_ids. apply NoDup_map_inj.
  - apply chunk_id_at_inj.
  - apply seq_NoDup.
Qed.

(** The content of a chunk is never empty and neither starts nor ends
    with white space. *)
Lemma chunk_document_contents_clean text filename :
  Forall (fun c => clean (chunk_content c))
         (chunk_document py_int text filename).
Proof.
  destruct (chunk_document_groups py_int text filename)
    as (groups & _ & Hmap & Hok).
  revert groups Hmap Hok.
  induction (chunk_document py_int text filename) as [|c chunks IH];
    intros groups Hmap Hok; [constructor|].
  destruct groups as [|g groups]; [discriminate|].
  cbn [map] in Hmap. injection Hmap as Hc Hmap.
  inversion Hok as [|? ? (Hne & Hcl & _) Hok']; subst.
  constructor.
  - rewrite Hc. now apply join_clean.
  - now apply (IH groups).
Qed.

(** ** A text of white space only *)

Lemma lstrip_blank s : blank s -> lstrip s = [].
Proof.
  induction 1 as [|c s Hc _ IH]; [reflexivity|]. simpl. now rewrite Hc.
Qed.

Lemma strip_blank s : blank s -> strip s = [].
Proof. intros H. unfold strip. now rewrite lstrip_blank. Qed.

Lemma split_on_blank sep s : blank s -> Forall blank (split_on sep s).
Proof.
  induction 1 as [|c s Hc Hs IH]; [repeat constructor|].
  cbn [split_on]. destruct (char_eqb c sep).
  - constructor; [constructor | exact IH].
  - destruct (split_on sep s) as [|w ws]; [repeat constructor; exact Hc|].
    inversion IH; subst. constructor; [now constructor | assumption].
Qed.

Lemma space_no_sentence_end c : isspace c = true -> is_sentence_end c = false.
Proof.
  intros H. unfold is_sentence_end, char_eqb.
  destruct (N.eqb_spec c 46) as [->|_]; [discriminate|].
  destruct (N.eqb_spec c 33) as [->|_]; [discriminate|].
  destruct (N.eqb_spec c 63) as [->|_]; [discriminate|].
  reflexivity.
Qed.

Lemma split_line_blank line : forall acc cur,
  blank line -> split_line line acc cur = (acc, cur ++ line).
Proof.
  induction line as [|c line IH]; intros acc cur H.
  - now rewrite app_nil_r.
  - inversion H as [|? ? Hc Hl]; subst. cbn [split_line].
    rewrite (space_no_sentence_end _ Hc), IH by exact Hl.
    now rewrite <- app_assoc.
Qed.

Lemma sentences_of_line_blank line : blank line -> sentences_of_line line = [].
Proof.
  intros H. unfold sentences_of_line. rewrite split_line_blank by exact H.
  cbn [app]. now rewrite strip_blank.
Qed.

Lemma blank_no_marker line : blank line -> is_marker line = false.
Proof.
  intros H. unfold is_marker. destruct H as [|c line Hc _]; [reflexivity|].
  change (lit "--- Page") with (45%N :: lit "-- Page").
  cbn [startswith]. unfold char_eqb.
  destruct (N.eqb_spec c 45) as [->|_]; [discriminate | reflexivity].
Qed.

Lemma scan_lines_blank lines : forall sentences page,
  Forall blank lines ->
  scan_lines py_int lines sentences page = (sentences, page).
Proof.
  induction lines as [|line lines IH]; intros sentences page H;
    [reflexivity|].
  inversion H as [|? ? Hl Hr]; subst. cbn [scan_lines].
  pose proof (blank_no_marker Hl) as Hm. unfold is_marker in Hm.
  rewrite Hm, sentences_of_line_blank by exact Hl.
  rewrite app_nil_r. now apply IH.
Qed.

Lemma chunk_document_blank text filename :
  blank text -> chunk_document py_int text filename = [].
Proof.
  intros H. unfold chunk_document, sentences_and_page.
  rewrite scan_lines_blank by (now apply split_on_blank). reflexivity.
Qed.

End SegmenterMore.

(** * More properties of the document service *)

(** ** The validation loop of [process_document] *)

Lemma valid_chunks_filter chunk_data :
  valid_chunks chunk_data
  = map validated (filter (fun c => negb (too_short c)) chunk_data).
Proof.
  induction chunk_data as [|c l IH]; [reflexivity|]. cbn [valid_chunks filter].
  destruct (too_short c); cbn [negb map]; now rewrite IH.
Qed.

Lemma validated_page chunk :
  exists p, page_number (validated chunk) = Some p /\ (1 <= p)%Z.
Proof.
  unfold validated. cbn [page_number].
  destruct (page_number chunk) as [p|]; [|exists 1%Z; split; [reflexivity|lia]].
  destruct (p <? 1)%Z eqn:E.
  - exists 1%Z. split; [reflexivity|lia].
  - exists p. split; [reflexivity|]. apply Z.ltb_ge in E. lia.
Qed.

Lemma validated_metadata chunk : metadata (validated chunk) <> None.
Proof.
  unfold validated. cbn [metadata].
  destruct (metadata chunk) as [[|]|]; discriminate.
Qed.

Lemma too_short_false chunk :
  too_short chunk = false -> (10 <= len (strip (chunk_content chunk)))%Z.
Proof.
  unfold too_short. intros H. apply orb_false_elim in H. destruct H as [_ H].
  apply Z.ltb_ge in H. exact H.
Qed.

Lemma valid_chunks_spec chunk_data :
  Forall (fun c => (10 <= len (strip (chunk_content c)))%Z
                   /\ (exists p, page_number c = Some p /\ (1 <= p)%Z)
                   /\ metadata c <> None
                   /\ validated_from chunk_data c)
         (valid_chunks chunk_data).
Proof.
  rewrite valid_chunks_filter. apply Forall_forall. intros c' Hin.
  apply in_map_iff in Hin. destruct Hin as (c & <- & Hin).
  apply filter_In in Hin. destruct Hin as [Hin Hs].
  apply negb_true_iff in Hs.
  split; [now apply too_short_false|].
  split; [apply validated_page|]. split; [apply validated_metadata|].
  exists c. now repeat split.
Qed.

Lemma valid_chunks_length chunk_data :
  (List.length (valid_chunks chunk_data) <= List.length chunk_data)%nat.
Proof.
  rewrite valid_chunks_filter, length_map. apply filter_length_le.
Qed.

(** ** [process_document]: the four ways a run ends *)

Section ProcessDocumentMore.

Variable env : Env.

Lemma process_document_invalid file_path filename w :
  is_valid (validate_file env (calls w) file_path filename) = false ->
  process_document env file_path filename w
  = (Raise (Exn FileValidationError
              (lit "File validation failed: "
                 ++ join (lit ", ")
                      (errors (validate_file env (calls w) file_path
                                 filename)))),
     with_calls w (S (calls w))).
Proof.
  intros Hv. unfold process_document. run_monad. rewrite Hv. reflexivity.
Qed.

Lemma process_document_extraction_failure file_path filename w e :
  is_valid (validate_file env (calls w) file_path filename) = true ->
  extract_text env (S (calls w)) (doc_type_of env filename) file_path
    = Raise e ->
  process_document env file_path filename w
  = (Raise (reraised e), with_calls w (2 + calls w)).
Proof.
  intros Hv He. unfold process_document. run_monad. rewrite Hv.
  cbn [negb]. run_monad. rewrite He. unfold reraised.
  destruct (exn_kind e); reflexivity.
Qed.

Lemma process_document_ends file_path filename w :
  process_document_end env file_path filename w
    (process_document env file_path filename w).
Proof.
  destruct (is_valid (validate_file env (calls w) file_path filename))
    eqn:Hv.
  2:{ rewrite process_document_invalid by exact Hv. now constructor. }
  destruct (extract_text env (S (calls w)) (doc_type_of env filename)
              file_path) as [text|e] eqn:He.
  2:{ rewrite (process_document_extraction_failure _ _ _ Hv He).
      now constructor. }
  destruct (valid_chunks (chunk_document (builtin_int env) text filename))
    as [|c cs] eqn:Hc.
  - rewrite (process_document_no_valid_chunks env _ _ _ Hv He Hc).
    now apply EndNoChunks with (text := text).
  - assert (Hne : valid_chunks (chunk_document (builtin_int env) text filename)
                  <> []) by (rewrite Hc; discriminate).
    destruct (process_document_stores env _ _ _ Hv He Hne)
      as (stored & now & w' & E & H1 & H2 & H3 & H4).
    rewrite E. eapply EndStored; eauto.
Qed.

(** Whatever [process_document] raises is a [DocumentProcessingError] or a
    [FileValidationError]. *)
Lemma reraised_kind e :
  exn_kind (reraised e) = DocumentProcessingError
  \/ exn_kind (reraised e) = FileValidationError.
Proof. unfold reraised. destruct (exn_kind e) eqn:E; simpl; auto. Qed.

Lemma process_document_raises file_path filename w e w' :
  process_document env file_path filename w = (Raise e, w') ->
  (exn_kind e = DocumentProcessingError \/ exn_kind e = FileValidationError)
  /\ same_stores w w'.
Proof.
  intros E. pose proof (process_document_ends file_path filename w) as H.
  rewrite E in H. inversion H; subst; (split; [|now repeat split]).
  - now right.
  - apply reraised_kind.
  - now left.
Qed.

Lemma completed_id d chunks now : doc_id (completed d chunks now) = doc_id d.
Proof. reflexivity. Qed.

(** A run that returns a document has stored it. *)
Lemma process_document_returns file_path name w d w' :
  process_document env file_path name w = (Ok d, w') ->
  ODict.get (ds_documents w') (doc_id d) = Some d
  /\ ODict.get (documents (vertex_rag_service w')) (doc_id d) = Some d
  /\ (exists stored,
        ODict.get (chunks_by_document (vertex_rag_service w')) (doc_id d)
          = Some stored)
  /\ status d = lit "completed"
  /\ (1 <= chunk_count d)%Z
  /\ processed_at d <> None
  /\ filename d = name.
Proof.
  intros E. pose proof (process_document_ends file_path name w) as H.
  rewrite E in H. inversion H as [| | |text stored now w1 chunks d0 d1 Hv He Hne H1 H2 H3 H4]; subst.
  subst d1. rewrite completed_id.
  rewrite H1, H2, H3. rewrite !ODictFacts.get_set_same.
  repeat split; eauto.
  - cbn [chunk_count completed]. unfold len.
    destruct chunks; [congruence | cbn [List.length]; lia].
  - discriminate.
Qed.

(** The two services keep their dictionaries well formed. *)
Lemma process_document_ok file_path filename w r w' :
  process_document env file_path filename w = (r, w') ->
  World_ok w -> World_ok w'.
Proof.
  intros E Hok. pose proof (process_document_ends file_path filename w) as H.
  rewrite E in H.
  inversion H as [| | |text stored now w1 chunks d0 d1 Hv He Hne H1 H2 H3 H4];
    subst; try (eapply World_ok_same_stores; [|exact Hok]; now repeat split).
  destruct Hok as [K1 K2 K3 K4 K5].
  split; rewrite ?H1, ?H2, ?H3.
  - now repeat apply ODictFacts.wf_set.
  - now apply ODictFacts.wf_set.
  - now apply ODictFacts.wf_set.
  - change (doc_id d0) with (doc_id d1) at 2.
    apply well_keyed_set. now apply well_keyed_set.
  - change (doc_id d0) with (doc_id d1). now apply well_keyed_set.
Qed.

End ProcessDocumentMore.

(** ** [delete_document] *)

Section DeleteDocumentMore.

Variable env : Env.

Lemma existsb_filter_out id files :
  existsb (PyStr.eqb id) (filter (fun f => negb (PyStr.eqb id f)) files)
  = false.
Proof.
  induction files as [|f files IH]; [reflexivity|]. cbn [filter].
  destruct (PyStr.eqb id f) eqn:E; cbn [negb]; [exact IH|].
  cbn [existsb]. now rewrite E, IH.
Qed.

(** The method returns on every id; it returns [False] exactly when the
    file of the document is there and cannot be removed; the entry of the
    dictionary is gone in both cases. *)
Lemma delete_document_returns id w :
  exists b w',
    delete_document env id w = (Ok b, w')
    /\ (b = false
        <-> has_file w id = true /\ remove_succeeds env (calls w) = false)
    /\ (b = true -> has_file w' id = false)
    /\ ODict.mem (ds_documents w') id
       = (if ODict.mem (ds_documents w) id
          then ODict.mem (ODict.del (ds_documents w) id) id else false).
Proof.
  unfold delete_document, remove_document_file, has_file. run_monad.
  destruct (ODict.mem (ds_documents w) id) eqn:Em; run_monad;
    destruct (existsb (PyStr.eqb id) (doc_files w)) eqn:Ef; run_monad;
    try (destruct (remove_succeeds env (calls w)) eqn:Er; run_monad);
    eexists _, _; (split; [reflexivity|]);
    cbn [doc_files ds_documents with_doc_files with_ds_documents with_calls];
    rewrite ?existsb_filter_out, ?Em, ?Ef;
    repeat split; try congruence; try tauto;
    try (intros [? ?]; congruence).
Qed.

(** An id that is not stored and has no file: [True], and nothing
    changes. *)
Lemma delete_document_unknown id w :
  ODict.mem (ds_documents w) id = false ->
  has_file w id = false ->
  delete_document env id w = (Ok true, w).
Proof.
  unfold delete_document, remove_document_file, has_file. run_monad.
  intros -> ->. run_monad. reflexivity.
Qed.

Lemma delete_document_ok id w r w' :
  delete_document env id w = (r, w') -> World_ok w -> World_ok w'.
Proof.
  intros E [K1 K2 K3 K4 K5].
  pose proof (delete_document_leaves_rag env _ _ E) as Hr.
  pose proof (delete_document_ds env _ _ E) as Hd.
  split; rewrite ?Hr, ?Hd; try assumption.
  - destruct (ODict.mem _ _); [now apply ODictFacts.wf_del | assumption].
  - destruct (ODict.mem _ _); [now apply well_keyed_del | assumption].
Qed.

End DeleteDocumentMore.

(** ** [list_documents] and [get_document_count] *)

Lemma StronglySorted_skipn {A} (R : A -> A -> Prop) n : forall l,
  StronglySorted R l -> StronglySorted R (skipn n l).
Proof.
  induction n as [|n IH]; intros l H; [exact H|].
  destruct l as [|x l]; [constructor|]. cbn [skipn]. apply IH.
  now inversion H.
Qed.

Lemma slice_nonneg {A} (l : list A) start stop :
  (0 <= start)%Z -> (start <= stop)%Z ->
  slice l start stop
  = firstn (Z.to_nat stop - Z.to_nat start) (skipn (Z.to_nat start) l).
Proof.
  intros H1 H2. unfold slice, slice_bound.
  destruct (Z.ltb_spec start 0); [lia|]. destruct (Z.ltb_spec stop 0); [lia|].
  set (n := List.length l). set (a := Z.to_nat start). set (b := Z.to_nat stop).
  assert (Hab : (a <= b)%nat) by (unfold a, b; lia).
  destruct (Nat.le_gt_cases n a) as [Hn|Hn].
  - rewrite (Nat.min_r a n) by lia.
    rewrite !skipn_all2 by (fold n; lia). now rewrite !firstn_nil.
  - rewrite (Nat.min_l a n) by lia.
    destruct (Nat.le_gt_cases b n) as [Hb|Hb].
    + now rewrite (Nat.min_l b n) by lia.
    + rewrite (Nat.min_r b n) by lia.
      rewrite !firstn_all2; try reflexivity;
        rewrite length_skipn; fold n; lia.
Qed.

Lemma firstn_add {A} a b : forall t : list A,
  firstn a t ++ firstn b (skipn a t) = firstn (a + b) t.
Proof.
  induction a as [|a IH]; intros t; [reflexivity|].
  destruct t as [|x t]; cbn [firstn skipn Nat.add app].
  - now rewrite firstn_nil.
  - now rewrite IH.
Qed.

Lemma sort_desc_In_iff {A K} (key : A -> K) lt y l :
  In y (sort_desc key lt l) <-> In y l.
Proof.
  split; [apply sort_desc_In|].
  induction l as [|x l IH]; [tauto|]. cbn [sort_desc].
  assert (Hins : forall z m, In y (insert_desc key lt z m) <-> y = z \/ In y m).
  { intros z m. induction m as [|u m IHm]; simpl; [intuition|].
    destruct (lt (key z) (key u)); simpl; intuition. }
  intros [->|H]; apply Hins; [now left | right; now apply IH].
Qed.

Section ListDocumentsMore.

Lemma list_documents_returns skip limit w :
  list_documents skip limit w
  = (Ok (slice (sort_desc uploaded_at Z.ltb (ODict.values (ds_documents w)))
           skip (skip + limit)), w).
Proof. reflexivity. Qed.

Lemma sorted_newest_first docs :
  StronglySorted newest_first (sort_desc uploaded_at Z.ltb docs).
Proof.
  apply (@sort_desc_sorted Document Z uploaded_at Z.ltb Z.le (fun _ => True)).
  - intros a b H. apply Z.ltb_lt in H. lia.
  - intros a b c. apply Z.le_trans.
  - intros a b _ _ H. apply Z.ltb_ge in H. exact H.
  - apply Forall_forall. intros; exact I.
Qed.

(** A page: at most [limit] documents, newest upload first, each of them
    stored under its id. *)
Lemma list_documents_page skip limit w docs w' :
  (0 <= skip)%Z -> (0 <= limit)%Z ->
  list_documents skip limit w = (Ok docs, w') ->
  w' = w
  /\ (len docs <= limit)%Z
  /\ StronglySorted newest_first docs
  /\ Forall (fun d => In d (ODict.values (ds_documents w))) docs.
Proof.
  intros Hs Hl. rewrite list_documents_returns. intros [= <- <-].
  split; [reflexivity|]. rewrite slice_nonneg by lia.
  split; [|split].
  - unfold len. rewrite length_firstn. lia.
  - apply StronglySorted_firstn, StronglySorted_skipn, sorted_newest_first.
  - apply Forall_forall. intros d Hin. apply firstn_In in Hin.
    assert (Hin' : In d (sort_desc uploaded_at Z.ltb
                           (ODict.values (ds_documents w)))).
    { rewrite <- (firstn_skipn (Z.to_nat skip)). apply in_or_app. now right. }
    now apply sort_desc_In in Hin'.
Qed.

(** Consecutive pages make up the longer page. *)
Lemma list_documents_pages skip k m w :
  (0 <= skip)%Z -> (0 <= k)%Z -> (0 <= m)%Z ->
  exists p1 p2,
    list_documents skip k w = (Ok p1, w)
    /\ list_documents (skip + k) m w = (Ok p2, w)
    /\ list_documents skip (k + m) w = (Ok (p1 ++ p2), w).
Proof.
  intros Hs Hk Hm. rewrite !list_documents_returns.
  eexists _, _. split; [reflexivity|]. split; [reflexivity|].
  f_equal. f_equal. rewrite !slice_nonneg by lia.
  set (l := sort_desc uploaded_at Z.ltb (ODict.values (ds_documents w))).
  replace (Z.to_nat (skip + k) - Z.to_nat skip)%nat with (Z.to_nat k) by lia.
  replace (Z.to_nat (skip + k + m) - Z.to_nat (skip + k))%nat
    with (Z.to_nat m) by lia.
  replace (Z.to_nat (skip + (k + m)) - Z.to_nat skip)%nat
    with (Z.to_nat k + Z.to_nat m)%nat by lia.
  replace (Z.to_nat (skip + k)) with (Z.to_nat k + Z.to_nat skip)%nat by lia.
  rewrite <- skipn_skipn.
  symmetry. apply firstn_add.
Qed.

End ListDocumentsMore.

(** With a limit that reaches the count, the page from 0 holds every
    stored document. *)
Lemma list_documents_all limit w :
  (len (ds_documents w) <= limit)%Z ->
  exists docs,
    list_documents 0 limit w = (Ok docs, w)
    /\ get_document_count w = (Ok (len docs), w)
    /\ forall id d, ODict.get (ds_documents w) id = Some d -> In d docs.
Proof.
  intros H. rewrite list_documents_returns. eexists. split; [reflexivity|].
  unfold len in H. rewrite slice_nonneg by lia.
  cbn [skipn Z.to_nat]. rewrite Nat.sub_0_r.
  rewrite firstn_all2
    by (rewrite sort_desc_length; unfold ODict.values;
        rewrite length_map; lia).
  split.
  - unfold get_document_count, bind, get_world, ret, len.
    rewrite sort_desc_length. unfold ODict.values. now rewrite length_map.
  - intros id d Hg. apply sort_desc_In_iff. unfold ODict.values.
    apply in_map_iff. exists (id, d). split; [reflexivity|].
    now apply ODictFacts.get_in.
Qed.

(** The sample worlds are well formed. *)
Lemma process_document_snd_ok env file_path filename w :
  World_ok w -> World_ok (snd (process_document env file_path filename w)).
Proof.
  intros H. eapply process_document_ok; [apply surjective_pairing | exact H].
Qed.

Lemma sample_world1_ok : World_ok Sample.world1.
Proof. apply process_document_snd_ok, initial_world_ok. Qed.

Lemma sample_world2_ok : World_ok Sample.world2.
Proof. apply process_document_snd_ok, sample_world1_ok. Qed.

(** * More properties of the retrieval service *)

Section EmbeddingMore.

Variable env : Env.

(** ** [generate_embedding]: three attempts *)

Lemma generate_embedding_attempt_run text w :
  generate_embedding_attempt env text w
  = (match attempt_outcome env (calls w) text with
     | Ok v => Ok v
     | Raise e =>
         Raise (Exn SearchError
                  (lit "Failed to generate embedding: " ++ str_of_exn e))
     end, with_calls w (S (calls w))).
Proof.
  unfold generate_embedding_attempt, attempt_outcome. run_monad.
  destruct (client_embed_content env (calls w) text) as [response|e];
    [|reflexivity].
  destruct (decode_embedding response); reflexivity.
Qed.

Lemma generate_embedding_runs text w :
  generate_embedding env text w
  = match attempt_outcome env (calls w) text with
    | Ok v => (Ok v, with_calls w (1 + calls w))
    | Raise _ =>
      match attempt_outcome env (1 + calls w) text with
      | Ok v => (Ok v, with_calls w (2 + calls w))
      | Raise _ =>
        match attempt_outcome env (2 + calls w) text with
        | Ok v => (Ok v, with_calls w (3 + calls w))
        | Raise e =>
            (Raise (Exn RetryError
                      (retry_error_message env (3 + calls w)
                         (Exn SearchError
                            (lit "Failed to generate embedding: "
                               ++ str_of_exn e)))),
             with_calls w (4 + calls w))
        end
      end
    end.
Proof.
  unfold generate_embedding. cbn [retrying Nat.add]. unfold try_except at 1.
  rewrite generate_embedding_attempt_run.
  destruct (attempt_outcome env (calls w) text); [reflexivity|].
  unfold try_except at 1. rewrite generate_embedding_attempt_run.
  cbn [calls with_calls].
  destruct (attempt_outcome env (S (calls w)) text); [reflexivity|].
  unfold try_except at 1. rewrite generate_embedding_attempt_run.
  cbn [calls with_calls].
  destruct (attempt_outcome env (S (S (calls w))) text); reflexivity.
Qed.

(** The method returns what the first attempt, of at most three, that
    does not raise returns. *)
Lemma generate_embedding_returns text w v w' :
  generate_embedding env text w = (Ok v, w') ->
  exists k,
    (k < 3)%nat
    /\ attempt_outcome env (k + calls w) text = Ok v
    /\ (forall j, (j < k)%nat -> attempt_fails env (j + calls w) text)
    /\ w' = with_calls w (S k + calls w).
Proof.
  rewrite generate_embedding_runs.
  destruct (attempt_outcome env (calls w) text) as [v0|e0] eqn:E0.
  { intros [= <- <-]. exists 0%nat. repeat split; [lia | exact E0 | lia]. }
  destruct (attempt_outcome env (1 + calls w) text) as [v1|e1] eqn:E1.
  { intros [= <- <-]. exists 1%nat. repeat split; [lia | exact E1 |].
    intros j Hj. assert (j = 0)%nat as -> by lia. now exists e0. }
  destruct (attempt_outcome env (2 + calls w) text) as [v2|e2] eqn:E2.
  { intros [= <- <-]. exists 2%nat. repeat split; [lia | exact E2 |].
    intros j Hj. destruct j as [|[|j]]; [now exists e0 | now exists e1 | lia]. }
  discriminate.
Qed.

(** It raises after three failed attempts, and what it raises is the
    [RetryError] of the retry wrapper. *)
Lemma generate_embedding_raises text w e w' :
  generate_embedding env text w = (Raise e, w') ->
  exn_kind e = RetryError
  /\ (forall j, (j < 3)%nat -> attempt_fails env (j + calls w) text)
  /\ w' = with_calls w (4 + calls w).
Proof.
  rewrite generate_embedding_runs.
  destruct (attempt_outcome env (calls w) text) as [v0|e0] eqn:E0;
    [discriminate|].
  destruct (attempt_outcome env (1 + calls w) text) as [v1|e1] eqn:E1;
    [discriminate|].
  destruct (attempt_outcome env (2 + calls w) text) as [v2|e2] eqn:E2;
    [discriminate|].
  intros [= <- <-]. repeat split.
  intros j Hj.
  destruct j as [|[|[|j]]];
    [now exists e0 | now exists e1 | now exists e2 | lia].
Qed.

(** ** [add_document_to_corpus]: the metadata of a stored chunk *)

Lemma update_cons {V} (d : ODict.odict V) k v e :
  ODict.update d ((k, v) :: e) = ODict.update (ODict.set d k v) e.
Proof. reflexivity. Qed.

Lemma get_update_other {V} (e : ODict.odict V) : forall d k,
  ~ In k (ODict.keys e) -> ODict.get (ODict.update d e) k = ODict.get d k.
Proof.
  induction e as [|[k' v'] e IH]; intros d k Hk; [reflexivity|].
  rewrite update_cons, IH.
  - apply ODictFacts.get_set_other. intros ->. apply Hk. now left.
  - intros H. apply Hk. now right.
Qed.

Lemma embedding_dimension (emb : option (list F64.float)) :
  embedding_dimension_of emb
  = match emb with Some v => len v | None => 0%Z end.
Proof. now destruct emb as [[|x v]|]. Qed.

Lemma enrich_metadata_written document chunk emb :
  let m := enrich_metadata env document chunk emb in
  ODict.get m (lit "documentId") = Some (MStr (doc_id document))
  /\ ODict.get m (lit "documentTitle") = Some (MStr (title document))
  /\ ODict.get m (lit "documentType")
     = Some (MStr (DocumentType_value (doc_type document)))
  /\ ODict.get m (lit "uploadDate")
     = Some (MStr (isoformat env (uploaded_at document)))
  /\ ODict.get m (lit "embeddingModel")
     = Some (MStr (embedding_model (settings env)))
  /\ ODict.get m (lit "embeddingDimension")
     = Some (MInt (match emb with Some v => len v | None => 0%Z end)).
Proof.
  intros m. subst m. unfold enrich_metadata.
  rewrite embedding_dimension.
  set (base := match metadata chunk with
               | None | Some [] => []
               | Some m => m
               end).
  rewrite !update_cons. unfold ODict.update. cbn [fold_left].
  repeat split;
    repeat (rewrite ODictFacts.get_set_other
              by (intro H; vm_compute in H; discriminate));
    apply ODictFacts.get_set_same.
Qed.

Lemma enrich_metadata_kept document chunk emb m k :
  metadata chunk = Some m ->
  ~ In k enrichment_keys ->
  ODict.get (enrich_metadata env document chunk emb) k = ODict.get m k.
Proof.
  intros Hm Hk. unfold enrich_metadata. rewrite Hm.
  rewrite get_update_other by exact Hk. now destruct m.
Qed.

(** ** [add_document_to_corpus]: the other entries *)

Lemma enrich_chunks_length d chunks : forall acc w l w',
  enrich_chunks env d chunks acc w = (Ok l, w') ->
  (List.length l <= List.length acc + List.length chunks)%nat.
Proof.
  induction chunks as [|c chunks IH]; intros acc w l w'; cbn [enrich_chunks].
  - unfold ret. intros [= <- <-]. cbn [List.length]. lia.
  - unfold bind at 1. unfold try_except, bind at 1.
    destruct (generate_embedding env (chunk_content c) w) as [[emb|e] w1];
      unfold ret; intros E; apply IH in E; cbn [List.length];
      rewrite ?length_app in E; cbn [List.length] in E; lia.
Qed.

(** The call replaces the entry of the document in both dictionaries of
    the corpus and leaves every other entry, and the document service, as
    they were; it stores no more chunks than it is given. *)
Lemma add_document_to_corpus_frame document chunks w :
  exists stored w',
    add_document_to_corpus env document chunks w = (Ok true, w')
    /\ ODict.get (documents (vertex_rag_service w')) (doc_id document)
       = Some document
    /\ ODict.get (chunks_by_document (vertex_rag_service w'))
         (doc_id document) = Some stored
    /\ (List.length stored <= List.length chunks)%nat
    /\ (forall id, id <> doc_id document ->
          ODict.get (documents (vertex_rag_service w')) id
          = ODict.get (documents (vertex_rag_service w)) id
          /\ ODict.get (chunks_by_document (vertex_rag_service w')) id
             = ODict.get (chunks_by_document (vertex_rag_service w)) id)
    /\ ds_documents w' = ds_documents w
    /\ doc_files w' = doc_files w.
Proof.
  unfold add_document_to_corpus, try_except, bind, set_rag_document,
    set_rag_chunks, modify, ret.
  match goal with
  | |- context [enrich_chunks env document chunks [] ?w0] =>
      destruct (enrich_chunks_spec env document chunks [] w0)
        as (stored & w1 & E & (Hr & Hd & Hf) & _ & _)
  end.
  rewrite E. pose proof (enrich_chunks_length _ _ _ _ E) as Hlen.
  cbn [app List.length Nat.add] in *.
  exists stored. eexists. split; [reflexivity|].
  cbn [with_rag vertex_rag_service documents chunks_by_document
       ds_documents doc_files] in *.
  rewrite Hr, Hd, Hf.
  cbn [with_rag vertex_rag_service documents chunks_by_document
       ds_documents doc_files].
  split; [apply ODictFacts.get_set_same|].
  split; [apply ODictFacts.get_set_same|].
  split; [exact Hlen|].
  split; [|now split].
  intros id Hid. split; now apply ODictFacts.get_set_other.
Qed.

End EmbeddingMore.

(** ** [search_documents] *)

Section SearchMore.

Variable env : Env.

(** A search raises only when the embedding of the query raises or is
    [None], and what it raises is a [SearchError]. *)
Lemma search_documents_raises query limit threshold ids w e w' :
  search_documents env query limit threshold ids w = (Raise e, w') ->
  (exists e0,
      generate_embedding env query w = (Raise e0, w')
      /\ exn_kind e0 = RetryError
      /\ e = Exn SearchError (lit "Search failed: " ++ str_of_exn e0))
  \/ (generate_embedding env query w = (Ok None, w')
      /\ e = Exn SearchError
               (lit "Search failed: "
                  ++ lit "object of type 'NoneType' has no len()")).
Proof.
  intros E.
  destruct (generate_embedding env query w) as [[[q|]|e0] w1] eqn:Eg.
  - destruct (search_documents_returns env query limit threshold ids _ Eg)
      as (rs & Hrs). congruence.
  - rewrite (search_documents_none_embedding env query limit threshold
               ids _ Eg) in E.
    injection E as <- <-. right. split; reflexivity.
  - rewrite (search_documents_embedding_failure env query limit threshold
               ids _ Eg) in E.
    injection E as <- <-. left. exists e0. split; [reflexivity|].
    split; [|reflexivity].
    now destruct (generate_embedding_raises env _ _ Eg).
Qed.

(** An empty list of ids filters nothing. *)
Lemma scan_corpus_no_filter docs q t items : forall results,
  scan_corpus docs q t (Some []) items results
  = scan_corpus docs q t None items results.
Proof.
  induction items as [|[id chunks] items IH]; intros results;
    [reflexivity|].
  cbn [scan_corpus filtered_out].
  destruct (ODict.get docs id); [|apply IH].
  destruct (scan_chunks q t d chunks results); [apply IH | reflexivity].
Qed.

Lemma search_documents_empty_filter query limit threshold w :
  search_documents env query limit threshold (Some []) w
  = search_documents env query limit threshold None w.
Proof.
  unfold search_documents, try_except, bind, get_world, lift, ret.
  destruct (generate_embedding env query w) as [[[q|]|e] w1];
    try reflexivity.
  cbn [len_of_embedding]. now rewrite scan_corpus_no_filter.
Qed.

Lemma filtered_out_false ids id x :
  filtered_out (Some (x :: ids)) id = false -> In id (x :: ids).
Proof.
  unfold filtered_out. intros H. apply negb_false_iff in H.
  apply existsb_exists in H. destruct H as (y & Hin & Heq).
  apply ODictFacts.eqb_eq in Heq. now subst.
Qed.

(** Where every result of a search comes from. *)
Lemma search_documents_provenance query limit threshold ids w rs w' :
  World_ok w ->
  search_documents env query limit threshold ids w = (Ok rs, w') ->
  exists q,
    generate_embedding env query w = (Ok (Some q), w')
    /\ Forall (fun r =>
         let id := doc_id (sr_document r) in
         ODict.get (documents (vertex_rag_service w)) id
           = Some (sr_document r)
         /\ (exists chunks,
               ODict.get (chunks_by_document (vertex_rag_service w)) id
                 = Some chunks
               /\ In (sr_chunk r) chunks)
         /\ (exists v, embedding (sr_chunk r) = Some v
               /\ _cosine_similarity q v = Ok (similarity r))
         /\ relevance_score r = similarity r
         /\ F64.is_nan (similarity r) = false
         /\ (forall x l, ids = Some (x :: l) -> In id (x :: l))) rs.
Proof.
  intros Hok E.
  pose proof (search_documents_stores env _ _ _ _ _ E) as (Hs & _ & _).
  destruct (search_documents_inv env _ _ _ _ _ E)
    as (q & found & Eg & Hfound & ->).
  exists q. split; [exact Eg|].
  apply slice_to_Forall. unfold sort_by_similarity. apply sort_desc_Forall.
  eapply Forall_impl; [|exact Hfound]. rewrite Hs.
  destruct Hok as [_ Hwf _ Hkeys _].
  intros r (id & chunks & Hin & Hfil & Hdoc
            & (Hc & _ & (c & v & Hemb & Hcos) & Hge & Hrel)).
  pose proof (@well_keyed_get _ id _ Hkeys Hdoc) as Hid.
  cbn zeta. rewrite Hid.
  split; [exact Hdoc|]. split.
  { exists chunks. split; [|exact Hc].
    now apply (@ODictFacts.in_get _ _ id chunks Hwf). }
  split; [now exists (c :: v)|]. split; [exact Hrel|]. split.
  { now destruct (@F64Facts.le_not_nan _ _ Hge). }
  intros x l ->. now apply filtered_out_false.
Qed.

End SearchMore.

Section SearchBounds.

Variable env : Env.

(** The results of a search: no more than a limit that is not negative,
    each at or above the threshold in effect, in non-increasing order of
    similarity. *)
Lemma search_documents_bounds query limit threshold ids w rs w' :
  (0 <= limit)%Z ->
  search_documents env query limit threshold ids w = (Ok rs, w') ->
  (len rs <= limit)%Z
  /\ Forall (fun r => F64.geb (similarity r)
                        (threshold_in_effect env threshold) = true) rs
  /\ StronglySorted by_similarity rs.
Proof.
  intros Hlimit Hsearch.
  destruct (search_documents_inv env _ _ _ _ _ Hsearch)
    as (q & found & _ & Hfound & ->).
  assert (Hthr : Forall (fun r => F64.geb (similarity r)
                           (threshold_in_effect env threshold) = true) found).
  { eapply Forall_impl; [|exact Hfound].
    intros r (id & chunks & _ & _ & _ & (_ & _ & _ & Hge & _)). exact Hge. }
  split; [now apply slice_to_length|]. split.
  - apply slice_to_Forall. unfold sort_by_similarity.
    now apply sort_desc_Forall.
  - apply slice_to_sorted. eapply sort_by_similarity_sorted. exact Hthr.
Qed.

End SearchBounds.

(** * More properties of the answer composer *)

Section AnswerMore.

Variable env : Env.

Lemma citation_of_cites r c : citation_of env r = Ok c -> cites r c.
Proof.
  unfold citation_of. destruct (validate_line_number env _); [|discriminate].
  intros [= <-]. now repeat split.
Qed.

Lemma build_citations_spec rs : forall acc cs,
  build_citations env rs acc = Ok cs ->
  exists new, cs = acc ++ new /\ Forall2 cites rs new.
Proof.
  induction rs as [|r rs IH]; intros acc cs; cbn [build_citations].
  - intros [= <-]. exists []. now rewrite app_nil_r.
  - destruct (citation_of env r) as [c|e] eqn:Ec; [|discriminate].
    intros E. apply IH in E. destruct E as (new & -> & Hnew).
    exists (c :: new). rewrite <- app_assoc. split; [reflexivity|].
    constructor; [now apply citation_of_cites | exact Hnew].
Qed.

Lemma answer_text_nonempty response : answer_text_of response <> [].
Proof.
  unfold answer_text_of.
  destruct (response_text response) as [[|c s]|]; discriminate.
Qed.

Lemma session_or_default_nonempty session_id :
  session_or_default session_id <> [].
Proof. destruct session_id as [[|c s]|]; discriminate. Qed.

Lemma confidence_of_table cs :
  (List.length cs <= 10)%nat ->
  confidence_of cs = confidence_table (List.length cs).
Proof.
  intros H. unfold confidence_of, len.
  do 11 (destruct cs as [|? cs]; [vm_compute; reflexivity|]).
  cbn [List.length] in H. lia.
Qed.

Lemma confidence_table_valid n :
  F64.geb (confidence_table n) F64.zero
  && F64.leb (confidence_table n) F64.one = true.
Proof. destruct n as [|[|[|n]]]; reflexivity. Qed.

Lemma QAResponse_new_valid ok text cs n duration sid err :
  QAResponse_new ok text cs (confidence_table n) duration sid err
  = Ok {| success := ok; answer := text; sources := cs;
          confidence := confidence_table n; processing_time := duration;
          session_id := sid; error := err |}.
Proof. unfold QAResponse_new. now rewrite confidence_table_valid. Qed.

(** The body of the [try] when every stage succeeds. *)
Lemma answer_question_try_answered request sid start w0 rs cs response w1 :
  answered env request w0 rs cs response w1 ->
  (List.length cs <= 10)%nat ->
  answer_question_try env request sid start w0
  = (Ok {| success := true;
           answer := answer_text_of response;
           sources := cs;
           confidence := confidence_table (List.length cs);
           processing_time := F64.sub (time_time env (S (calls w1))) start;
           session_id := session_or_default sid;
           error := None |},
     with_calls w1 (2 + calls w1)).
Proof.
  intros [E1 E2 E3] Hlen. unfold answer_question_try. run_monad.
  rewrite E1, E2. run_monad. rewrite E3.
  rewrite confidence_of_table by exact Hlen.
  now rewrite QAResponse_new_valid.
Qed.

(** The body of the [try] returns only when every stage succeeded. *)
Lemma answer_question_try_returns request sid start w0 resp w' :
  answer_question_try env request sid start w0 = (Ok resp, w') ->
  exists rs cs response w1,
    answered env request w0 rs cs response w1
    /\ success resp = true
    /\ answer resp = answer_text_of response
    /\ sources resp = cs
    /\ confidence resp = confidence_of cs
    /\ session_id resp = session_or_default sid
    /\ error resp = None.
Proof.
  unfold answer_question_try. run_monad.
  destruct (search_documents env (question request) (max_sources request)
              None None w0) as [[rs|e] w1] eqn:E1; [|discriminate].
  destruct (build_citations env rs []) as [cs|e] eqn:E2; [|discriminate].
  run_monad.
  destruct (client_generate_content env (calls w1)
              (prompt_of (context_text_of rs) (question request)))
    as [response|e] eqn:E3; [|discriminate].
  unfold QAResponse_new.
  destruct (F64.geb (confidence_of cs) F64.zero
            && F64.leb (confidence_of cs) F64.one); [|discriminate].
  intros [= <- <-]. exists rs, cs, response, w1.
  split; [now constructor|]. now repeat split.
Qed.

Lemma answer_question_try_stores request sid start w0 r w' :
  answer_question_try env request sid start w0 = (r, w') ->
  same_stores w0 w'.
Proof.
  unfold answer_question_try. run_monad.
  destruct (search_documents env (question request) (max_sources request)
              None None w0) as [[rs|e] w1] eqn:E1;
    apply search_documents_stores in E1.
  2:{ now intros [= <- <-]. }
  destruct (build_citations env rs []) as [cs|e]; run_monad.
  2:{ now intros [= <- <-]. }
  assert (Hs : same_stores w0 (with_calls w1 (S (calls w1)))).
  { destruct E1 as (? & ? & ?). now repeat split. }
  assert (Hs2 : same_stores w0 (with_calls w1 (S (S (calls w1))))).
  { destruct E1 as (? & ? & ?). now repeat split. }
  destruct (client_generate_content env (calls w1) _); run_monad.
  2:{ now intros [= <- <-]. }
  destruct (QAResponse_new _ _ _ _ _ _ _); now intros [= <- <-].
Qed.

(** The method reads the corpus and writes nothing. *)
Lemma answer_question_stores request sid w r w' :
  answer_question env request sid w = (r, w') -> same_stores w w'.
Proof.
  unfold answer_question. unfold bind at 1, next_call at 1.
  unfold try_except.
  destruct (answer_question_try env request sid (time_time env (calls w))
              (with_calls w (S (calls w)))) as [[resp|e] w1] eqn:E;
    apply answer_question_try_stores in E.
  - intros [= <- <-]. destruct E as (? & ? & ?). now repeat split.
  - destruct (answer_question_except_returns env sid
                (time_time env (calls w)) e w1) as (resp & Er & _).
    rewrite Er. intros [= <- <-]. destruct E as (? & ? & ?).
    now repeat split.
Qed.

(** A response with [success = True] is the one of a run in which every
    stage succeeded. *)
Lemma answer_question_success request sid w resp w' :
  answer_question env request sid w = (Ok resp, w') ->
  success resp = true ->
  exists rs cs response w1,
    answered env request (with_calls w (S (calls w))) rs cs response w1
    /\ answer resp = answer_text_of response
    /\ sources resp = cs
    /\ confidence resp = confidence_of cs
    /\ session_id resp = session_or_default sid
    /\ error resp = None.
Proof.
  unfold answer_question. unfold bind at 1, next_call at 1.
  unfold try_except.
  destruct (answer_question_try env request sid (time_time env (calls w))
              (with_calls w (S (calls w)))) as [[resp0|e] w1] eqn:E.
  - intros [= <- <-] _.
    destruct (answer_question_try_returns _ _ _ _ E)
      as (rs & cs & response & w2 & H & _ & H'). now exists rs, cs, response, w2.
  - destruct (answer_question_except_returns env sid
                (time_time env (calls w)) e w1) as (resp0 & Er & Hf & _).
    rewrite Er. intros [= <- <-]. congruence.
Qed.

End AnswerMore.

Section AnswerSources.

Variable env : Env.

(** The sources of an answer: one citation for each search result, in the
    order of the results, and no more than [max_sources]. *)
Lemma answered_sources request w0 rs cs response w1 :
  answered env request w0 rs cs response w1 ->
  (0 <= max_sources request)%Z ->
  Forall2 cites rs cs /\ (len cs <= max_sources request)%Z.
Proof.
  intros [E1 E2 _] Hm.
  destruct (build_citations_spec env _ _ E2) as (new & -> & Hc).
  cbn [app]. split; [exact Hc|].
  destruct (search_documents_inv env _ _ _ _ _ E1) as (q & found & _ & _ & ->).
  pose proof (@slice_to_length _ (sort_by_similarity found) _ Hm) as Hl.
  unfold len in *. rewrite <- (Forall2_length Hc). exact Hl.
Qed.

Lemma answer_question_answered request sid w rs cs response w1 :
  (0 <= max_sources request <= 10)%Z ->
  answered env request (with_calls w (S (calls w))) rs cs response w1 ->
  answer_question env request sid w
  = (Ok {| success := true;
           answer := answer_text_of response;
           sources := cs;
           confidence := confidence_table (List.length cs);
           processing_time :=
             F64.sub (time_time env (S (calls w1))) (time_time env (calls w));
           session_id := session_or_default sid;
           error := None |},
     with_calls w1 (2 + calls w1)).
Proof.
  intros Hm Ha.
  destruct (answered_sources Ha ltac:(lia)) as [_ Hl].
  unfold answer_question. unfold bind at 1, next_call at 1.
  unfold try_except.
  rewrite (@answer_question_try_answered env request sid
             (time_time env (calls w)) _ rs cs response w1 Ha)
    by (unfold len in Hl; lia).
  reflexivity.
Qed.

End AnswerSources.

Section AnswerSession.

Variable env : Env.

(** The method returns on every request, with the session id of the
    caller, or [default]. *)
Lemma answer_question_session request sid w :
  exists resp w',
    answer_question env request sid w = (Ok resp, w')
    /\ session_id resp = session_or_default sid.
Proof.
  unfold answer_question. unfold bind at 1, next_call at 1.
  unfold try_except.
  destruct (answer_question_try env request sid (time_time env (calls w))
              (with_calls w (S (calls w)))) as [[resp|e] w1] eqn:E.
  - exists resp, w1. split; [reflexivity|].
    destruct (answer_question_try_returns env _ _ _ _ E)
      as (rs & cs & response & w2 & _ & _ & _ & _ & _ & Hs & _). exact Hs.
  - destruct (answer_question_except_returns env sid
                (time_time env (calls w)) e w1) as (resp & Er & _).
    rewrite Er. eexists _, _. split; [reflexivity|].
    unfold answer_question_except, bind, next_call, lift, QAResponse_new in Er.
    simpl in Er. now injection Er as <-.
Qed.

End AnswerSession.

(** * More properties of the cosine similarity *)

Lemma F64_mul_comm x y : F64.mul x y = F64.mul y x.
Proof.
  unfold F64.mul, SFmul.
  destruct x as [sx|sx| |sx mx ex], y as [sy|sy| |sy my ey];
    try reflexivity; try (now rewrite xorb_comm).
  now rewrite xorb_comm, Pos.mul_comm, Z.add_comm.
Qed.

Lemma dot_sum_comm a : forall b, dot_sum a b = dot_sum b a.
Proof.
  unfold dot_sum. generalize F64.zero as acc.
  induction a as [|x a IH]; intros acc [|y b]; try reflexivity.
  cbn [combine fold_left fst snd]. rewrite (F64_mul_comm x y). apply IH.
Qed.

(** The similarity does not depend on the order of the two vectors. *)
Lemma cosine_similarity_comm a b :
  _cosine_similarity a b = _cosine_similarity b a.
Proof.
  unfold _cosine_similarity, cosine_similarity_try, np_dot.
  rewrite (F64_mul_comm (np_linalg_norm a)), (dot_sum_comm a b),
    (Nat.eqb_sym (List.length a)).
  destruct (F64.eqb _ F64.zero); [reflexivity|].
  now destruct (List.length b =? List.length a)%nat.
Qed.

(** * Properties of the file checks *)

Section ValidationFacts.

Import DocumentFiles.

Variable upload : UploadSettings.
Variable str_lower : pystr -> pystr.

Lemma snoc_if_nil {A} (c : bool) (l : list A) x :
  (if c then l ++ [x] else l) = [] <-> l = [] /\ c = false.
Proof.
  destruct c; split.
  - intros H. now apply app_eq_nil in H as [_ H].
  - intros [_ H]. discriminate.
  - tauto.
  - tauto.
Qed.

Lemma len_zero {A} (l : list A) : (len l =? 0)%Z = true <-> l = [].
Proof.
  unfold len. rewrite Z.eqb_eq. destruct l; cbn [List.length]; split;
    try reflexivity; try discriminate; lia.
Qed.

Lemma existsb_eqb_In x l : existsb (PyStr.eqb x) l = true <-> In x l.
Proof.
  rewrite existsb_exists. split.
  - intros (y & Hin & H). apply ODictFacts.eqb_eq in H. now subst.
  - intros H. exists x. split; [exact H | apply ODictFacts.eqb_refl].
Qed.

(** The errors of the PDF block. *)
Lemma pdf_checks_errors facts file_ext errors warnings file_info :
  fst (fst (pdf_checks facts file_ext errors warnings file_info)) = []
  <-> errors = []
      /\ (file_ext = lit "pdf" ->
          exists num_pages,
            pdf_num_pages facts = Ok num_pages /\ num_pages <> 0%Z).
Proof.
  unfold pdf_checks.
  destruct (PyStr.eqb file_ext (lit "pdf")) eqn:Ee.
  - apply ODictFacts.eqb_eq in Ee.
    destruct (pdf_num_pages facts) as [n|e].
    + destruct (Z.eqb_spec n 0) as [->|Hn]; cbn [fst].
      * split; [intros H; now apply app_eq_nil in H as [_ H]|].
        intros [_ H]. destruct (H Ee) as (m & [= <-] & Hm). congruence.
      * destruct (100 <? n)%Z; cbn [fst];
          (split; [intros ->; split; [reflexivity|]; intros _; now exists n
                  | tauto]).
    + cbn [fst]. split; [intros H; now apply app_eq_nil in H as [_ H]|].
      intros [_ H]. destruct (H Ee) as (m & [=] & _).
  - cbn [fst]. apply ODictFacts.eqb_neq in Ee. split; [|tauto].
    intros ->. split; [reflexivity|]. intros H. contradiction.
Qed.

(** [validate_file] accepts exactly the acceptable uploads. *)
Lemma validate_file_accepts facts filename :
  report_is_valid (validate_file upload str_lower facts filename) = true
  <-> exists file_size, acceptable upload str_lower facts filename file_size.
Proof.
  unfold validate_file, validate_file_try, acceptable.
  destruct (path_exists facts); cbn [negb].
  2:{ cbn [report_is_valid]. split; [discriminate|].
      intros (n & H & _). discriminate. }
  destruct (getsize facts) as [n|e].
  2:{ cbn [report_is_valid]. split; [discriminate|].
      intros (n & _ & H & _). discriminate. }
  cbv zeta.
  match goal with
  | |- context [pdf_checks facts ?x ?e ?w ?i] =>
      pose proof (pdf_checks_errors facts x e w i) as Hp;
      destruct (pdf_checks facts x e w i) as [[errors warnings] file_info]
  end.
  cbn [fst report_is_valid] in *. rewrite len_zero, Hp.
  rewrite !snoc_if_nil. rewrite negb_false_iff, existsb_eqb_In.
  rewrite Z.ltb_ge, Z.eqb_neq.
  split.
  - intros ((((_ & H1) & H2) & H3) & H4). exists n. tauto.
  - intros (m & _ & [= <-] & H1 & H2 & H3 & H4). tauto.
Qed.

(** A refusal always gives its reasons: the report is valid exactly when
    it lists no error. *)
Lemma validate_file_errors facts filename :
  report_is_valid (validate_file upload str_lower facts filename) = true
  <-> report_errors (validate_file upload str_lower facts filename) = [].
Proof.
  unfold validate_file, validate_file_try.
  destruct (path_exists facts); cbn [negb].
  2:{ cbn [report_is_valid report_errors]. split; discriminate. }
  destruct (getsize facts) as [n|e].
  2:{ cbn [report_is_valid report_errors]. split; discriminate. }
  cbv zeta.
  match goal with
  | |- context [pdf_checks facts ?x ?e ?w ?i] =>
      destruct (pdf_checks facts x e w i) as [[errors warnings] file_info]
  end.
  cbn [report_is_valid report_errors]. apply len_zero.
Qed.

(** The size [process_document] records is the size of the file. *)
Lemma validate_file_size facts filename :
  report_is_valid (validate_file upload str_lower facts filename) = true ->
  getsize facts
  = Ok (file_size (result_of (validate_file upload str_lower facts filename))).
Proof.
  unfold validate_file, validate_file_try.
  destruct (path_exists facts); cbn [negb]; [|discriminate].
  destruct (getsize facts) as [n|e]; [|discriminate].
  cbv zeta. intros _. f_equal.
  unfold pdf_checks.
  destruct (PyStr.eqb _ (lit "pdf")); [destruct (pdf_num_pages facts) as [p|];
    [destruct (p =? 0)%Z; [|destruct (100 <? p)%Z]|]|];
    destruct (magic_from_file facts);
    cbn [result_of file_size report_file_info size_of_info];
    repeat (rewrite ODictFacts.get_set_other
              by (intro H; vm_compute in H; discriminate));
    reflexivity.
Qed.

End ValidationFacts.

(** What [magic] answers changes the warnings only. *)
Lemma validate_file_magic upload str_lower facts filename answer :
  let r := DocumentFiles.validate_file upload str_lower facts filename in
  let r' := DocumentFiles.validate_file upload str_lower
              (with_magic facts answer) filename in
  DocumentFiles.report_is_valid r' = DocumentFiles.report_is_valid r
  /\ DocumentFiles.report_errors r' = DocumentFiles.report_errors r.
Proof.
  cbv zeta.
  unfold DocumentFiles.validate_file, DocumentFiles.validate_file_try,
    with_magic, DocumentFiles.pdf_checks.
  cbn [DocumentFiles.path_exists DocumentFiles.getsize
       DocumentFiles.magic_from_file DocumentFiles.pdf_num_pages].
  destruct (DocumentFiles.path_exists facts); cbn [negb]; [|now split].
  destruct (DocumentFiles.getsize facts) as [n|e]; [|now split].
  cbv zeta.
  destruct (PyStr.eqb _ (lit "pdf"));
    [destruct (DocumentFiles.pdf_num_pages facts) as [p|];
     [destruct (p =? 0)%Z; [|destruct (100 <? p)%Z]|]|];
    now split.
Qed.

(** ** [process_document] on the files of a file system *)

Section FilesFacts.

Variable upload : DocumentFiles.UploadSettings.
Variable fs : FileSystem.
Variable env : Env.

Lemma with_files_is_valid n file_path filename :
  is_valid (validate_file (with_files upload fs env) n file_path filename)
  = DocumentFiles.report_is_valid
      (DocumentFiles.validate_file upload (str_lower env)
         (facts_at fs n file_path) filename).
Proof. reflexivity. Qed.

Lemma process_document_unacceptable file_path filename w :
  (forall n, ~ acceptable upload (str_lower env)
                 (facts_at fs (calls w) file_path) filename n) ->
  let report := DocumentFiles.validate_file upload (str_lower env)
                  (facts_at fs (calls w) file_path) filename in
  process_document (with_files upload fs env) file_path filename w
  = (Raise (Exn FileValidationError
              (lit "File validation failed: "
                 ++ join (lit ", ") (DocumentFiles.report_errors report))),
     with_calls w (S (calls w)))
  /\ DocumentFiles.report_errors report <> [].
Proof.
  intros Hn report.
  assert (Hv : DocumentFiles.report_is_valid report = false).
  { destruct (DocumentFiles.report_is_valid report) eqn:E; [|reflexivity].
    apply validate_file_accepts in E. destruct E as (n & Ha).
    now destruct (Hn n). }
  split.
  - rewrite process_document_invalid; [reflexivity|].
    now rewrite with_files_is_valid.
  - intros He. apply validate_file_errors in He.
    fold report in He. congruence.
Qed.

Lemma process_document_acceptable file_path filename w d w' :
  process_document (with_files upload fs env) file_path filename w
    = (Ok d, w') ->
  exists n,
    acceptable upload (str_lower env) (facts_at fs (calls w) file_path)
      filename n
    /\ size d = n.
Proof.
  intros E.
  pose proof (process_document_ends (with_files upload fs env) file_path
                filename w) as H.
  rewrite E in H.
  inversion H as [| | |text stored now w1 chunks d0 d1 Hv _ _ _ _ _ _];
    subst.
  rewrite with_files_is_valid in Hv.
  pose proof (validate_file_size _ _ _ _ Hv) as Hsize.
  apply validate_file_accepts in Hv.
  destruct Hv as (n & Ha). exists n. split; [exact Ha|].
  destruct Ha as (_ & Hg & _). rewrite Hg in Hsize.
  injection Hsize as ->. reflexivity.
Qed.

End FilesFacts.

(** * Properties of the text extractors *)

Lemma strip_idempotent s : strip (strip s) = strip s.
Proof.
  destruct (strip_cases s) as [E|H]; [now rewrite E | now apply strip_clean].
Qed.

Lemma lstrip_app_keep a : forall b,
  lstrip a <> [] -> lstrip (a ++ b) = lstrip a ++ b.
Proof.
  induction a as [|c a IH]; intros b H; [now destruct H|].
  cbn [lstrip app] in *. destruct (isspace c); [now apply IH | reflexivity].
Qed.

(** [rstrip] keeps what stands before a part that is not blank. *)
Lemma rstrip_app_keep a b : rstrip b <> [] -> rstrip (a ++ b) = a ++ rstrip b.
Proof.
  unfold rstrip. intros H. rewrite rev_app_distr.
  rewrite lstrip_app_keep.
  - now rewrite rev_app_distr, rev_involutive.
  - intros E. apply H. now rewrite E.
Qed.

Lemma rstrip_blank s : blank s -> rstrip s = [].
Proof.
  intros H. unfold rstrip. rewrite lstrip_blank; [reflexivity|].
  unfold blank in *. now apply Forall_rev.
Qed.

Lemma lstrip_not_blank s : lstrip s = [] -> blank s.
Proof.
  induction s as [|c s IH]; [constructor|]. cbn [lstrip].
  destruct (isspace c) eqn:E; [|discriminate].
  intros H. constructor; [exact E | exact (IH H)].
Qed.

Lemma rstrip_nil_blank s : rstrip s = [] -> blank s.
Proof.
  unfold rstrip. intros H.
  assert (H' : lstrip (rev s) = []).
  { destruct (lstrip (rev s)); [reflexivity|].
    apply (f_equal (@List.length _)) in H. rewrite length_rev in H.
    discriminate. }
  apply lstrip_not_blank in H'. unfold blank in *.
  rewrite <- (rev_involutive s). now apply Forall_rev.
Qed.

Lemma strip_nil_blank s : strip s = [] -> blank s.
Proof.
  unfold strip. intros H. apply rstrip_nil_blank in H.
  induction s as [|c s IH]; [constructor|]. cbn [lstrip] in H.
  destruct (isspace c) eqn:E.
  - constructor; [exact E | exact (IH H)].
  - inversion H as [|? ? Hc _]. congruence.
Qed.

Lemma blank_app a b : blank a -> blank b -> blank (a ++ b).
Proof. unfold blank. intros. apply Forall_app. now split. Qed.

Lemma rstrip_not_blank s : truthy (strip s) = true -> rstrip s <> [].
Proof.
  intros H E. apply rstrip_nil_blank in E.
  rewrite strip_blank in H by exact E. discriminate.
Qed.

Lemma startswith_prefix p : forall x, startswith (p ++ x) p = true.
Proof.
  induction p as [|c p IH]; intros x; [now destruct x|].
  cbn [app startswith]. unfold char_eqb. now rewrite N.eqb_refl, IH.
Qed.

Section ExtractorFacts.

Import DocumentFiles.

Lemma pages_text_marked pages : forall page_num text,
  marked text -> marked (pages_text page_num pages text).
Proof.
  induction pages as [|[page_text|e] pages IH]; intros page_num text H;
    cbn [pages_text]; [exact H| |now apply IH].
  destruct (truthy (strip page_text)); [|now apply IH].
  apply IH. right. destruct H as [->|(rest & ->)].
  - eexists. cbn [app]. unfold page_marker.
    change (lit "--- Page ") with (lit "--- Page" ++ [32%N]).
    rewrite <- !app_assoc. reflexivity.
  - eexists. rewrite <- !app_assoc. reflexivity.
Qed.

Lemma strip_marked text :
  marked text -> truthy (strip text) = true -> is_marker (strip text) = true.
Proof.
  intros [->|(rest & ->)] H; [discriminate|].
  unfold strip in *.
  assert (El : lstrip ([10%N; 10%N] ++ lit "--- Page" ++ rest)
               = lit "--- Page" ++ rest) by reflexivity.
  rewrite El in *. clear El.
  assert (Hr : rstrip (lit "--- Page" ++ rest)
               = lit "--- Page" ++ rstrip rest
               \/ rstrip (lit "--- Page" ++ rest) = lit "--- Page").
  { destruct (rstrip rest) as [|c r] eqn:Er.
    - right. apply rstrip_nil_blank in Er.
      change (lit "--- Page" ++ rest)
        with (lit "--- Pag" ++ 101%N :: rest).
      rewrite rstrip_app_keep.
      + rewrite rstrip_cons by reflexivity.
        now rewrite rstrip_blank.
      + rewrite rstrip_cons by reflexivity. discriminate.
    - left. rewrite rstrip_app_keep; [now rewrite Er|]. rewrite Er.
      discriminate. }
  destruct Hr as [-> | ->]; [apply startswith_prefix | reflexivity].
Qed.

(** The text of a PDF: stripped, not empty, and beginning with a page
    marker; a failure is a [DocumentProcessingError]. *)
Lemma extract_text_from_pdf_result reader :
  match extract_text_from_pdf reader with
  | Ok text => clean text /\ is_marker text = true
  | Raise e => exn_kind e = DocumentProcessingError
  end.
Proof.
  unfold extract_text_from_pdf, extract_text_from_pdf_try.
  destruct reader as [pages|e]; [|reflexivity]. cbv zeta.
  destruct (truthy (strip (pages_text 0 pages []))) eqn:E; cbn [negb];
    [|reflexivity].
  split; [now apply strip_truthy_clean|].
  apply strip_marked; [|exact E]. apply pages_text_marked. now left.
Qed.

(** The text of a text file: stripped; not empty when the file is read as
    UTF-8; a failure is a [DocumentProcessingError]. *)
Lemma extract_text_from_txt_result utf8 latin1 :
  match extract_text_from_txt utf8 latin1 with
  | Ok text =>
      strip text = text /\ (utf8 <> UnicodeDecodeError -> text <> [])
  | Raise e => exn_kind e = DocumentProcessingError
  end.
Proof.
  unfold extract_text_from_txt.
  destruct utf8 as [content| |e]; [| |reflexivity].
  - destruct (truthy (strip content)) eqn:E; cbn [negb]; [|reflexivity].
    split; [apply strip_idempotent|]. intros _. now apply truthy_true.
  - destruct latin1 as [content|e]; [|reflexivity].
    split; [apply strip_idempotent|]. intros H. now destruct H.
Qed.

End ExtractorFacts.

(** * The pages of a PDF and the page of its chunks *)

(** ** Lines *)

Lemma split_on_nonempty sep s : split_on sep s <> [].
Proof.
  destruct s as [|c s]; [discriminate|]. cbn [split_on].
  destruct (char_eqb c sep); [discriminate|].
  destruct (split_on sep s); discriminate.
Qed.

Lemma split_on_app_sep sep a : forall b,
  split_on sep (a ++ sep :: b) = split_on sep a ++ split_on sep b.
Proof.
  induction a as [|c a IH]; intros b.
  - cbn [app split_on]. unfold char_eqb. now rewrite N.eqb_refl.
  - cbn [app split_on]. destruct (char_eqb c sep); [now rewrite IH|].
    rewrite IH. pose proof (split_on_nonempty sep a) as Hn.
    destruct (split_on sep a) as [|x xs]; [contradiction | reflexivity].
Qed.

Lemma split_on_no_sep sep a :
  Forall (fun c => char_eqb c sep = false) a -> split_on sep a = [a].
Proof.
  induction 1 as [|c a Hc _ IH]; [reflexivity|].
  cbn [split_on]. now rewrite Hc, IH.
Qed.

Lemma startswith_app l : forall p e,
  startswith l p = true -> startswith (l ++ e) p = true.
Proof.
  induction l as [|c l IH]; intros [|b p] e H.
  - now destruct e.
  - discriminate.
  - reflexivity.
  - cbn [app startswith] in *. apply andb_prop in H. destruct H as [H1 H2].
    now rewrite H1, IH.
Qed.

Lemma is_marker_prefix l e : is_marker (l ++ e) = false -> is_marker l = false.
Proof.
  unfold is_marker. intros H.
  destruct (startswith l (lit "--- Page")) eqn:E; [|reflexivity].
  now rewrite (startswith_app _ _ e E) in H.
Qed.

(** The lines of the beginning of a text are beginnings of lines of the
    text. *)
Lemma split_on_prefix_closed sep y : forall (Q P : pystr -> Prop) x,
  (forall l e, Q (l ++ e) -> Q l) ->
  (forall l e, P (l ++ e) -> P l) ->
  match split_on sep (y ++ x) with
  | [] => True
  | w :: r => Q w /\ Forall P r
  end ->
  match split_on sep y with
  | [] => True
  | w :: r => Q w /\ Forall P r
  end.
Proof.
  induction y as [|c y IH]; intros Q P x HQ HP H.
  - cbn [app split_on] in *. split; [|constructor].
    pose proof (split_on_nonempty sep x) as N0.
    destruct (split_on sep x) as [|w r]; [contradiction|].
    apply (HQ [] w). now destruct H.
  - cbn [app split_on] in *. destruct (char_eqb c sep).
    + destruct H as [H1 H2]. split; [exact H1|].
      specialize (IH P P x HP HP).
      pose proof (split_on_nonempty sep (y ++ x)) as N1.
      pose proof (split_on_nonempty sep y) as N2.
      destruct (split_on sep (y ++ x)) as [|w1 r1]; [contradiction|].
      destruct (split_on sep y) as [|w2 r2]; [contradiction|].
      inversion H2; subst. constructor; now apply IH.
    + specialize (IH (fun l => Q (c :: l)) P x).
      pose proof (split_on_nonempty sep (y ++ x)) as N1.
      pose proof (split_on_nonempty sep y) as N2.
      destruct (split_on sep (y ++ x)) as [|w1 r1]; [contradiction|].
      destruct (split_on sep y) as [|w2 r2]; [contradiction|].
      apply IH; [|exact HP|exact H].
      intros l e. apply (HQ (c :: l) e).
Qed.

Lemma no_marker_line_prefix y x : no_marker_line (y ++ x) -> no_marker_line y.
Proof.
  unfold no_marker_line. intros H.
  pose proof (@split_on_prefix_closed 10%N y
                (fun l => is_marker l = false) (fun l => is_marker l = false)
                x is_marker_prefix is_marker_prefix) as Hp.
  pose proof (split_on_nonempty 10%N (y ++ x)) as N1.
  pose proof (split_on_nonempty 10%N y) as N2.
  destruct (split_on 10%N (y ++ x)) as [|w1 r1]; [contradiction|].
  destruct (split_on 10%N y) as [|w2 r2]; [contradiction|].
  inversion H as [|? ? Hw Hr]; subst.
  destruct Hp as [K1 K2]; [now split|]. now constructor.
Qed.

Lemma lstrip_suffix s : exists pre, s = pre ++ lstrip s.
Proof.
  induction s as [|c s (pre & IH)]; [now exists []|]. cbn [lstrip].
  destruct (isspace c); [|now exists []].
  exists (c :: pre). cbn [app]. now rewrite <- IH.
Qed.

Lemma rstrip_prefix s : exists ws, s = rstrip s ++ ws.
Proof.
  unfold rstrip. destruct (lstrip_suffix (rev s)) as (pre & H).
  exists (rev pre). rewrite <- rev_app_distr, <- H. now rewrite rev_involutive.
Qed.

Lemma no_marker_line_rstrip t : no_marker_line t -> no_marker_line (rstrip t).
Proof.
  intros H. destruct (rstrip_prefix t) as (ws & E). rewrite E in H.
  now apply no_marker_line_prefix in H.
Qed.

(** ** The page the first loop of [chunk_document] ends with *)

Section PageScan.

Variable py_int : pystr -> option Z.

Lemma scan_lines_page lines : forall s s' p,
  snd (scan_lines py_int lines s p) = snd (scan_lines py_int lines s' p).
Proof.
  induction lines as [|line lines IH]; intros s s' p; [reflexivity|].
  cbn [scan_lines]. destruct (startswith line (lit "--- Page")); apply IH.
Qed.

Lemma scan_lines_app l1 : forall l2 s s' p,
  snd (scan_lines py_int (l1 ++ l2) s p)
  = snd (scan_lines py_int l2 s' (snd (scan_lines py_int l1 s p))).
Proof.
  induction l1 as [|line l1 IH]; intros l2 s s' p.
  - cbn [app scan_lines snd]. apply scan_lines_page.
  - cbn [app scan_lines]. destruct (startswith line (lit "--- Page"));
      apply IH.
Qed.

Lemma scan_lines_no_marker lines : forall s p,
  Forall (fun line => is_marker line = false) lines ->
  snd (scan_lines py_int lines s p) = p.
Proof.
  induction lines as [|line lines IH]; intros s p H; [reflexivity|].
  inversion H as [|? ? Hl Hr]; subst. cbn [scan_lines].
  unfold is_marker in Hl. rewrite Hl. now apply IH.
Qed.

(** ** The marker of a page *)

Lemma digits_of_pos_digits fuel : forall n acc,
  Forall (fun c => is_digit c = true) acc ->
  Forall (fun c => is_digit c = true) (digits_of_pos fuel n acc).
Proof.
  induction fuel as [|fuel IH]; intros n acc H; [exact H|].
  cbn [digits_of_pos].
  assert (H' : Forall (fun c => is_digit c = true)
                 ((48 + n mod 10)%N :: acc))
    by (constructor; [apply digit_of_mod | exact H]).
  destruct (n <? 10)%N; [exact H' | now apply IH].
Qed.

Lemma digit_plain c :
  is_digit c = true -> isspace c = false /\ char_eqb c 10%N = false.
Proof.
  unfold is_digit. intros H. apply andb_prop in H. destruct H as [H1 H2].
  apply N.leb_le in H1, H2.
  assert (H : (c = 48 \/ c = 49 \/ c = 50 \/ c = 51 \/ c = 52 \/ c = 53
               \/ c = 54 \/ c = 55 \/ c = 56 \/ c = 57)%N) by lia.
  repeat (destruct H as [->|H]; [split; reflexivity|]).
  subst c. split; reflexivity.
Qed.

Lemma str_of_nonneg_digits n :
  (0 <= n)%Z -> Forall (fun c => is_digit c = true) (str_of_int n)
                /\ str_of_int n <> [].
Proof.
  intros H. destruct n as [|p|p]; [| |lia].
  - split; [repeat constructor | discriminate].
  - split; [apply digits_of_pos_digits; constructor|].
    unfold str_of_int.
    destruct (digits_of_pos_head (Pos.to_nat (Pos.size p)) (N.pos p) [])
      as (c & rest & -> & _). discriminate.
Qed.

Lemma split_ws_from_word d : forall word s,
  Forall (fun c => isspace c = false) d ->
  split_ws_from word (d ++ s) = split_ws_from (word ++ d) s.
Proof.
  induction d as [|c d IH]; intros word s H.
  - now rewrite app_nil_r.
  - inversion H as [|? ? Hc Hd]; subst. cbn [app split_ws_from].
    rewrite Hc, IH by exact Hd. now rewrite <- app_assoc.
Qed.

Lemma split_ws_page_marker n :
  (0 <= n)%Z ->
  split_ws (DocumentFiles.page_marker n)
  = [lit "---"; lit "Page"; str_of_int n; lit "---"].
Proof.
  intros H. destruct (str_of_nonneg_digits H) as [Hd Hne].
  unfold DocumentFiles.page_marker, split_ws.
  change (lit "--- Page " ++ str_of_int n ++ lit " ---")
    with (lit "--- Page " ++ (str_of_int n ++ lit " ---")).
  assert (E : forall s, split_ws_from [] (lit "--- Page " ++ s)
                        = lit "---" :: lit "Page" :: split_ws_from [] s)
    by reflexivity.
  rewrite E. rewrite split_ws_from_word.
  - cbn [app]. destruct (str_of_int n) as [|c s]; [contradiction|].
    reflexivity.
  - eapply Forall_impl; [|exact Hd]. intros c Hc.
    now destruct (digit_plain c Hc).
Qed.

Lemma page_marker_is_marker n : is_marker (DocumentFiles.page_marker n) = true.
Proof.
  unfold DocumentFiles.page_marker.
  change (lit "--- Page " ++ str_of_int n ++ lit " ---")
    with (lit "--- Page" ++ ([32%N] ++ str_of_int n ++ lit " ---")).
  apply startswith_prefix.
Qed.

Lemma page_marker_one_line n :
  (0 <= n)%Z ->
  split_on 10%N (DocumentFiles.page_marker n) = [DocumentFiles.page_marker n].
Proof.
  intros H. apply split_on_no_sep. unfold DocumentFiles.page_marker.
  apply Forall_app. split; [repeat constructor|].
  apply Forall_app. split; [|repeat constructor].
  destruct (str_of_nonneg_digits H) as [Hd _].
  eapply Forall_impl; [|exact Hd]. intros c Hc.
  now destruct (digit_plain c Hc).
Qed.

Lemma page_of_page_marker n p :
  (0 <= n)%Z -> py_int (str_of_int n) = Some n ->
  page_of_marker py_int (DocumentFiles.page_marker n) p = n.
Proof.
  intros H Hi. unfold page_of_marker. rewrite split_ws_page_marker by exact H.
  cbn [nth]. change (3 <=? len [lit "---"; lit "Page"; str_of_int n; lit "---"])%Z
    with true. cbv iota. now rewrite Hi.
Qed.

End PageScan.

(** ** The text of a PDF whose last page with text is known *)

Section LastPage.

Import DocumentFiles.

Lemma pages_text_no_text back : forall j acc,
  Forall no_text back -> pages_text j back acc = acc.
Proof.
  induction back as [|[s|e] back IH]; intros j acc H; [reflexivity| |];
    inversion H as [|? ? Hp Hb]; subst; cbn [pages_text].
  - cbn [no_text] in Hp. rewrite Hp. now apply IH.
  - now apply IH.
Qed.

Lemma pages_text_app front : forall j rest acc,
  pages_text j (front ++ rest) acc
  = pages_text (j + len front) rest (pages_text j front acc).
Proof.
  induction front as [|[s|e] front IH]; intros j rest acc.
  - cbn [app pages_text]. unfold len. cbn [List.length].
    now rewrite Z.add_0_r.
  - cbn [app pages_text]. unfold len. cbn [List.length].
    destruct (truthy (strip s)); rewrite IH; unfold len; f_equal; lia.
  - cbn [app pages_text]. unfold len. cbn [List.length].
    rewrite IH. unfold len. f_equal. lia.
Qed.

Lemma pages_text_last front t back :
  truthy (strip t) = true -> Forall no_text back ->
  pages_text 0 (front ++ Ok t :: back) []
  = pages_text 0 front [] ++ [10%N; 10%N] ++ page_marker (len front + 1)
      ++ [10%N] ++ t.
Proof.
  intros Ht Hb. rewrite pages_text_app. cbn [pages_text]. rewrite Ht.
  rewrite pages_text_no_text by exact Hb. reflexivity.
Qed.

(** What stripping leaves of that text: it ends with the marker of the
    last page and the text of that page. *)
Lemma strip_pages_text P k t :
  marked P -> truthy (strip t) = true ->
  exists B,
    strip (P ++ [10%N; 10%N] ++ page_marker k ++ [10%N] ++ t)
    = B ++ page_marker k ++ 10%N :: rstrip t
    /\ (B = [] \/ exists Z, B = Z ++ [10%N; 10%N]).
Proof.
  intros HP Ht. pose proof (rstrip_not_blank _ Ht) as Hr. unfold strip.
  destruct HP as [->|(rest & ->)].
  - exists []. split; [|now left].
    match goal with
    | |- rstrip (lstrip ?x) = _ =>
        change (lstrip x) with (page_marker k ++ 10%N :: t)
    end.
    replace (page_marker k ++ 10%N :: t)
      with ((page_marker k ++ [10%N]) ++ t)
      by (now rewrite <- app_assoc).
    rewrite rstrip_app_keep by exact Hr. now rewrite <- app_assoc.
  - exists ((lit "--- Page" ++ rest) ++ [10%N; 10%N]).
    split; [|right; now eexists].
    match goal with
    | |- rstrip (lstrip ?x) = _ =>
        change (lstrip x)
          with ((lit "--- Page" ++ rest)
                  ++ [10%N; 10%N] ++ page_marker k ++ [10%N] ++ t)
    end.
    replace ((lit "--- Page" ++ rest)
               ++ [10%N; 10%N] ++ page_marker k ++ [10%N] ++ t)
      with ((((lit "--- Page" ++ rest) ++ [10%N; 10%N])
               ++ page_marker k ++ [10%N]) ++ t)
      by (rewrite <- !app_assoc; reflexivity).
    rewrite rstrip_app_keep by exact Hr.
    rewrite <- !app_assoc. reflexivity.
Qed.

Variable py_int : pystr -> option Z.

Lemma final_page_last B k r :
  (B = [] \/ exists Z, B = Z ++ [10%N; 10%N]) ->
  (0 <= k)%Z -> py_int (str_of_int k) = Some k ->
  no_marker_line r ->
  final_page py_int (B ++ page_marker k ++ 10%N :: r) = k.
Proof.
  intros HB Hk Hi Hr. unfold final_page, sentences_and_page.
  assert (E : exists A,
             split_on 10%N (B ++ page_marker k ++ 10%N :: r)
             = A ++ [page_marker k] ++ split_on 10%N r).
  { destruct HB as [->|(Z & ->)].
    - exists []. cbn [app]. rewrite split_on_app_sep.
      now rewrite page_marker_one_line.
    - exists (split_on 10%N Z ++ [[]]).
      replace ((Z ++ [10%N; 10%N]) ++ page_marker k ++ 10%N :: r)
        with (Z ++ 10%N :: ([] ++ 10%N :: (page_marker k ++ 10%N :: r)))
        by (rewrite <- app_assoc; reflexivity).
      rewrite !split_on_app_sep. rewrite page_marker_one_line by exact Hk.
      cbn [split_on]. rewrite <- !app_assoc. reflexivity. }
  destruct E as (A & ->).
  rewrite (scan_lines_app py_int A _ [] []).
  cbn [app scan_lines].
  pose proof (page_marker_is_marker k) as Hm. unfold is_marker in Hm.
  rewrite Hm. rewrite scan_lines_no_marker by exact Hr.
  now apply page_of_page_marker.
Qed.

(** The chunks of a PDF all carry the number of its last page with text,
    when no line of that page reads as a page marker. *)
Lemma pdf_last_page front t back filename :
  py_int (str_of_int (len front + 1)) = Some (len front + 1)%Z ->
  truthy (strip t) = true ->
  Forall no_text back ->
  no_marker_line t ->
  exists text,
    extract_text_from_pdf (Ok (front ++ Ok t :: back)) = Ok text
    /\ final_page py_int text = (len front + 1)%Z
    /\ Forall (fun c => page_number c = Some (len front + 1)%Z)
              (chunk_document py_int text filename).
Proof.
  intros Hi Ht Hb Hn.
  assert (Hk : (0 <= len front + 1)%Z) by (unfold len; lia).
  destruct (@strip_pages_text (pages_text 0 front []) (len front + 1) t
              (pages_text_marked front 0 (or_introl eq_refl)) Ht)
    as (B & Es & HB).
  assert (Ef : final_page py_int
                 (B ++ page_marker (len front + 1) ++ 10%N :: rstrip t)
               = (len front + 1)%Z).
  { apply final_page_last; try assumption. now apply no_marker_line_rstrip. }
  exists (B ++ page_marker (len front + 1) ++ 10%N :: rstrip t).
  split; [|split; [exact Ef|]].
  - unfold extract_text_from_pdf, extract_text_from_pdf_try. cbv zeta.
    rewrite pages_text_last by assumption. rewrite Es.
    destruct (B ++ page_marker (len front + 1) ++ 10%N :: rstrip t) eqn:E;
      [|reflexivity].
    apply app_eq_nil in E. destruct E as [_ E].
    apply app_eq_nil in E. destruct E as [_ E]. discriminate.
  - eapply Forall_impl; [|apply chunk_document_pages].
    intros c [Hp _]. now rewrite Hp, Ef.
Qed.

End LastPage.

(** The sample PDF: its text, and the pages of its two chunks. *)
Lemma sample_pdf_text :
  DocumentFiles.extract_text_from_pdf
    (Ok (SampleFiles.pdf_front ++ Ok SampleFiles.pdf_last
           :: SampleFiles.pdf_back))
  = Ok SampleFiles.pdf_text.
Proof. vm_compute. reflexivity. Qed.

Lemma sample_pdf_chunks :
  map (fun c => (page_number c, len (chunk_content c)))
      (chunk_document ascii_int SampleFiles.pdf_text (lit "a.pdf"))
  = [(Some 2%Z, 4000%Z); (Some 2%Z, 15%Z)].
Proof. vm_compute. reflexivity. Qed.

(** * Properties of the routes *)

Section RouteFacts.

Import Routes.

Variable env : Env.

(** ** The search route *)

Lemma search_documents_route_runs q limit threshold document_ids w :
  search_documents_route env q limit threshold document_ids w
  = match search_documents env q limit (Some threshold)
            (doc_ids_list_of document_ids) (with_calls w (S (calls w))) with
    | (Ok rs, w1) =>
        (Ok (Response
               {| search_success := true;
                  search_results := rs;
                  search_query := q;
                  total_results := len rs;
                  search_processing_time :=
                    F64.sub (time_time env (calls w1))
                      (time_time env (calls w)) |}),
         with_calls w1 (S (calls w1)))
    | (Raise _, w1) =>
        (Ok (HTTPException 500 (lit "Search operation failed")), w1)
    end.
Proof.
  unfold search_documents_route. run_monad.
  destruct (search_documents env q limit (Some threshold)
              (doc_ids_list_of document_ids) (with_calls w (S (calls w))))
    as [[rs|e] w1]; reflexivity.
Qed.

Lemma search_documents_route_answers q limit threshold document_ids w :
  (0 <= limit)%Z ->
  exists r w',
    search_documents_route env q limit threshold document_ids w = (Ok r, w')
    /\ same_stores w w'
    /\ match r with
       | Response body =>
           search_success body = true
           /\ search_query body = q
           /\ total_results body = len (search_results body)
           /\ (total_results body <= limit)%Z
           /\ Forall (fun r => F64.geb (similarity r) threshold = true)
                     (search_results body)
           /\ StronglySorted by_similarity (search_results body)
       | HTTPException status_code detail =>
           status_code = 500%Z
           /\ detail = lit "Search operation failed"
           /\ exists w1,
                (exists e,
                    generate_embedding env q (with_calls w (S (calls w)))
                    = (Raise e, w1))
                \/ generate_embedding env q (with_calls w (S (calls w)))
                   = (Ok None, w1)
       end.
Proof.
  intros Hl. rewrite search_documents_route_runs.
  destruct (search_documents env q limit (Some threshold)
              (doc_ids_list_of document_ids) (with_calls w (S (calls w))))
    as [[rs|e] w1] eqn:E.
  - pose proof (search_documents_stores env _ _ _ _ _ E) as (H1 & H2 & H3).
    destruct (@search_documents_bounds env _ _ _ _ _ _ _ Hl E) as (B1 & B2 & B3).
    eexists _, _. split; [reflexivity|]. split; [now repeat split|].
    cbn [search_success search_query total_results search_results].
    now repeat split.
  - pose proof (search_documents_stores env _ _ _ _ _ E) as (H1 & H2 & H3).
    eexists _, _. split; [reflexivity|]. split; [now repeat split|].
    split; [reflexivity|]. split; [reflexivity|]. exists w1.
    destruct (search_documents_raises env _ _ _ _ _ E)
      as [(e0 & Eg & _)|(Eg & _)]; [left; now exists e0 | now right].
Qed.

Lemma filter_blank_pieces pieces :
  Forall blank pieces ->
  filter (fun doc_id => truthy (strip doc_id)) pieces = [].
Proof.
  induction 1 as [|p pieces Hp _ IH]; [reflexivity|]. cbn [filter].
  now rewrite (strip_blank Hp).
Qed.

(** A [document_ids] parameter of separators and blanks only filters
    nothing. *)
Lemma search_documents_route_blank_ids q limit threshold c s w :
  Forall blank (split_on 44%N (c :: s)) ->
  search_documents_route env q limit threshold (Some (c :: s)) w
  = search_documents_route env q limit threshold None w.
Proof.
  intros H. rewrite !search_documents_route_runs.
  cbn [doc_ids_list_of]. rewrite filter_blank_pieces by exact H.
  cbn [map]. now rewrite search_documents_empty_filter.
Qed.

(** ** The routes of one document *)

Lemma get_document_route_runs id w :
  get_document_route id w
  = (Ok match ODict.get (ds_documents w) id with
        | None => HTTPException 404 (lit "Document not found")
        | Some document =>
            Response {| document_success := true;
                        document_data := Some document;
                        document_message :=
                          lit "Document retrieved successfully" |}
        end, w).
Proof.
  unfold get_document_route, get_document. run_monad.
  now destruct (ODict.get (ds_documents w) id).
Qed.

Lemma delete_document_route_unknown id w :
  ODict.get (ds_documents w) id = None ->
  delete_document_route env id w
  = (Ok (HTTPException 404 (lit "Document not found")), w).
Proof.
  intros H. unfold delete_document_route, get_document. run_monad.
  now rewrite H.
Qed.

Lemma delete_document_route_known id w document :
  World_ok w ->
  ODict.get (ds_documents w) id = Some document ->
  exists r w',
    delete_document_route env id w = (Ok r, w')
    /\ (r = HTTPException 500 (lit "Failed to delete document")
        \/ r = Response
                 {| delete_success := true;
                    delete_message :=
                      lit "Document '" ++ filename document
                        ++ lit "' deleted successfully" |})
    /\ (r = HTTPException 500 (lit "Failed to delete document")
        <-> has_file w id = true /\ remove_succeeds env (calls w) = false)
    /\ get_document_route id w'
       = (Ok (HTTPException 404 (lit "Document not found")), w').
Proof.
  intros Hok Hg.
  destruct (delete_document_returns env id w) as (b & w' & E & Hb & _ & _).
  assert (Hnone : ODict.get (ds_documents w') id = None).
  { pose proof (@get_document_after_delete env id w _ w'
                  (ok_ds_documents Hok) E) as Ha.
    unfold get_document, bind, get_world, ret in Ha. now injection Ha. }
  unfold delete_document_route, get_document. run_monad.
  rewrite Hg, E.
  assert (Hget : get_document_route id w'
                 = (Ok (HTTPException 404 (lit "Document not found")), w'))
    by (now rewrite get_document_route_runs, Hnone).
  destruct b; cbn [negb]; eexists _, _; (split; [reflexivity|]).
  - split; [now right|]. split; [|exact Hget].
    split; [discriminate|]. intros H. apply Hb in H. discriminate.
  - split; [now left|]. split; [|exact Hget].
    split; [intros _; now apply Hb | reflexivity].
Qed.

(** ** The question route *)

Lemma ask_question_answers request sid w :
  exists resp w',
    ask_question env request sid w = (Ok (Response resp), w')
    /\ same_stores w w'
    /\ (forall c s, sid = Some (c :: s) -> session_id resp = c :: s)
    /\ session_id resp <> [].
Proof.
  unfold ask_question, session_or_uuid.
  destruct sid as [[|c s]|]; run_monad;
    match goal with
    | |- context [answer_question env request ?x ?y] =>
        destruct (answer_question_session env request x y)
          as (resp & w' & E & Hs);
        pose proof (answer_question_stores env _ _ _ E) as (H1 & H2 & H3);
        rewrite E; exists resp, w'; (split; [reflexivity|]);
        (split; [now repeat split|])
    end.
  - split; [discriminate|]. rewrite Hs. apply session_or_default_nonempty.
  - split; [|rewrite Hs; discriminate].
    intros c' s' [= <- <-]. exact Hs.
  - split; [discriminate|]. rewrite Hs. apply session_or_default_nonempty.
Qed.

End RouteFacts.

(** * The claims *)

(** ** Search: limit, threshold, order *)

(** C1 (as amended). For every query, every limit that is not negative and
    every threshold, the results a search returns are at most [limit], each
    has a similarity that is [>=] the threshold in effect (the caller's, or
    the configured [similarity_threshold] when none is given), and they are
    in non-increasing order of similarity. *)
Theorem search_documents_limit_threshold_order
    (env : Env) (query : pystr) (limit : Z) (threshold : option F64.float)
    (document_ids : option (list pystr)) (w w' : World)
    (rs : list SearchResult) :
  (0 <= limit)%Z ->
  search_documents env query limit threshold document_ids w = (Ok rs, w') ->
  (len rs <= limit)%Z
  /\ Forall (fun r => F64.geb (similarity r)
                        (threshold_in_effect env threshold) = true) rs
  /\ StronglySorted by_similarity rs.
Proof.
  intros Hlimit Hsearch.
  destruct (search_documents_inv _ _ _ _ _ _ Hsearch)
    as (q & found & _ & Hfound & ->).
  assert (Hthr : Forall (fun r => F64.geb (similarity r)
                           (threshold_in_effect env threshold) = true) found).
  { eapply Forall_impl; [|exact Hfound].
    intros r (id & chunks & _ & _ & _ & (_ & _ & _ & Hge & _)). exact Hge. }
  split; [now apply slice_to_length|]. split.
  - apply slice_to_Forall. unfold sort_by_similarity.
    now apply sort_desc_Forall.
  - apply slice_to_sorted. eapply sort_by_similarity_sorted. exact Hthr.
Qed.

(** The configured threshold is 0.4 when the environment sets none. *)
Lemma default_threshold_in_effect :
  threshold_in_effect Sample.env None = F64.c0_4.
Proof. reflexivity. Qed.


Lemma search_documents_limit_threshold_order_witness :
  (0 <= 5)%Z
  /\ fst (search_documents Sample.env (lit "q") 5 None None Sample.world2)
     = Ok sample_results
  /\ List.length sample_results = 2%nat
  /\ ((len sample_results <= 5)%Z
      /\ Forall (fun r => F64.geb (similarity r)
                            (threshold_in_effect Sample.env None) = true)
                sample_results
      /\ StronglySorted by_similarity sample_results).
Proof.
  split; [lia|]. split; [vm_compute; reflexivity|].
  split; [reflexivity|].
  apply (@search_documents_limit_threshold_order Sample.env (lit "q") 5 None
           None Sample.world2
           (snd (search_documents Sample.env (lit "q") 5 None None
                   Sample.world2))).
  - lia.
  - vm_compute. reflexivity.
Defined.

(** C1 as stated fails for a negative limit: [results[:-1]] drops the last
    result only, so a search with [limit = -1] over two matching chunks
    returns one result, which is more than [limit]. *)
Lemma search_documents_negative_limit_counterexample :
  exists rs w',
    search_documents Sample.env (lit "q") (-1) None None Sample.world2
      = (Ok rs, w')
    /\ len rs = 1%Z
    /\ ~ (len rs <= -1)%Z.
Proof.
  eexists _, _. split; [vm_compute; reflexivity|].
  split; [reflexivity|]. vm_compute. congruence.
Qed.

(** ** The segmenter: length of a chunk, whole sentences *)

(** The bound the segmenter keeps.  For every text, no chunk is longer
    than 4000 characters and one sentence of the text together; the contents
    of the chunks are consecutive groups of the sentences, the sentences of
    a group joined by one space, so no sentence is split; and each content
    is at most 4000 characters plus the length of its last sentence.  The
    4000 is the literal of the comparison, not the setting. *)
Theorem chunk_document_length_bound
    (env : Env) (text filename : pystr) :
  let sentences := fst (sentences_and_page (builtin_int env) text) in
  let chunks := chunk_document (builtin_int env) text filename in
  chunk_length_bound 4000 sentences chunks
  /\ exists groups,
       List.concat groups = sentences
       /\ map chunk_content chunks = map (join space) groups
       /\ Forall (fun g => g <> []
                    /\ (len (join space g)
                        <= 4000 + len (trailing_sentence g))%Z) groups.
Proof.
  intros sentences chunks.
  destruct (chunk_document_groups (builtin_int env) text filename)
    as (groups & Hcat & Hmap & Hok).
  fold sentences in Hcat. fold chunks in Hmap. split.
  - rewrite <- Hcat. now apply groups_length_bound.
  - exists groups. split; [exact Hcat|]. split; [exact Hmap|].
    eapply Forall_impl; [|exact Hok].
    intros g (Hne & _ & Hfit). split; [exact Hne|]. now apply fits_bound.
Qed.

(** C7, on the code: the segmenter does not read the configured maximum.
    With [CHUNK_SIZE=10] in the environment, so that [chunk_size] is 10,
    the three sentences of five characters still make one chunk of 17
    characters, which is more than 10 characters and any one sentence
    together: the comparison is against the literal 4000. *)
Theorem chunk_document_ignores_configured_chunk_size :
  let env := Sample.env_small_chunks in
  let text := lit "Aaaa. Bbbb. Cccc." in
  chunk_size (settings env) = 10%Z
  /\ fst (sentences_and_page (builtin_int env) text)
     = [lit "Aaaa."; lit "Bbbb."; lit "Cccc."]
  /\ map (fun c => len (chunk_content c))
         (chunk_document (builtin_int env) text (lit "a.txt")) = [17%Z]
  /\ ~ chunk_length_bound (chunk_size (settings env))
         (fst (sentences_and_page (builtin_int env) text))
         (chunk_document (builtin_int env) text (lit "a.txt")).
Proof.
  split; [reflexivity|]. split; [vm_compute; reflexivity|].
  split; [vm_compute; reflexivity|].
  intros H. vm_compute in H.
  inversion H as [|c cs Hc _]; subst.
  repeat (apply Exists_cons in Hc; destruct Hc as [Hc|Hc];
          [vm_compute in Hc; congruence|]).
  inversion Hc.
Qed.

(** ** The segmenter: positional indices *)

(** C9. For every text, the positional indices of the chunks of one
    segmentation are 0, 1, 2, ... in the order the chunks are emitted:
    strictly increasing, without gap, from 0. *)
Theorem chunk_document_indices
    (py_int : pystr -> option Z) (text filename : pystr) :
  map chunk_index (chunk_document py_int text filename)
  = map (fun i => Some (Z.of_nat i))
        (seq 0 (List.length (chunk_document py_int text filename))).
Proof. apply chunk_document_sequential. Qed.

(** ** Cosine similarity: vectors of different lengths *)

(** C4 (as amended). For every pair of vectors of differing dimensionality,
    the cosine-similarity computation does not raise: the error of the dot
    product is caught inside the method, which returns the similarity
    [0.0]. *)
Theorem cosine_similarity_mismatch_is_zero (vec1 vec2 : list F64.float) :
  List.length vec1 <> List.length vec2 ->
  _cosine_similarity vec1 vec2 = Ok F64.zero.
Proof. apply cosine_similarity_mismatch. Qed.

Lemma cosine_similarity_mismatch_is_zero_witness :
  List.length [F64.one; F64.one] <> List.length [F64.one]
  /\ _cosine_similarity [F64.one; F64.one] [F64.one] = Ok F64.zero.
Proof.
  split; [simpl; lia|].
  apply (@cosine_similarity_mismatch_is_zero [F64.one; F64.one] [F64.one]).
  simpl. lia.
Defined.

(** C4 as stated fails: on [(1.0, 1.0)] and [(1.0)] the denominator is not
    zero, [np.dot] raises, and the method returns [0.0] all the same. *)
Lemma cosine_similarity_mismatch_counterexample :
  List.length [F64.one; F64.one] <> List.length [F64.one]
  /\ np_dot [F64.one; F64.one] [F64.one]
     = Raise (Exn ValueError (lit "shapes not aligned"))
  /\ _cosine_similarity [F64.one; F64.one] [F64.one] = Ok F64.zero
  /\ ~ (exists e, _cosine_similarity [F64.one; F64.one] [F64.one] = Raise e).
Proof.
  split; [simpl; lia|]. split; [reflexivity|]. split; [reflexivity|].
  intros [e He]. vm_compute in He. discriminate.
Qed.

(** ** Ingestion: a document without a valid chunk *)

(** C8. For every file that passes validation and whose extracted text
    yields no chunk surviving the short-content filter, [process_document]
    fails with a [DocumentProcessingError], and the documents and chunks of
    both services are what they were before the call. *)
Theorem process_document_no_chunks_fails
    (env : Env) (file_path filename text : pystr) (w : World) :
  is_valid (validate_file env (calls w) file_path filename) = true ->
  extract_text env (S (calls w)) (doc_type_of env filename) file_path
    = Ok text ->
  valid_chunks (chunk_document (builtin_int env) text filename) = [] ->
  exists e w',
    process_document env file_path filename w = (Raise e, w')
    /\ exn_kind e = DocumentProcessingError
    /\ vertex_rag_service w' = vertex_rag_service w
    /\ ds_documents w' = ds_documents w.
Proof.
  intros Hv He Hc. eexists _, _.
  split; [now apply process_document_no_valid_chunks with (text := text)|].
  now repeat split.
Qed.

Lemma process_document_no_chunks_fails_witness :
  is_valid (validate_file Sample.env (calls Sample.world1) (lit "Hi.")
              (lit "hi.txt")) = true
  /\ extract_text Sample.env (S (calls Sample.world1))
       (doc_type_of Sample.env (lit "hi.txt")) (lit "Hi.") = Ok (lit "Hi.")
  /\ valid_chunks (chunk_document (builtin_int Sample.env) (lit "Hi.")
                     (lit "hi.txt")) = []
  /\ exists e w',
       process_document Sample.env (lit "Hi.") (lit "hi.txt") Sample.world1
         = (Raise e, w')
       /\ exn_kind e = DocumentProcessingError
       /\ vertex_rag_service w' = vertex_rag_service Sample.world1
       /\ ds_documents w' = ds_documents Sample.world1.
Proof.
  split; [reflexivity|]. split; [reflexivity|].
  split; [vm_compute; reflexivity|].
  apply (@process_document_no_chunks_fails Sample.env (lit "Hi.")
           (lit "hi.txt") (lit "Hi.") Sample.world1);
    [reflexivity | reflexivity | vm_compute; reflexivity].
Defined.

(** ** The answer composer never raises *)

(** C3. For every question, [answer_question] returns a [QAResponse]; and
    whenever the body of its [try] raises - because the embedding of the
    question fails, because the search fails, or because the generation
    provider throws - that response has [success = False], the apology as
    answer, no sources, confidence exactly [0.0], and the text of the
    exception as [error]. *)
Theorem answer_question_never_raises
    (env : Env) (request : QARequest) (session_id : option pystr)
    (w : World) :
  let start := time_time env (calls w) in
  let w0 := with_calls w (S (calls w)) in
  exists resp w',
    answer_question env request session_id w = (Ok resp, w')
    /\ (forall e w1,
          answer_question_try env request session_id start w0 = (Raise e, w1)
          -> failure_response resp e)
    /\ (forall e w1,
          generate_embedding env (question request) w0 = (Raise e, w1) ->
          failure_response resp
            (Exn SearchError (lit "Search failed: " ++ str_of_exn e)))
    /\ (forall e w1,
          search_documents env (question request) (max_sources request)
            None None w0 = (Raise e, w1) ->
          failure_response resp e)
    /\ (forall rs w1 cs e,
          search_documents env (question request) (max_sources request)
            None None w0 = (Ok rs, w1) ->
          build_citations env rs [] = Ok cs ->
          client_generate_content env (calls w1)
            (prompt_of (context_text_of rs) (question request)) = Raise e ->
          failure_response resp e).
Proof.
  intros start w0.
  assert (Hmain : exists resp w',
             answer_question env request session_id w = (Ok resp, w')
             /\ forall e w1,
                  answer_question_try env request session_id start w0
                    = (Raise e, w1) -> failure_response resp e).
  { unfold answer_question. unfold bind at 1, next_call at 1.
    fold start. fold w0. unfold try_except.
    destruct (answer_question_try env request session_id start w0)
      as [[resp|e] w1] eqn:E.
    - exists resp, w1. split; [reflexivity|]. discriminate.
    - destruct (answer_question_except_returns env session_id start e w1)
        as (resp & Er & Hr).
      exists resp. eexists. split; [exact Er|].
      intros e' w1' [= <- <-]. exact Hr. }
  destruct Hmain as (resp & w' & Ea & Hfail).
  exists resp, w'. split; [exact Ea|]. split; [exact Hfail|].
  split; [|split].
  - intros e w1 E. eapply Hfail.
    apply answer_question_try_search_failure.
    apply search_documents_embedding_failure. exact E.
  - intros e w1 E. eapply Hfail.
    apply answer_question_try_search_failure. exact E.
  - intros rs w1 cs e E1 E2 E3. eapply Hfail.
    eapply answer_question_try_generation_failure; eauto.
Qed.

(** The generation provider throws: the degraded answer. *)
Example answer_question_generation_failure_example :
  exists resp w',
    answer_question Sample.env_no_generation
      {| question := lit "q"; max_sources := 5 |} None Sample.world2
      = (Ok resp, w')
    /\ failure_response resp (Exn ProviderError (lit "quota exceeded")).
Proof.
  eexists _, _. split; [vm_compute; reflexivity|].
  repeat split; vm_compute; reflexivity.
Qed.

(** The embedding provider throws on the question. *)
Example answer_question_embedding_failure_example :
  exists resp w',
    answer_question Sample.env_no_embedding
      {| question := lit "q"; max_sources := 5 |} (Some (lit "s1"))
      Sample.world2 = (Ok resp, w')
    /\ success resp = false /\ sources resp = []
    /\ confidence resp = F64.zero /\ answer resp = apology
    /\ session_id resp = lit "s1"
    /\ error resp
       = Some (lit "Search failed: RetryError: Failed to generate embedding: 503 service unavailable").
Proof.
  eexists _, _. split; [vm_compute; reflexivity|].
  repeat split; vm_compute; reflexivity.
Qed.

(** ** Chunks without embedding *)

(** C5, on the code: the corpus stores chunks that have no embedding.
    The one chunk of the sample file is handed to [add_document_to_corpus]
    while the provider answers with an empty list of numbers, and while it
    answers with a dict that holds [None] in place of the list.  Neither
    answer raises anything, so the chunk is not dropped: it is stored, with
    an embedding that [search_documents] itself counts as none and with
    [embeddingDimension] 0.  Only the test of the search keeps such a chunk
    out of the results: a search with a working provider returns nothing
    from either corpus. *)
Theorem corpus_stores_chunks_without_embedding :
  let chunks :=
    valid_chunks (chunk_document ascii_int Sample.cat_text (lit "cat.txt")) in
  let document :=
    new_document Sample.env Sample.cat_text (lit "cat.txt") Sample.cat_text
      initial_world in
  List.length chunks = 1%nat
  /\ (exists chunk w',
        add_document_to_corpus Sample.env_empty_embedding document chunks
          initial_world = (Ok true, w')
        /\ ODict.get (chunks_by_document (vertex_rag_service w'))
             (doc_id document) = Some [chunk]
        /\ chunk_content chunk = Sample.cat_text
        /\ embedding chunk = Some []
        /\ no_embedding chunk = true
        /\ (exists m, metadata chunk = Some m
              /\ ODict.get m (lit "embeddingDimension") = Some (MInt 0))
        /\ fst (search_documents Sample.env (lit "q") 5 None None w')
           = Ok [])
  /\ (exists chunk w',
        add_document_to_corpus Sample.env_none_embedding document chunks
          initial_world = (Ok true, w')
        /\ ODict.get (chunks_by_document (vertex_rag_service w'))
             (doc_id document) = Some [chunk]
        /\ chunk_content chunk = Sample.cat_text
        /\ embedding chunk = None
        /\ no_embedding chunk = true
        /\ (exists m, metadata chunk = Some m
              /\ ODict.get m (lit "embeddingDimension") = Some (MInt 0))
        /\ fst (search_documents Sample.env (lit "q") 5 None None w')
           = Ok []).
Proof.
  cbv zeta. split; [vm_compute; reflexivity|].
  split; eexists _, _; (split; [vm_compute; reflexivity|]);
    (split; [vm_compute; reflexivity|]);
    (split; [vm_compute; reflexivity|]);
    (split; [vm_compute; reflexivity|]);
    (split; [vm_compute; reflexivity|]);
    (split; [|vm_compute; reflexivity]);
    eexists; split; vm_compute; reflexivity.
Qed.

(** ** Ingestion when no embedding can be generated *)

(** C10. When embedding generation fails for every chunk of a document,
    [add_document_to_corpus] still returns [True] and leaves the document
    in the corpus with an empty list of chunks, and no later search returns
    a result of that document; [process_document] raises nothing, returns
    the document marked completed with the count of the chunks it handed
    in, and the document is found under its id in both services. *)
Theorem embedding_failure_registers_document_without_chunks
    (env : Env) (file_path filename text : pystr) (w : World) :
  let chunks := valid_chunks (chunk_document (builtin_int env) text filename) in
  let d0 := new_document env file_path filename text w in
  World_ok w ->
  is_valid (validate_file env (calls w) file_path filename) = true ->
  extract_text env (S (calls w)) (doc_type_of env filename) file_path
    = Ok text ->
  chunks <> [] ->
  embedding_fails_for env chunks ->
  (forall document w0,
      exists w1,
        add_document_to_corpus env document chunks w0 = (Ok true, w1)
        /\ ODict.get (documents (vertex_rag_service w1)) (doc_id document)
           = Some document
        /\ ODict.get (chunks_by_document (vertex_rag_service w1))
             (doc_id document) = Some [])
  /\ exists now w',
       let d := completed d0 chunks now in
       process_document env file_path filename w = (Ok d, w')
       /\ status d = lit "completed"
       /\ chunk_count d = len chunks
       /\ ODict.get (ds_documents w') (doc_id d) = Some d
       /\ ODict.get (documents (vertex_rag_service w')) (doc_id d) = Some d
       /\ ODict.get (chunks_by_document (vertex_rag_service w')) (doc_id d)
          = Some []
       /\ forall query limit threshold document_ids w1 rs w2,
            same_stores w' w1 ->
            search_documents env query limit threshold document_ids w1
              = (Ok rs, w2) ->
            Forall (fun r => doc_id (sr_document r) <> doc_id d) rs.
Proof.
  intros chunks d0 Hok Hv He Hne Hfail.
  assert (Hnone : forall d stored,
             Forall (stored_from env d chunks) stored -> stored = []).
  { intros d [|c stored] H; [reflexivity|].
    inversion H as [|? ? Hc _]; subst.
    now apply (stored_from_none Hfail) in Hc. }
  split.
  - intros d w0.
    destruct (add_document_to_corpus_spec env d chunks w0)
      as (stored & w1 & E & Hdocs & Hchunks & _ & _ & Hst & _).
    apply Hnone in Hst. subst stored.
    exists w1. split; [exact E|].
    rewrite Hdocs, Hchunks. split; apply ODictFacts.get_set_same.
  - destruct (process_document_stores env file_path filename w Hv He Hne)
      as (stored & now & w' & E & Hdocs & Hchunks & Hds & Hst).
    apply Hnone in Hst. subst stored.
    exists now, w'. cbv zeta. split; [exact E|].
    split; [reflexivity|]. split; [reflexivity|].
    change (doc_id (completed d0 chunks now)) with (doc_id d0).
    split; [rewrite Hds; apply ODictFacts.get_set_same|].
    split; [fold d0 in Hdocs; rewrite Hdocs;
            apply (ODictFacts.get_set_same _ (doc_id d0))|].
    split; [rewrite Hchunks; apply ODictFacts.get_set_same|].
    intros query limit threshold ids w1 rs w2 (Hr & _ & _) Hs.
    destruct (search_documents_inv _ _ _ _ _ _ Hs)
      as (q & found & Hq & Hfound & ->).
    apply generate_embedding_stores in Hq. destruct Hq as (Hr2 & _ & _).
    rewrite Hr2, Hr in Hfound.
    apply slice_to_Forall. unfold sort_by_similarity.
    apply sort_desc_Forall.
    eapply Forall_impl; [|exact Hfound].
    intros r Hr'. eapply no_hit_of_empty_entry; [| | |exact Hr'].
    + rewrite Hchunks. apply ODictFacts.wf_set. apply Hok.
    + fold d0 in Hdocs. rewrite Hdocs.
      change (doc_id d0) with (doc_id (completed d0 chunks now)) at 2.
      apply well_keyed_set.
      apply well_keyed_set. apply Hok.
    + rewrite Hchunks. apply ODictFacts.get_set_same.
Qed.

(** A provider that always fails makes every embedding call fail. *)
Lemma embedding_always_fails chunks :
  embedding_fails_for Sample.env_no_embedding chunks.
Proof. intros c w _. eexists _, _. reflexivity. Qed.

Lemma embedding_failure_registers_document_without_chunks_witness :
  let env := Sample.env_no_embedding in
  let chunks :=
    valid_chunks (chunk_document (builtin_int env) Sample.cat_text
                    (lit "cat.txt")) in
  World_ok initial_world
  /\ is_valid (validate_file env 0 Sample.cat_text (lit "cat.txt")) = true
  /\ extract_text env 1 (doc_type_of env (lit "cat.txt")) Sample.cat_text
     = Ok Sample.cat_text
  /\ chunks <> []
  /\ embedding_fails_for env chunks
  /\ exists d w',
       process_document env Sample.cat_text (lit "cat.txt") initial_world
         = (Ok d, w')
       /\ status d = lit "completed"
       /\ chunk_count d = 1%Z
       /\ ODict.get (ds_documents w') (doc_id d) = Some d
       /\ ODict.get (chunks_by_document (vertex_rag_service w')) (doc_id d)
          = Some [].
Proof.
  intros env chunks.
  assert (Hne : chunks <> []) by (vm_compute; discriminate).
  split; [exact initial_world_ok|]. split; [reflexivity|].
  split; [reflexivity|]. split; [exact Hne|].
  split; [apply embedding_always_fails|].
  destruct (@embedding_failure_registers_document_without_chunks env
              Sample.cat_text (lit "cat.txt") Sample.cat_text initial_world
              initial_world_ok eq_refl eq_refl Hne
              (embedding_always_fails chunks))
    as (_ & now & w' & E & Hst & Hcount & Hds & _ & Hch & _).
  eexists _, w'. split; [exact E|]. split; [exact Hst|].
  split; [exact Hcount|]. split; [exact Hds | exact Hch].
Defined.

(** ** Deletion *)

(** C2, on the code: the deletion of the only document succeeds and
    removes it from [get_document] and [list_documents], and the next
    search still returns its chunk, because [delete_document] removes
    nothing from the corpus that [search_documents] scans. *)
Theorem delete_document_leaves_chunks_searchable :
  let env := Sample.env in
  let id := Sample.cat_id in
  let w := snd (delete_document env id Sample.world1) in
  fst (get_document id Sample.world1) <> Ok None
  /\ fst (delete_document env id Sample.world1) = Ok true
  /\ fst (get_document id w) = Ok None
  /\ fst (list_documents 0 10 w) = Ok []
  /\ exists r,
       fst (search_documents env (lit "q") 5 None None w) = Ok [r]
       /\ doc_id (sr_document r) = id
       /\ chunk_content (sr_chunk r) = Sample.cat_text.
Proof.
  split; [vm_compute; discriminate|]. split; [vm_compute; reflexivity|].
  split; [vm_compute; reflexivity|]. split; [vm_compute; reflexivity|].
  eexists. split; [vm_compute; reflexivity|].
  split; vm_compute; reflexivity.
Qed.

(** ** Cosine similarity: a vector with itself, the zero vector *)

(** C6 (as amended). For every vector whose sum of squares is computed as
    a normal number from [2^-1021] up to [2^1020] (it neither underflows nor
    overflows), the similarity of the vector with itself is within [2^-49]
    of [1.0].  For every zero vector and every vector whose norm is
    computed as a finite number, the similarity of the two is [0.0], by the
    guard of the denominator, in either order; nothing is divided.  When
    the norm of the other vector overflows, the denominator [0.0 * inf] is
    not a number, the guard does not apply, and the similarity is not a
    number. *)
Theorem cosine_similarity_self_and_zero_vector :
  (forall v,
      normal_in_range (dot_sum v v) = true ->
      exists r,
        _cosine_similarity v v = Ok r
        /\ F64.leb one_minus_tolerance r = true
        /\ F64.leb r one_plus_tolerance = true)
  /\ (forall z w,
        zero_vector z -> F64.is_finite (np_linalg_norm w) = true ->
        F64.eqb (F64.mul (np_linalg_norm z) (np_linalg_norm w)) F64.zero
        = true
        /\ _cosine_similarity z w = Ok F64.zero
        /\ _cosine_similarity w z = Ok F64.zero)
  /\ (forall z w,
        zero_vector z -> F64.is_finite (np_linalg_norm w) = false ->
        List.length z = List.length w ->
        _cosine_similarity z w = Ok F64.nan).
Proof.
  split; [exact cosine_similarity_self|]. split.
  - intros z w Hz Hw.
    destruct (@cosine_similarity_zero_vector z w Hz Hw) as [H1 H2].
    split.
    + apply (@mul_zero_finite _ _ (@norm_zero_vector z Hz) Hw).
    + unfold _cosine_similarity. rewrite H1, H2. now split.
  - intros z w Hz Hw Hlen.
    now apply cosine_similarity_zero_vector_overflow.
Qed.


(** On [(3.0, 4.0)] every step is exact; on [(1.0, 1.0)] the square root
    of 2 is rounded and the similarity is [1 - 2^-52]. *)
Example cosine_similarity_self_examples :
  normal_in_range (dot_sum [three; four] [three; four]) = true
  /\ _cosine_similarity [three; four] [three; four] = Ok F64.one
  /\ normal_in_range (dot_sum [F64.one; F64.one] [F64.one; F64.one]) = true
  /\ _cosine_similarity [F64.one; F64.one] [F64.one; F64.one]
     = Ok (S754_finite false 9007199254740990 (-53))
  /\ zero_vector [F64.zero; S754_zero true]
  /\ _cosine_similarity [F64.zero; S754_zero true] [three; four]
     = Ok F64.zero.
Proof.
  repeat split; try (vm_compute; reflexivity).
  repeat constructor.
Qed.

(** C6 as stated fails where the sum of squares overflows: the norm of
    [(2.0 ** 600)] is computed as infinity, so the similarity of the zero
    vector with it is not [0.0] but not a number, and so is the similarity
    of that vector with itself. *)
Lemma cosine_similarity_overflow_counterexample :
  zero_vector [F64.zero]
  /\ np_linalg_norm [Sample.huge] = S754_infinity false
  /\ _cosine_similarity [F64.zero] [Sample.huge] = Ok F64.nan
  /\ _cosine_similarity [F64.zero] [Sample.huge] <> Ok F64.zero
  /\ _cosine_similarity [Sample.huge] [Sample.huge] = Ok F64.nan
  /\ F64.leb one_minus_tolerance F64.nan = false.
Proof.
  split; [repeat constructor|]. split; [vm_compute; reflexivity|].
  split; [vm_compute; reflexivity|].
  split; [vm_compute; discriminate|].
  split; vm_compute; reflexivity.
Qed.

(** * Further properties of the code *)

(** ** The segmenter *)

(** Every chunk of a segmentation is given one and the same page number:
    the page in force when the last line of the text has been read, that
    is the number of the last page marker of the whole text, whichever part
    of the text the chunk holds.  No chunk comes out with an embedding. *)
Theorem chunk_document_one_page_for_all_chunks
    (py_int : pystr -> option Z) (text filename : pystr) :
  Forall (fun c => page_number c = Some (final_page py_int text)
                   /\ embedding c = None)
         (chunk_document py_int text filename).
Proof. apply chunk_document_pages. Qed.

(** A text of two pages, the first long enough to fill a chunk: both
    chunks are given page 2. *)
Example chunk_document_two_pages :
  let text := lit "--- Page 1 ---
" ++ repeat 97%N 3999 ++ lit ".
--- Page 2 ---
Bbbb." in
  map page_number (chunk_document ascii_int text (lit "a.pdf"))
  = [Some 2%Z; Some 2%Z].
Proof. vm_compute. reflexivity. Qed.

(** The id of the chunk at position [i] is the file name followed by
    [_chunk_] and [i] in decimal, and no two chunks of a segmentation have
    the same id. *)
Theorem chunk_document_ids_follow_position
    (py_int : pystr -> option Z) (text filename : pystr) :
  let chunks := chunk_document py_int text filename in
  map chunk_id chunks
  = map (chunk_id_at filename) (seq 0 (List.length chunks))
  /\ NoDup (map chunk_id chunks).
Proof.
  split; [apply chunk_document_ids | apply chunk_document_ids_distinct].
Qed.

(** The content of a chunk is never empty and neither starts nor ends with
    white space. *)
Theorem chunk_document_contents_are_stripped
    (py_int : pystr -> option Z) (text filename : pystr) :
  Forall (fun c => chunk_content c <> [] /\ clean (chunk_content c)
                   /\ strip (chunk_content c) = chunk_content c)
         (chunk_document py_int text filename).
Proof.
  eapply Forall_impl; [|apply chunk_document_contents_clean].
  intros c H. split; [now apply clean_nonempty|].
  split; [exact H | now apply strip_clean].
Qed.

(** A text of white space only, line ends included, gives no chunk. *)
Theorem chunk_document_blank_text_no_chunk
    (py_int : pystr -> option Z) (text filename : pystr) :
  blank text -> chunk_document py_int text filename = [].
Proof. apply chunk_document_blank. Qed.

Lemma chunk_document_blank_text_no_chunk_witness :
  blank (lit "  
 ")
  /\ chunk_document ascii_int (lit "  
 ") (lit "a.txt") = [].
Proof.
  assert (H : blank (lit "  
 ")) by (repeat constructor).
  split; [exact H|].
  exact (@chunk_document_blank_text_no_chunk ascii_int _ (lit "a.txt") H).
Defined.

(** ** Ingestion *)

(** The chunks that pass the validation loop of [process_document] have at
    least 10 characters between their surrounding white space, a page
    number of at least 1 and a metadata dictionary; each is a chunk of the
    segmentation with its id, content, index and embedding unchanged (the
    indices are not renumbered), and there are no more of them than the
    segmentation gave. *)
Theorem valid_chunks_are_long_enough_and_paged
    (chunk_data : list DocumentChunk) :
  Forall (fun c => (10 <= len (strip (chunk_content c)))%Z
                   /\ (exists p, page_number c = Some p /\ (1 <= p)%Z)
                   /\ metadata c <> None
                   /\ validated_from chunk_data c)
         (valid_chunks chunk_data)
  /\ (List.length (valid_chunks chunk_data) <= List.length chunk_data)%nat.
Proof. split; [apply valid_chunks_spec | apply valid_chunks_length]. Qed.

(** Whatever [process_document] raises is a [DocumentProcessingError] or a
    [FileValidationError], and a run that raises leaves the dictionaries
    of both services and the files of the documents directory as they
    were. *)
Theorem process_document_failure_leaves_no_trace
    (env : Env) (file_path filename : pystr) (w w' : World) (e : exn) :
  process_document env file_path filename w = (Raise e, w') ->
  (exn_kind e = DocumentProcessingError \/ exn_kind e = FileValidationError)
  /\ same_stores w w'.
Proof. apply process_document_raises. Qed.

Lemma process_document_failure_leaves_no_trace_witness :
  let r := process_document Sample.env (lit "Hi.") (lit "hi.txt")
             Sample.world1 in
  r = (Raise (Exn DocumentProcessingError
                (lit "No valid chunks generated from document")), snd r)
  /\ (DocumentProcessingError = DocumentProcessingError
      \/ DocumentProcessingError = FileValidationError)
  /\ same_stores Sample.world1 (snd r).
Proof.
  cbv zeta.
  assert (E : process_document Sample.env (lit "Hi.") (lit "hi.txt")
                Sample.world1
              = (Raise (Exn DocumentProcessingError
                          (lit "No valid chunks generated from document")),
                 snd (process_document Sample.env (lit "Hi.") (lit "hi.txt")
                        Sample.world1)))
    by (vm_compute; reflexivity).
  split; [exact E|].
  exact (@process_document_failure_leaves_no_trace Sample.env (lit "Hi.")
           (lit "hi.txt") Sample.world1 _ _ E).
Defined.

(** A document that [process_document] returns is stored: [get_document]
    finds it under its id, the corpus holds it and an entry of chunks under
    the same id; it is marked completed, has a processing time, counts at
    least one chunk and bears the name of the file. *)
Theorem process_document_returns_a_stored_document
    (env : Env) (file_path name : pystr) (w w' : World) (d : Document) :
  process_document env file_path name w = (Ok d, w') ->
  get_document (doc_id d) w' = (Ok (Some d), w')
  /\ ODict.get (documents (vertex_rag_service w')) (doc_id d) = Some d
  /\ (exists stored,
        ODict.get (chunks_by_document (vertex_rag_service w')) (doc_id d)
          = Some stored)
  /\ status d = lit "completed"
  /\ (1 <= chunk_count d)%Z
  /\ processed_at d <> None
  /\ filename d = name.
Proof.
  intros E.
  destruct (process_document_returns env _ _ _ E)
    as (H1 & H2 & H3 & H4 & H5 & H6 & H7).
  unfold get_document, bind, get_world, ret. rewrite H1. auto 10.
Qed.

Lemma process_document_returns_a_stored_document_witness :
  let r := process_document Sample.env Sample.cat_text (lit "cat.txt")
             initial_world in
  exists d,
    r = (Ok d, Sample.world1)
    /\ doc_id d = Sample.cat_id
    /\ get_document (doc_id d) Sample.world1 = (Ok (Some d), Sample.world1)
    /\ status d = lit "completed"
    /\ (1 <= chunk_count d)%Z.
Proof.
  cbv zeta.
  destruct (process_document Sample.env Sample.cat_text (lit "cat.txt")
              initial_world) as [[d|e] w1] eqn:E;
    [|vm_compute in E; discriminate].
  assert (Hw : w1 = Sample.world1)
    by (unfold Sample.world1; now rewrite E).
  assert (Hid : doc_id d = Sample.cat_id)
    by (vm_compute in E; injection E as <- _; reflexivity).
  subst w1. exists d. split; [reflexivity|]. split; [exact Hid|].
  destruct (@process_document_returns_a_stored_document Sample.env
              Sample.cat_text (lit "cat.txt") initial_world Sample.world1 d E)
    as (H1 & _ & _ & H4 & H5 & _).
  auto.
Defined.
(** ** The document service: deletion, listing, counting *)

(** [delete_document] returns on every id.  It returns [False] exactly
    when the JSON file of the document is there and cannot be removed;
    even then the entry of the dictionary is gone, so [get_document] finds
    nothing under the id afterwards.  When it returns [True] the file is
    gone too. *)
Theorem delete_document_result
    (env : Env) (id : pystr) (w : World) :
  World_ok w ->
  exists b w',
    delete_document env id w = (Ok b, w')
    /\ (b = false
        <-> has_file w id = true /\ remove_succeeds env (calls w) = false)
    /\ (b = true -> has_file w' id = false)
    /\ get_document id w' = (Ok None, w')
    /\ World_ok w'.
Proof.
  intros Hok. destruct (delete_document_returns env id w)
    as (b & w' & E & Hb & Hf & _).
  exists b, w'. split; [exact E|]. split; [exact Hb|]. split; [exact Hf|].
  split.
  - eapply get_document_after_delete; [|exact E]. now destruct Hok.
  - eapply delete_document_ok; eauto.
Qed.

Lemma delete_document_result_witness :
  World_ok Sample.world1
  /\ exists w',
       delete_document Sample.env Sample.cat_id Sample.world1 = (Ok true, w')
       /\ has_file Sample.world1 Sample.cat_id = true
       /\ has_file w' Sample.cat_id = false
       /\ get_document Sample.cat_id w' = (Ok None, w').
Proof.
  split; [exact sample_world1_ok|].
  destruct (@delete_document_result Sample.env Sample.cat_id Sample.world1
              sample_world1_ok) as (b & w' & E & Hb & Hf & Hg & _).
  assert (Hb' : b = true).
  { destruct b; [reflexivity|]. destruct (proj1 Hb eq_refl) as [_ H].
    vm_compute in H. discriminate. }
  subst b. exists w'. split; [exact E|]. split; [vm_compute; reflexivity|].
  split; [now apply Hf | exact Hg].
Defined.

(** Deleting an id that is not stored and has no file returns [True] and
    changes nothing: the method does not tell an unknown id from a
    deleted document. *)
Theorem delete_document_unknown_id_is_true
    (env : Env) (id : pystr) (w : World) :
  ODict.mem (ds_documents w) id = false ->
  has_file w id = false ->
  delete_document env id w = (Ok true, w).
Proof. apply delete_document_unknown. Qed.

Lemma delete_document_unknown_id_is_true_witness :
  ODict.mem (ds_documents Sample.world1) (lit "nothing") = false
  /\ has_file Sample.world1 (lit "nothing") = false
  /\ delete_document Sample.env (lit "nothing") Sample.world1
     = (Ok true, Sample.world1).
Proof.
  assert (H1 : ODict.mem (ds_documents Sample.world1) (lit "nothing") = false)
    by (vm_compute; reflexivity).
  assert (H2 : has_file Sample.world1 (lit "nothing") = false)
    by (vm_compute; reflexivity).
  split; [exact H1|]. split; [exact H2|].
  exact (@delete_document_unknown_id_is_true Sample.env (lit "nothing")
           Sample.world1 H1 H2).
Defined.

(** A page of [list_documents], for a [skip] and a [limit] that are not
    negative: at most [limit] documents, the newest upload first, each of
    them a document of the dictionary; the call changes nothing. *)
Theorem list_documents_page_is_bounded_and_ordered
    (skip limit : Z) (w w' : World) (docs : list Document) :
  (0 <= skip)%Z -> (0 <= limit)%Z ->
  list_documents skip limit w = (Ok docs, w') ->
  w' = w
  /\ (len docs <= limit)%Z
  /\ StronglySorted newest_first docs
  /\ Forall (fun d => In d (ODict.values (ds_documents w))) docs.
Proof. apply list_documents_page. Qed.

Lemma list_documents_page_is_bounded_and_ordered_witness :
  (0 <= 0)%Z /\ (0 <= 1)%Z
  /\ exists d,
       list_documents 0 1 Sample.world2 = (Ok [d], Sample.world2)
       /\ doc_id d = lit "doc-9"
       /\ (len [d] <= 1)%Z
       /\ StronglySorted newest_first [d].
Proof.
  split; [lia|]. split; [lia|].
  destruct (list_documents 0 1 Sample.world2) as [[[|d [|]]|] w1] eqn:E;
    try (vm_compute in E; discriminate).
  destruct (@list_documents_page_is_bounded_and_ordered 0 1 Sample.world2
              w1 [d] ltac:(lia) ltac:(lia) E) as (-> & H1 & H2 & _).
  exists d. split; [reflexivity|]. split; [|split; assumption].
  vm_compute in E. injection E as <-. reflexivity.
Defined.

(** Consecutive pages make up the longer page: the [k] documents from
    [skip] followed by the [m] documents from [skip + k] are the [k + m]
    documents from [skip]. *)
Theorem list_documents_consecutive_pages
    (skip k m : Z) (w : World) :
  (0 <= skip)%Z -> (0 <= k)%Z -> (0 <= m)%Z ->
  exists p1 p2,
    list_documents skip k w = (Ok p1, w)
    /\ list_documents (skip + k) m w = (Ok p2, w)
    /\ list_documents skip (k + m) w = (Ok (p1 ++ p2), w).
Proof. apply list_documents_pages. Qed.

Lemma list_documents_consecutive_pages_witness :
  (0 <= 0)%Z /\ (0 <= 1)%Z /\ (0 <= 1)%Z
  /\ exists p1 p2,
       list_documents 0 1 Sample.world2 = (Ok p1, Sample.world2)
       /\ list_documents (0 + 1) 1 Sample.world2 = (Ok p2, Sample.world2)
       /\ list_documents 0 (1 + 1) Sample.world2
          = (Ok (p1 ++ p2), Sample.world2).
Proof.
  split; [lia|]. split; [lia|]. split; [lia|].
  exact (@list_documents_consecutive_pages 0 1 1 Sample.world2
           ltac:(lia) ltac:(lia) ltac:(lia)).
Defined.

(** With a limit that reaches [get_document_count], the page from 0 holds
    every stored document, and as many documents as the count says. *)
Theorem list_documents_reaches_every_document
    (limit : Z) (w : World) :
  (len (ds_documents w) <= limit)%Z ->
  exists docs,
    list_documents 0 limit w = (Ok docs, w)
    /\ get_document_count w = (Ok (len docs), w)
    /\ forall id d, ODict.get (ds_documents w) id = Some d -> In d docs.
Proof. apply list_documents_all. Qed.

Lemma list_documents_reaches_every_document_witness :
  (len (ds_documents Sample.world2) <= 10)%Z
  /\ exists docs,
       list_documents 0 10 Sample.world2 = (Ok docs, Sample.world2)
       /\ get_document_count Sample.world2 = (Ok (len docs), Sample.world2)
       /\ len docs = 2%Z.
Proof.
  assert (H : (len (ds_documents Sample.world2) <= 10)%Z)
    by (vm_compute; discriminate).
  split; [exact H|].
  destruct (@list_documents_reaches_every_document 10 Sample.world2 H)
    as (docs & E & Ec & _).
  exists docs. split; [exact E|]. split; [exact Ec|].
  assert (Hc : get_document_count Sample.world2 = (Ok 2%Z, Sample.world2))
    by (vm_compute; reflexivity).
  rewrite Hc in Ec. apply (f_equal fst) in Ec. cbn [fst] in Ec.
  injection Ec as Ec. symmetry. exact Ec.
Defined.

(** Ingestion and deletion keep the dictionaries of the two services well
    formed: a document is stored under its own id, in the document service
    and in the corpus, in every world they lead to. *)
Theorem services_keep_documents_under_their_ids
    (env : Env) (w : World) :
  World_ok w ->
  (forall file_path filename,
      World_ok (snd (process_document env file_path filename w)))
  /\ (forall id, World_ok (snd (delete_document env id w)))
  /\ (forall document chunks,
        World_ok (snd (add_document_to_corpus env document chunks w))).
Proof.
  intros Hok. split; [|split].
  - intros. now apply process_document_snd_ok.
  - intros. eapply delete_document_ok; [apply surjective_pairing | exact Hok].
  - intros. eapply add_document_to_corpus_ok;
      [apply surjective_pairing | exact Hok].
Qed.

Lemma services_keep_documents_under_their_ids_witness :
  World_ok initial_world
  /\ World_ok (snd (process_document Sample.env Sample.cat_text
                      (lit "cat.txt") initial_world)).
Proof.
  split; [exact initial_world_ok|].
  exact (proj1 (@services_keep_documents_under_their_ids Sample.env
                  initial_world initial_world_ok)
           Sample.cat_text (lit "cat.txt")).
Defined.
(** ** The retrieval service: embeddings *)

(** When [generate_embedding] raises, three attempts have been made and
    each has failed, and what is raised is the [RetryError] of the retry
    wrapper, not the [SearchError] of the method's own [except] clause. *)
Theorem generate_embedding_gives_up_after_three_attempts
    (env : Env) (text : pystr) (w w' : World) (e : exn) :
  generate_embedding env text w = (Raise e, w') ->
  exn_kind e = RetryError
  /\ (forall j, (j < 3)%nat -> attempt_fails env (j + calls w) text)
  /\ w' = with_calls w (4 + calls w).
Proof. apply generate_embedding_raises. Qed.

Lemma generate_embedding_gives_up_after_three_attempts_witness :
  let r := generate_embedding Sample.env_no_embedding (lit "q")
             initial_world in
  exists e,
    r = (Raise e, with_calls initial_world 4)
    /\ exn_kind e = RetryError
    /\ attempt_fails Sample.env_no_embedding 2 (lit "q").
Proof.
  cbv zeta.
  destruct (generate_embedding Sample.env_no_embedding (lit "q")
              initial_world) as [[v|e] w'] eqn:E;
    [vm_compute in E; discriminate|].
  destruct (@generate_embedding_gives_up_after_three_attempts
              Sample.env_no_embedding (lit "q") initial_world w' e E)
    as (Hk & Hf & ->).
  exists e. split; [reflexivity|]. split; [exact Hk|].
  exact (Hf 2%nat ltac:(lia)).
Defined.

(** When [generate_embedding] returns, what it returns is what the first
    attempt, of at most three, that did not raise returned: the numbers of
    the provider's answer, or [None] where the answer is a dict that holds
    [None] in their place; the attempts before it raised. *)
Theorem generate_embedding_returns_first_answer
    (env : Env) (text : pystr) (w w' : World)
    (v : option (list F64.float)) :
  generate_embedding env text w = (Ok v, w') ->
  exists k,
    (k < 3)%nat
    /\ attempt_outcome env (k + calls w) text = Ok v
    /\ (forall j, (j < k)%nat -> attempt_fails env (j + calls w) text)
    /\ w' = with_calls w (S k + calls w).
Proof. apply generate_embedding_returns. Qed.

Lemma generate_embedding_returns_first_answer_witness :
  generate_embedding Sample.env (lit "q") initial_world
    = (Ok (Some [F64.one; F64.zero]), with_calls initial_world 1)
  /\ exists k,
       (k < 3)%nat
       /\ attempt_outcome Sample.env (k + 0) (lit "q")
          = Ok (Some [F64.one; F64.zero]).
Proof.
  assert (E : generate_embedding Sample.env (lit "q") initial_world
              = (Ok (Some [F64.one; F64.zero]), with_calls initial_world 1))
    by (vm_compute; reflexivity).
  split; [exact E|].
  destruct (@generate_embedding_returns_first_answer Sample.env (lit "q")
              initial_world _ _ E) as (k & Hk & Ho & _).
  exists k. split; [exact Hk | exact Ho].
Defined.

(** A dict that holds [None] under [values] is returned as [None] by the
    first attempt; an object whose attribute [values] is [None] makes every
    attempt raise. *)
Example generate_embedding_none_answers :
  generate_embedding Sample.env_none_embedding (lit "q") initial_world
    = (Ok None, with_calls initial_world 1)
  /\ exists e,
       generate_embedding
         (Sample.make_env default_settings
            (fun _ _ =>
               Ok {| attr_embeddings := Some [ItemValues None];
                     attr_embedding := None; as_dict := None;
                     as_list := None |})
            Sample.generate_fixed) (lit "q") initial_world
       = (Raise e, with_calls initial_world 4)
       /\ exn_kind e = RetryError.
Proof.
  split; [vm_compute; reflexivity|].
  eexists. split; vm_compute; reflexivity.
Qed.

(** ** The retrieval service: the corpus *)

(** [add_document_to_corpus] always returns [True]: its [return False] is
    never reached.  It replaces the entry of the document in both
    dictionaries of the corpus, stores no more chunks than it is given and
    leaves every other entry of the corpus, and the document service, as
    they were. *)
Theorem add_document_to_corpus_replaces_one_entry
    (env : Env) (document : Document) (chunks : list DocumentChunk)
    (w : World) :
  exists stored w',
    add_document_to_corpus env document chunks w = (Ok true, w')
    /\ ODict.get (documents (vertex_rag_service w')) (doc_id document)
       = Some document
    /\ ODict.get (chunks_by_document (vertex_rag_service w'))
         (doc_id document) = Some stored
    /\ (List.length stored <= List.length chunks)%nat
    /\ (forall id, id <> doc_id document ->
          ODict.get (documents (vertex_rag_service w')) id
          = ODict.get (documents (vertex_rag_service w)) id
          /\ ODict.get (chunks_by_document (vertex_rag_service w')) id
             = ODict.get (chunks_by_document (vertex_rag_service w)) id)
    /\ ds_documents w' = ds_documents w
    /\ doc_files w' = doc_files w.
Proof. apply add_document_to_corpus_frame. Qed.

(** What [add_document_to_corpus] stores under the id of the document.
    Every stored chunk is one of the chunks handed in, for which a call of
    [generate_embedding] on its content returned: it has the id, content,
    page and index of that chunk, what the call returned as its embedding,
    and a metadata dictionary in which the six keys of the enrichment are
    written - [embeddingDimension] is the length of the embedding, 0 when
    there is none - and every other key has the value it had.  And every
    chunk handed in is stored in that form, unless its call raised. *)
Theorem stored_chunk_metadata
    (env : Env) (document : Document) (chunks : list DocumentChunk)
    (w : World) :
  exists stored w',
    add_document_to_corpus env document chunks w = (Ok true, w')
    /\ ODict.get (chunks_by_document (vertex_rag_service w'))
         (doc_id document) = Some stored
    /\ Forall (fun c =>
         exists chunk emb w1 w2,
           In chunk chunks
           /\ generate_embedding env (chunk_content chunk) w1 = (Ok emb, w2)
           /\ chunk_id c = chunk_id chunk
           /\ chunk_content c = chunk_content chunk
           /\ page_number c = page_number chunk
           /\ chunk_index c = chunk_index chunk
           /\ embedding c = emb
           /\ exists m,
                metadata c = Some m
                /\ ODict.get m (lit "documentId")
                   = Some (MStr (doc_id document))
                /\ ODict.get m (lit "documentTitle")
                   = Some (MStr (title document))
                /\ ODict.get m (lit "documentType")
                   = Some (MStr (DocumentType_value (doc_type document)))
                /\ ODict.get m (lit "uploadDate")
                   = Some (MStr (isoformat env (uploaded_at document)))
                /\ ODict.get m (lit "embeddingModel")
                   = Some (MStr (embedding_model (settings env)))
                /\ ODict.get m (lit "embeddingDimension")
                   = Some (MInt (match emb with
                                 | Some v => len v
                                 | None => 0%Z
                                 end))
                /\ forall m0 k,
                     metadata chunk = Some m0 -> ~ In k enrichment_keys ->
                     ODict.get m k = ODict.get m0 k) stored
    /\ Forall (fun chunk =>
         exists w1,
           (exists e w2,
               generate_embedding env (chunk_content chunk) w1
               = (Raise e, w2))
           \/ (exists emb w2 c,
                 generate_embedding env (chunk_content chunk) w1
                 = (Ok emb, w2)
                 /\ In c stored
                 /\ chunk_id c = chunk_id chunk
                 /\ chunk_content c = chunk_content chunk
                 /\ embedding c = emb)) chunks.
Proof.
  destruct (add_document_to_corpus_spec env document chunks w)
    as (stored & w' & E & _ & Hchunks & _ & _ & Hst & Hk).
  exists stored, w'. split; [exact E|].
  split; [rewrite Hchunks; apply ODictFacts.get_set_same|]. split.
  - eapply Forall_impl; [|exact Hst].
    intros c (chunk & emb & w1 & w2 & Hin & Eg & ->).
    exists chunk, emb, w1, w2. split; [exact Hin|]. split; [exact Eg|].
    cbn [enriched chunk_id chunk_content page_number chunk_index embedding
         metadata].
    repeat (split; [reflexivity|]).
    exists (enrich_metadata env document chunk emb).
    split; [reflexivity|].
    destruct (enrich_metadata_written env document chunk emb)
      as (H1 & H2 & H3 & H4 & H5 & H6).
    repeat (split; [assumption|]).
    intros m0 k Hm Hk'. now apply enrich_metadata_kept.
  - eapply Forall_impl; [|exact Hk].
    intros chunk (w1 & [H|(emb & w2 & Eg & Hin)]); exists w1; [now left|].
    right. exists emb, w2, (enriched env document chunk emb).
    split; [exact Eg|]. split; [exact Hin|]. now repeat split.
Qed.

(** ** The retrieval service: search *)

(** A search raises exactly when the embedding of the query raises or is
    returned as [None].  What it raises is then a [SearchError] whose
    message is [Search failed: ] followed by the text of the [RetryError],
    or by the text of the [TypeError] of [len(None)], which the log line
    after the call runs into. *)
Theorem search_documents_raises_only_for_the_query_embedding
    (env : Env) (query : pystr) (limit : Z) (threshold : option F64.float)
    (document_ids : option (list pystr)) (w w' : World) (e : exn) :
  search_documents env query limit threshold document_ids w = (Raise e, w')
  <-> (exists e0,
          generate_embedding env query w = (Raise e0, w')
          /\ exn_kind e0 = RetryError
          /\ e = Exn SearchError (lit "Search failed: " ++ str_of_exn e0))
      \/ (generate_embedding env query w = (Ok None, w')
          /\ e = Exn SearchError
                   (lit "Search failed: "
                      ++ lit "object of type 'NoneType' has no len()")).
Proof.
  split; [apply search_documents_raises|].
  intros [(e0 & E & _ & ->)|(E & ->)].
  - now apply search_documents_embedding_failure.
  - now apply search_documents_none_embedding.
Qed.

(** A provider that answers the query with [None] in place of the numbers:
    the search raises, the question is answered with the apology. *)
Example search_documents_none_query_embedding :
  fst (search_documents Sample.env_none_embedding (lit "q") 5 None None
         Sample.world2)
  = Raise (Exn SearchError
             (lit "Search failed: object of type 'NoneType' has no len()")).
Proof. vm_compute. reflexivity. Qed.

(** A search, and an answer, read the corpus and write nothing: the
    dictionaries of both services and the files are the same afterwards,
    whether the call returns or raises. *)
Theorem search_and_answer_write_nothing
    (env : Env) (query : pystr) (limit : Z) (threshold : option F64.float)
    (document_ids : option (list pystr)) (request : QARequest)
    (session_id : option pystr) (w : World) :
  same_stores w
    (snd (search_documents env query limit threshold document_ids w))
  /\ same_stores w (snd (answer_question env request session_id w)).
Proof.
  split.
  - eapply search_documents_stores. apply surjective_pairing.
  - eapply answer_question_stores. apply surjective_pairing.
Qed.

(** An empty list of document ids filters nothing: the search is the one
    without a list. *)
Theorem search_documents_empty_id_list_is_no_filter
    (env : Env) (query : pystr) (limit : Z) (threshold : option F64.float)
    (w : World) :
  search_documents env query limit threshold (Some []) w
  = search_documents env query limit threshold None w.
Proof. apply search_documents_empty_filter. Qed.

(** Where the results of a search come from.  Each result carries a
    document of the corpus, stored under its id, and a chunk of that
    document's entry; the chunk has an embedding, the similarity of the
    result is the cosine similarity of the embedding of the query and that
    embedding, it is a number (never a NaN), and the relevance score is the
    same value.  With a list of ids that is not empty, the document is one
    of the list. *)
Theorem search_documents_results_come_from_the_corpus
    (env : Env) (query : pystr) (limit : Z) (threshold : option F64.float)
    (document_ids : option (list pystr)) (w w' : World)
    (rs : list SearchResult) :
  World_ok w ->
  search_documents env query limit threshold document_ids w = (Ok rs, w') ->
  exists q,
    generate_embedding env query w = (Ok (Some q), w')
    /\ Forall (fun r =>
         let id := doc_id (sr_document r) in
         ODict.get (documents (vertex_rag_service w)) id
           = Some (sr_document r)
         /\ (exists chunks,
               ODict.get (chunks_by_document (vertex_rag_service w)) id
                 = Some chunks
               /\ In (sr_chunk r) chunks)
         /\ (exists v, embedding (sr_chunk r) = Some v
               /\ _cosine_similarity q v = Ok (similarity r))
         /\ relevance_score r = similarity r
         /\ F64.is_nan (similarity r) = false
         /\ (forall x l, document_ids = Some (x :: l) -> In id (x :: l))) rs.
Proof. apply search_documents_provenance. Qed.

Lemma search_documents_results_come_from_the_corpus_witness :
  World_ok Sample.world2
  /\ exists r w',
       search_documents Sample.env (lit "q") 5 None
         (Some [Sample.cat_id]) Sample.world2 = (Ok [r], w')
       /\ doc_id (sr_document r) = Sample.cat_id
       /\ F64.is_nan (similarity r) = false
       /\ relevance_score r = similarity r.
Proof.
  split; [exact sample_world2_ok|].
  destruct (search_documents Sample.env (lit "q") 5 None
              (Some [Sample.cat_id]) Sample.world2)
    as [[[|r [|]]|] w'] eqn:E; try (vm_compute in E; discriminate).
  destruct (@search_documents_results_come_from_the_corpus Sample.env
              (lit "q") 5 None (Some [Sample.cat_id]) Sample.world2 w' [r]
              sample_world2_ok E) as (q & _ & H).
  inversion H as [|? ? (_ & _ & _ & Hrel & Hnan & Hin) _]; subst.
  exists r, w'. split; [reflexivity|]. split; [|split; assumption].
  destruct (Hin _ _ eq_refl) as [Hid|[]]. now symmetry.
Defined.
(** ** The answer composer *)

(** An answer built from sources.  For a request of 0 to 10 sources, when
    the search, the citations and the generation all succeed,
    [answer_question] returns a response with [success = True] and no
    error; its answer is the text of the provider, or the fixed phrase
    when the provider gave none, and is never empty; its sources are one
    citation for each search result, in the order of the results, no more
    than [max_sources]; its confidence is the one of the table for that
    number of sources; its session id is the caller's, or [default]. *)
Theorem answer_question_answers_from_the_sources
    (env : Env) (request : QARequest) (sid : option pystr)
    (w w1 : World) (rs : list SearchResult) (cs : list CitationSource)
    (response : GenResponse) :
  (0 <= max_sources request <= 10)%Z ->
  answered env request (with_calls w (S (calls w))) rs cs response w1 ->
  exists resp w',
    answer_question env request sid w = (Ok resp, w')
    /\ success resp = true
    /\ error resp = None
    /\ answer resp = answer_text_of response
    /\ answer resp <> []
    /\ sources resp = cs
    /\ Forall2 cites rs cs
    /\ (len cs <= max_sources request)%Z
    /\ confidence resp = confidence_table (List.length cs)
    /\ session_id resp = session_or_default sid.
Proof.
  intros Hm Ha.
  destruct (answered_sources Ha ltac:(lia)) as [Hc Hl].
  eexists _, _.
  split; [exact (@answer_question_answered env request sid w rs cs
                   response w1 Hm Ha)|].
  cbn [success error answer sources confidence session_id].
  repeat split; try assumption. apply answer_text_nonempty.
Qed.

Lemma answer_question_answers_from_the_sources_witness :
  let request := {| question := lit "q"; max_sources := 5 |} in
  (0 <= max_sources request <= 10)%Z
  /\ exists rs cs w1 resp w',
       answered Sample.env request
         (with_calls Sample.world2 (S (calls Sample.world2))) rs cs
         (GenWithText (Some (lit "Una respuesta."))) w1
       /\ answer_question Sample.env request None Sample.world2
          = (Ok resp, w')
       /\ success resp = true
       /\ answer resp = lit "Una respuesta."
       /\ List.length (sources resp) = 2%nat
       /\ confidence resp = c0_6.
Proof.
  cbv zeta. split; [cbn; lia|].
  set (request := {| question := lit "q"; max_sources := 5 |}).
  set (w0 := with_calls Sample.world2 (S (calls Sample.world2))).
  destruct (search_documents Sample.env (question request)
              (max_sources request) None None w0) as [[rs|e] w1] eqn:E1;
    [|vm_compute in E1; discriminate].
  destruct (build_citations Sample.env rs []) as [cs|e] eqn:E2.
  2:{ apply (f_equal fst) in E1. cbn [fst] in E1. vm_compute in E1.
      injection E1 as <-. vm_compute in E2. discriminate. }
  assert (Hlen : List.length cs = 2%nat).
  { apply (f_equal fst) in E1. cbn [fst] in E1. vm_compute in E1.
    injection E1 as <-. vm_compute in E2. now injection E2 as <-. }
  assert (Ha : answered Sample.env request w0 rs cs
                 (GenWithText (Some (lit "Una respuesta."))) w1).
  { constructor; [exact E1 | exact E2 | reflexivity]. }
  destruct (@answer_question_answers_from_the_sources Sample.env request
              None Sample.world2 w1 rs cs _ ltac:(cbn; lia) Ha)
    as (resp & w' & E & Hs & _ & Hans & _ & Hsrc & _ & _ & Hconf & _).
  exists rs, cs, w1, resp, w'. split; [exact Ha|]. split; [exact E|].
  split; [exact Hs|]. split; [exact Hans|].
  split; [now rewrite Hsrc|]. now rewrite Hconf, Hlen.
Defined.

(** A response says [success = True] only when the search, the citations
    and the generation all succeeded; its sources are then the citations
    of the search results and its confidence the one computed from their
    number. *)
Theorem answer_question_success_means_every_stage_succeeded
    (env : Env) (request : QARequest) (sid : option pystr)
    (w w' : World) (resp : QAResponse) :
  answer_question env request sid w = (Ok resp, w') ->
  success resp = true ->
  exists rs cs response w1,
    answered env request (with_calls w (S (calls w))) rs cs response w1
    /\ answer resp = answer_text_of response
    /\ sources resp = cs
    /\ Forall2 cites rs cs
    /\ confidence resp = confidence_of cs
    /\ error resp = None.
Proof.
  intros E Hs.
  destruct (answer_question_success env _ _ _ E Hs)
    as (rs & cs & response & w1 & Ha & H1 & H2 & H3 & _ & H5).
  assert (Hc : Forall2 cites rs cs).
  { destruct Ha as [_ E2 _].
    destruct (build_citations_spec env _ _ E2) as (new & -> & Hc).
    exact Hc. }
  exists rs, cs, response, w1. auto 10.
Qed.

Lemma answer_question_success_means_every_stage_succeeded_witness :
  let request := {| question := lit "q"; max_sources := 5 |} in
  exists resp w',
    answer_question Sample.env request None Sample.world2 = (Ok resp, w')
    /\ success resp = true
    /\ exists rs cs response w1,
         answered Sample.env request
           (with_calls Sample.world2 (S (calls Sample.world2))) rs cs
           response w1
         /\ sources resp = cs.
Proof.
  cbv zeta.
  destruct (answer_question Sample.env
              {| question := lit "q"; max_sources := 5 |} None Sample.world2)
    as [[resp|e] w'] eqn:E; [|vm_compute in E; discriminate].
  assert (Hs : success resp = true).
  { apply (f_equal fst) in E. cbn [fst] in E. vm_compute in E.
    now injection E as <-. }
  exists resp, w'. split; [reflexivity|]. split; [exact Hs|].
  destruct (@answer_question_success_means_every_stage_succeeded Sample.env
              _ None Sample.world2 w' resp E Hs)
    as (rs & cs & response & w1 & Ha & _ & Hsrc & _).
  exists rs, cs, response, w1. split; [exact Ha | exact Hsrc].
Defined.

(** The confidence computed from up to 10 sources, as
    [min(len / 3, 1.0) * 0.9] rounds: [0.0] for none, [0.3] for one, [0.6]
    for two, [0.9] from three on; always within the bounds the response
    model checks. *)
Theorem confidence_by_number_of_sources (cs : list CitationSource) :
  (List.length cs <= 10)%nat ->
  confidence_of cs = confidence_table (List.length cs)
  /\ F64.geb (confidence_of cs) F64.zero = true
  /\ F64.leb (confidence_of cs) F64.c0_9 = true.
Proof.
  intros H. rewrite confidence_of_table by exact H.
  split; [reflexivity|].
  destruct (List.length cs) as [|[|[|n]]]; split; reflexivity.
Qed.

Lemma confidence_by_number_of_sources_witness :
  (List.length (@nil CitationSource) <= 10)%nat
  /\ confidence_of [] = F64.zero.
Proof.
  split; [cbn; lia|].
  exact (proj1 (@confidence_by_number_of_sources [] ltac:(cbn; lia))).
Defined.

(** ** Cosine similarity *)

(** The similarity of two vectors does not depend on their order. *)
Theorem cosine_similarity_is_symmetric (a b : list F64.float) :
  _cosine_similarity a b = _cosine_similarity b a.
Proof. apply cosine_similarity_comm. Qed.

(** The similarity of a vector with itself is within [2^-49] of [1.0]
    whenever its sum of squares is computed as a normal number from
    [2^-1021] up to [2^1020], that is without underflow or overflow. *)
Theorem cosine_similarity_of_a_vector_with_itself (v : list F64.float) :
  normal_in_range (dot_sum v v) = true ->
  exists r,
    _cosine_similarity v v = Ok r
    /\ F64.leb one_minus_tolerance r = true
    /\ F64.leb r one_plus_tolerance = true.
Proof. apply cosine_similarity_self. Qed.

Lemma cosine_similarity_of_a_vector_with_itself_witness :
  normal_in_range (dot_sum [F64.one; F64.one] [F64.one; F64.one]) = true
  /\ exists r,
       _cosine_similarity [F64.one; F64.one] [F64.one; F64.one] = Ok r
       /\ F64.leb one_minus_tolerance r = true
       /\ F64.leb r one_plus_tolerance = true.
Proof.
  split; [vm_compute; reflexivity|].
  apply (@cosine_similarity_of_a_vector_with_itself [F64.one; F64.one]).
  vm_compute. reflexivity.
Defined.

(** The similarity of a vector of zeros with a vector whose norm is
    computed as a finite number is [0.0] in either order, by the test of
    the denominator: nothing is divided. *)
Theorem cosine_similarity_of_the_zero_vector (z w : list F64.float) :
  zero_vector z -> F64.is_finite (np_linalg_norm w) = true ->
  F64.eqb (F64.mul (np_linalg_norm z) (np_linalg_norm w)) F64.zero = true
  /\ _cosine_similarity z w = Ok F64.zero
  /\ _cosine_similarity w z = Ok F64.zero.
Proof.
  intros Hz Hw.
  destruct (@cosine_similarity_zero_vector z w Hz Hw) as [H1 H2].
  split.
  - apply (@mul_zero_finite _ _ (@norm_zero_vector z Hz) Hw).
  - unfold _cosine_similarity. rewrite H1, H2. now split.
Qed.

Lemma cosine_similarity_of_the_zero_vector_witness :
  zero_vector [F64.zero; S754_zero true]
  /\ F64.is_finite (np_linalg_norm [three; four]) = true
  /\ _cosine_similarity [F64.zero; S754_zero true] [three; four]
     = Ok F64.zero.
Proof.
  assert (Hz : zero_vector [F64.zero; S754_zero true])
    by (repeat constructor).
  assert (Hw : F64.is_finite (np_linalg_norm [three; four]) = true)
    by (vm_compute; reflexivity).
  split; [exact Hz|]. split; [exact Hw|].
  exact (proj1 (proj2 (@cosine_similarity_of_the_zero_vector _ _ Hz Hw))).
Defined.

(** Where the norm of the other vector overflows, the denominator is
    [0.0 * inf], which is not a number and not equal to zero: the test of
    the denominator does not apply and the similarity of a vector of zeros
    with it is not a number either. *)
Theorem cosine_similarity_of_the_zero_vector_at_overflow
    (z w : list F64.float) :
  zero_vector z -> F64.is_finite (np_linalg_norm w) = false ->
  List.length z = List.length w ->
  _cosine_similarity z w = Ok F64.nan.
Proof. apply cosine_similarity_zero_vector_overflow. Qed.

Lemma cosine_similarity_of_the_zero_vector_at_overflow_witness :
  zero_vector [F64.zero]
  /\ F64.is_finite (np_linalg_norm [Sample.huge]) = false
  /\ List.length [F64.zero] = List.length [Sample.huge]
  /\ _cosine_similarity [F64.zero] [Sample.huge] = Ok F64.nan.
Proof.
  assert (Hz : zero_vector [F64.zero]) by (repeat constructor).
  assert (Hw : F64.is_finite (np_linalg_norm [Sample.huge]) = false)
    by (vm_compute; reflexivity).
  split; [exact Hz|]. split; [exact Hw|]. split; [reflexivity|].
  exact (@cosine_similarity_of_the_zero_vector_at_overflow _ _ Hz Hw
           eq_refl).
Defined.
(** ** The checks on an uploaded file *)

(** [validate_file] accepts exactly the uploads whose file is there, is
    not empty and not larger than [max_file_size], has an allowed
    extension and, for the extension [pdf], can be opened as a PDF with at
    least one page. *)
Theorem validate_file_accepts_exactly_the_acceptable
    (upload : DocumentFiles.UploadSettings) (str_lower : pystr -> pystr)
    (facts : DocumentFiles.FileFacts) (filename : pystr) :
  DocumentFiles.report_is_valid
    (DocumentFiles.validate_file upload str_lower facts filename) = true
  <-> exists file_size, acceptable upload str_lower facts filename file_size.
Proof. apply validate_file_accepts. Qed.

(** A report is valid exactly when it lists no error, so a refusal always
    gives a reason; and what [magic] answers about the type of the file
    changes neither the verdict nor the errors, only the warnings. *)
Theorem validate_file_refusals_have_reasons
    (upload : DocumentFiles.UploadSettings) (str_lower : pystr -> pystr)
    (facts : DocumentFiles.FileFacts) (filename : pystr)
    (answer : result pystr) :
  let r := DocumentFiles.validate_file upload str_lower facts filename in
  let r' := DocumentFiles.validate_file upload str_lower
              (with_magic facts answer) filename in
  (DocumentFiles.report_is_valid r = true
   <-> DocumentFiles.report_errors r = [])
  /\ DocumentFiles.report_is_valid r' = DocumentFiles.report_is_valid r
  /\ DocumentFiles.report_errors r' = DocumentFiles.report_errors r.
Proof.
  cbv zeta. split; [apply validate_file_errors | apply validate_file_magic].
Qed.

(** An upload that is not acceptable is refused before anything is read
    or stored: [process_document] raises a [FileValidationError] whose
    message lists the errors of the report, of which there is at least
    one, and only the count of calls has changed. *)
Theorem process_document_refuses_an_unacceptable_file
    (upload : DocumentFiles.UploadSettings) (fs : FileSystem) (env : Env)
    (file_path filename : pystr) (w : World) :
  (forall n, ~ acceptable upload (str_lower env)
                 (facts_at fs (calls w) file_path) filename n) ->
  let report := DocumentFiles.validate_file upload (str_lower env)
                  (facts_at fs (calls w) file_path) filename in
  process_document (with_files upload fs env) file_path filename w
  = (Raise (Exn FileValidationError
              (lit "File validation failed: "
                 ++ join (lit ", ") (DocumentFiles.report_errors report))),
     with_calls w (S (calls w)))
  /\ DocumentFiles.report_errors report <> [].
Proof. apply process_document_unacceptable. Qed.

Lemma process_document_refuses_an_unacceptable_file_witness :
  (forall n, ~ acceptable DocumentFiles.default_upload_settings
                 (str_lower Sample.env)
                 (facts_at SampleFiles.fs (calls initial_world)
                    (lit "missing")) (lit "cat.txt") n)
  /\ process_document SampleFiles.env (lit "missing") (lit "cat.txt")
       initial_world
     = (Raise (Exn FileValidationError
                 (lit "File validation failed: File does not exist")),
        with_calls initial_world 1).
Proof.
  assert (H : forall n, ~ acceptable DocumentFiles.default_upload_settings
                            (str_lower Sample.env)
                            (facts_at SampleFiles.fs (calls initial_world)
                               (lit "missing")) (lit "cat.txt") n).
  { intros n (He & _). vm_compute in He. discriminate. }
  split; [exact H|].
  exact (proj1 (@process_document_refuses_an_unacceptable_file
                  DocumentFiles.default_upload_settings SampleFiles.fs
                  Sample.env (lit "missing") (lit "cat.txt") initial_world
                  H)).
Defined.

(** Every document that [process_document] returns comes from an
    acceptable upload, and the size it records is the size of the file. *)
Theorem process_document_stores_only_acceptable_files
    (upload : DocumentFiles.UploadSettings) (fs : FileSystem) (env : Env)
    (file_path filename : pystr) (w w' : World) (d : Document) :
  process_document (with_files upload fs env) file_path filename w
    = (Ok d, w') ->
  exists n,
    acceptable upload (str_lower env) (facts_at fs (calls w) file_path)
      filename n
    /\ size d = n.
Proof. apply process_document_acceptable. Qed.

Lemma process_document_stores_only_acceptable_files_witness :
  exists d w',
    process_document SampleFiles.env Sample.cat_text (lit "cat.txt")
      initial_world = (Ok d, w')
    /\ acceptable DocumentFiles.default_upload_settings
         (str_lower Sample.env)
         (facts_at SampleFiles.fs (calls initial_world) Sample.cat_text)
         (lit "cat.txt") 25
    /\ size d = 25%Z.
Proof.
  destruct (process_document SampleFiles.env Sample.cat_text (lit "cat.txt")
              initial_world) as [[d|e] w'] eqn:E;
    [|vm_compute in E; discriminate].
  destruct (@process_document_stores_only_acceptable_files
              DocumentFiles.default_upload_settings SampleFiles.fs
              Sample.env Sample.cat_text (lit "cat.txt") initial_world w' d E)
    as (n & Ha & Hs).
  assert (Hn : n = 25%Z).
  { destruct Ha as (_ & Hg & _). vm_compute in Hg. now injection Hg as <-. }
  rewrite Hn in Ha, Hs.
  exists d, w'. split; [reflexivity|]. split; [exact Ha | exact Hs].
Defined.
(** ** The text extractors *)

(** The text [extract_text_from_pdf] returns is stripped, not empty, and
    begins with a page marker, the line that [chunk_document] reads page
    numbers from; whatever it raises is a [DocumentProcessingError]. *)
Theorem extract_text_from_pdf_begins_with_a_page_marker
    (reader : result (list (result pystr))) :
  match DocumentFiles.extract_text_from_pdf reader with
  | Ok text => clean text /\ is_marker text = true
  | Raise e => exn_kind e = DocumentProcessingError
  end.
Proof. apply extract_text_from_pdf_result. Qed.

(** The chunks of a PDF all carry the number of the last page that has
    text - the pages after it are blank or unreadable - whatever page
    their content comes from, provided no line of that last page begins
    like a page marker (and [int] reads the decimal number of the page). *)
Theorem pdf_chunks_all_carry_the_last_page
    (py_int : pystr -> option Z) (front back : list (result pystr))
    (t filename : pystr) :
  py_int (str_of_int (len front + 1)) = Some (len front + 1)%Z ->
  truthy (strip t) = true ->
  Forall no_text back ->
  no_marker_line t ->
  exists text,
    DocumentFiles.extract_text_from_pdf (Ok (front ++ Ok t :: back))
      = Ok text
    /\ final_page py_int text = (len front + 1)%Z
    /\ Forall (fun c => page_number c = Some (len front + 1)%Z)
              (chunk_document py_int text filename).
Proof. apply pdf_last_page. Qed.

Lemma pdf_chunks_all_carry_the_last_page_witness :
  let front := SampleFiles.pdf_front in
  let t := SampleFiles.pdf_last in
  let back := SampleFiles.pdf_back in
  ascii_int (str_of_int (len front + 1)) = Some (len front + 1)%Z
  /\ truthy (strip t) = true
  /\ Forall no_text back
  /\ no_marker_line t
  /\ exists text,
       DocumentFiles.extract_text_from_pdf (Ok (front ++ Ok t :: back))
         = Ok text
       /\ Forall (fun c => page_number c = Some 2%Z)
                 (chunk_document ascii_int text (lit "a.pdf")).
Proof.
  cbv zeta.
  assert (H1 : ascii_int (str_of_int (len SampleFiles.pdf_front + 1))
               = Some (len SampleFiles.pdf_front + 1)%Z)
    by apply ascii_int_str_of_int.
  assert (H2 : truthy (strip SampleFiles.pdf_last) = true) by reflexivity.
  assert (H3 : Forall no_text SampleFiles.pdf_back) by (repeat constructor).
  assert (H4 : no_marker_line SampleFiles.pdf_last) by (repeat constructor).
  split; [exact H1|]. split; [exact H2|]. split; [exact H3|].
  split; [exact H4|].
  destruct (@pdf_chunks_all_carry_the_last_page ascii_int
              SampleFiles.pdf_front SampleFiles.pdf_back SampleFiles.pdf_last
              (lit "a.pdf") H1 H2 H3 H4) as (text & E & _ & H).
  exists text. split; [exact E | exact H].
Defined.

(** The first chunk of the sample PDF holds the 4000 characters of the
    first page and carries the page number 2. *)
Example pdf_first_chunk_carries_page_2 :
  DocumentFiles.extract_text_from_pdf
    (Ok (SampleFiles.pdf_front ++ Ok SampleFiles.pdf_last
           :: SampleFiles.pdf_back))
  = Ok SampleFiles.pdf_text
  /\ map (fun c => (page_number c, len (chunk_content c)))
         (chunk_document ascii_int SampleFiles.pdf_text (lit "a.pdf"))
     = [(Some 2%Z, 4000%Z); (Some 2%Z, 15%Z)].
Proof. split; [apply sample_pdf_text | apply sample_pdf_chunks]. Qed.

(** The text [extract_text_from_txt] returns is stripped; it is not empty
    when the file is read as UTF-8, while the fallback to Latin-1 returns
    the text of a blank file as the empty string; whatever it raises is a
    [DocumentProcessingError]. *)
Theorem extract_text_from_txt_is_stripped
    (utf8 : DocumentFiles.Utf8Read) (latin1 : result pystr) :
  match DocumentFiles.extract_text_from_txt utf8 latin1 with
  | Ok text =>
      strip text = text
      /\ (utf8 <> DocumentFiles.UnicodeDecodeError -> text <> [])
  | Raise e => exn_kind e = DocumentProcessingError
  end.
Proof. apply extract_text_from_txt_result. Qed.

(** A blank file that is not UTF-8 is read as the empty text. *)
Example extract_text_from_txt_blank_latin1 :
  DocumentFiles.extract_text_from_txt DocumentFiles.UnicodeDecodeError
    (Ok (lit "  ")) = Ok [].
Proof. reflexivity. Qed.
(** ** The routes *)

(** The search route answers every request whose limit is not negative,
    and writes nothing.  Its response says [success], repeats the query
    and counts its results, which are no more than the limit, each at or
    above the threshold of the request (the configured default is never
    in effect here) and in non-increasing order of similarity.  Its one
    error is the status 500 with the detail [Search operation failed],
    given when the embedding of the query raises or is returned as [None];
    the cause is not passed on. *)
Theorem search_route_answers_within_limit_and_threshold
    (env : Env) (q : pystr) (limit : Z) (threshold : F64.float)
    (document_ids : option pystr) (w : World) :
  (0 <= limit)%Z ->
  exists r w',
    Routes.search_documents_route env q limit threshold document_ids w
      = (Ok r, w')
    /\ same_stores w w'
    /\ match r with
       | Routes.Response body =>
           Routes.search_success body = true
           /\ Routes.search_query body = q
           /\ Routes.total_results body = len (Routes.search_results body)
           /\ (Routes.total_results body <= limit)%Z
           /\ Forall (fun r => F64.geb (similarity r) threshold = true)
                     (Routes.search_results body)
           /\ StronglySorted by_similarity (Routes.search_results body)
       | Routes.HTTPException status_code detail =>
           status_code = 500%Z
           /\ detail = lit "Search operation failed"
           /\ exists w1,
                (exists e,
                    generate_embedding env q (with_calls w (S (calls w)))
                    = (Raise e, w1))
                \/ generate_embedding env q (with_calls w (S (calls w)))
                   = (Ok None, w1)
       end.
Proof. apply search_documents_route_answers. Qed.

Lemma search_route_answers_within_limit_and_threshold_witness :
  (0 <= 5)%Z
  /\ exists body w',
       Routes.search_documents_route Sample.env (lit "q") 5 F64.c0_4 None
         Sample.world2 = (Ok (Routes.Response body), w')
       /\ Routes.total_results body = 2%Z
       /\ Forall (fun r => F64.geb (similarity r) F64.c0_4 = true)
                 (Routes.search_results body).
Proof.
  split; [lia|].
  destruct (@search_route_answers_within_limit_and_threshold Sample.env
              (lit "q") 5 F64.c0_4 None Sample.world2 ltac:(lia))
    as (r & w' & E & _ & H).
  destruct r as [body|code detail].
  - exists body, w'. split; [exact E|].
    destruct H as (_ & _ & Ht & _ & Hf & _). split; [|exact Hf].
    apply (f_equal fst) in E. cbn [fst] in E. vm_compute in E.
    injection E as <-. reflexivity.
  - exfalso. apply (f_equal fst) in E. cbn [fst] in E. vm_compute in E.
    discriminate.
Defined.

(** A [document_ids] parameter that holds separators and blanks only
    filters nothing: the route searches every document, as it does
    without the parameter. *)
Theorem search_route_blank_document_ids_filter_nothing
    (env : Env) (q : pystr) (limit : Z) (threshold : F64.float)
    (c : char) (s : pystr) (w : World) :
  Forall blank (split_on 44%N (c :: s)) ->
  Routes.search_documents_route env q limit threshold (Some (c :: s)) w
  = Routes.search_documents_route env q limit threshold None w.
Proof. apply search_documents_route_blank_ids. Qed.

Lemma search_route_blank_document_ids_filter_nothing_witness :
  Forall blank (split_on 44%N (44%N :: lit " "))
  /\ Routes.search_documents_route Sample.env (lit "q") 5 F64.c0_4
       (Some (44%N :: lit " ")) Sample.world2
     = Routes.search_documents_route Sample.env (lit "q") 5 F64.c0_4 None
         Sample.world2.
Proof.
  assert (H : Forall blank (split_on 44%N (44%N :: lit " ")))
    by (repeat constructor).
  split; [exact H|].
  exact (@search_route_blank_document_ids_filter_nothing Sample.env
           (lit "q") 5 F64.c0_4 44%N (lit " ") Sample.world2 H).
Defined.

(** The delete route.  For an id that is not stored it answers 404 and
    changes nothing.  For a stored document it answers with the message
    of success or, exactly when the file of the document cannot be
    removed, with the status 500; in both cases the document is gone from
    the dictionary, so the get route answers 404 afterwards. *)
Theorem delete_route_then_get_route_answers_404
    (env : Env) (id : pystr) (w : World) :
  World_ok w ->
  exists r w',
    Routes.delete_document_route env id w = (Ok r, w')
    /\ Routes.get_document_route id w'
       = (Ok (Routes.HTTPException 404 (lit "Document not found")), w')
    /\ match ODict.get (ds_documents w) id with
       | None =>
           r = Routes.HTTPException 404 (lit "Document not found")
           /\ w' = w
       | Some document =>
           (r = Routes.HTTPException 500 (lit "Failed to delete document")
            \/ r = Routes.Response
                     {| Routes.delete_success := true;
                        Routes.delete_message :=
                          lit "Document '" ++ filename document
                            ++ lit "' deleted successfully" |})
           /\ (r = Routes.HTTPException 500
                     (lit "Failed to delete document")
               <-> has_file w id = true
                   /\ remove_succeeds env (calls w) = false)
       end.
Proof.
  intros Hok. destruct (ODict.get (ds_documents w) id) as [d|] eqn:Eg.
  - destruct (@delete_document_route_known env id w d Hok Eg)
      as (r & w' & E & H1 & H2 & H3).
    exists r, w'. auto.
  - exists (Routes.HTTPException 404 (lit "Document not found")), w.
    split; [now apply delete_document_route_unknown|].
    split; [|now split].
    rewrite get_document_route_runs. now rewrite Eg.
Qed.

Lemma delete_route_then_get_route_answers_404_witness :
  World_ok Sample.world1
  /\ exists r w',
       Routes.delete_document_route Sample.env Sample.cat_id Sample.world1
         = (Ok r, w')
       /\ r = Routes.Response
                {| Routes.delete_success := true;
                   Routes.delete_message :=
                     lit "Document 'cat.txt' deleted successfully" |}
       /\ Routes.get_document_route Sample.cat_id w'
          = (Ok (Routes.HTTPException 404 (lit "Document not found")), w').
Proof.
  split; [exact sample_world1_ok|].
  destruct (@delete_route_then_get_route_answers_404 Sample.env
              Sample.cat_id Sample.world1 sample_world1_ok)
    as (r & w' & E & Hg & _).
  exists r, w'. split; [exact E|]. split; [|exact Hg].
  apply (f_equal fst) in E. cbn [fst] in E. vm_compute in E.
  injection E as <-. reflexivity.
Defined.

(** The question route answers every request with a [QAResponse], never
    with an error status, and writes nothing; the session id of the
    response is the one of the request when it gives one, and is never
    empty. *)
Theorem ask_route_always_answers
    (env : Env) (request : QARequest) (sid : option pystr) (w : World) :
  exists resp w',
    Routes.ask_question env request sid w = (Ok (Routes.Response resp), w')
    /\ same_stores w w'
    /\ (forall c s, sid = Some (c :: s) -> session_id resp = c :: s)
    /\ session_id resp <> [].
Proof. apply ask_question_answers. Qed.
